(** * The cross-process semaphore/lock of billiard: [Modules/_billiard/semaphore.c]

    A shallow embedding of [BilliardSemLockObject] and of the functions that
    work on it, on both platform branches of the file (POSIX named semaphores
    and Win32 semaphore objects), followed by the properties of the lock that
    the specification states.

    Conventions of the embedding.
    - A C [int]/[long]/[unsigned long]/[DWORD] is a [Z], and every arithmetic
      operation of the source that can leave the range is followed by the
      wrap-around of its type (LP64: [int] 32 bits, [long] 64 bits).
    - A C [double] is the rational number it denotes ([Q]), and every
      operation of the source on doubles is followed by the rounding of its
      exact result to the nearest double, [to_double] (IEEE 754 binary64,
      ties to even, each operation rounded on its own as on x86-64).
      Infinities and NaN are not modelled: a timeout is a finite number, and
      a result beyond the largest double stays the finite number it is,
      which the comparisons and conversions of the source treat as they
      treat an infinity.
    - The operating system and the Python runtime are an abstract world [W]
      with one transition per call the source makes; a call either succeeds
      ([inl]) or fails and sets [errno] ([inr]).  The theorems hold for every
      such world; [Ideal] gives a concrete one on which the code runs.
    - The C functions are written in a state monad that threads the world,
      [errno] and the log of the system calls made so far.
    - The calling thread ([PyThread_get_thread_ident()],
      [GetCurrentThreadId()]) is the argument [tid] of a call.
    - A loop whose number of iterations the world decides carries fuel; a run
      that exhausts it yields [None] in place of a return value. *)

From Stdlib Require Import ZArith List Bool String QArith Qround Qabs Qpower Lia Lqa.
Import ListNotations.
Local Open Scope Z_scope.

Set Implicit Arguments.

(** ** C integer types *)

Definition wrap_signed (bits z : Z) : Z :=
  (z + 2 ^ (bits - 1)) mod 2 ^ bits - 2 ^ (bits - 1).

Definition to_int (z : Z) : Z := wrap_signed 32 z.
Definition to_long (z : Z) : Z := wrap_signed 64 z.
Definition to_ulong (z : Z) : Z := z mod 2 ^ 64.
Definition to_DWORD (z : Z) : Z := z mod 2 ^ 32.

Definition INT_MAX : Z := 2 ^ 31 - 1.
Definition LONG_MAX : Z := 2 ^ 63 - 1.
Definition LONG_MIN : Z := - 2 ^ 63.

(** [(long) d]: truncation toward zero.  C leaves the conversion of a value
    outside the range of [long] undefined; x86-64 yields [LONG_MIN] there,
    which is what this definition does. *)
Definition Qtrunc (q : Q) : Z :=
  if Qle_bool 0 q then Qfloor q else Qceiling q.

Definition double_to_long (q : Q) : Z :=
  let z := Qtrunc q in
  if (LONG_MIN <=? z) && (z <=? LONG_MAX) then z else LONG_MIN.

(** [a < b] and [a >= b] on doubles. *)
Definition Qlt_bool (a b : Q) : bool := negb (Qle_bool b a).
Definition Qge_bool (a b : Q) : bool := Qle_bool b a.

(** ** Doubles *)

(** [2^e], for any integer [e]. *)
Definition pow2 (e : Z) : Q := Qpower (2 # 1) e.

(** For [q > 0], the exponent [e] with [2^e <= q < 2^(e+1)]. *)
Definition Qlog2 (q : Q) : Z :=
  let e := Z.log2 (Qnum q) - Z.log2 (Zpos (Qden q)) in
  if Qle_bool (pow2 e) q then e else e - 1.

(** The integer nearest to [q]; of two equally near, the even one. *)
Definition Qrne (q : Q) : Z :=
  let f := Qfloor q in
  match Qcompare (Qminus q (inject_Z f)) (1 # 2) with
  | Lt => f
  | Gt => f + 1
  | Eq => if Z.even f then f else f + 1
  end.

(** The double nearest to [q > 0]: [q] is rounded to a multiple of the
    unit in the last place of its binade, 53 bits below its leading bit
    and no smaller than the least subnormal, [2^-1074]. *)
Definition round_pos (q : Q) : Q :=
  let u := Z.max (Qlog2 q - 52) (-1074) in
  Qmult (inject_Z (Qrne (Qdiv q (pow2 u)))) (pow2 u).

(** The double nearest to [q]. *)
Definition to_double (q : Q) : Q :=
  match Qcompare q 0 with
  | Eq => 0%Q
  | Gt => round_pos q
  | Lt => Qopp (round_pos (Qopp q))
  end.

(** The numbers that are doubles: at most 53 bits, times a power of two
    no smaller than the least subnormal. *)
Definition is_double (q : Q) : Prop :=
  exists m e : Z, Z.abs m <= 2 ^ 53 /\ -1074 <= e /\ Qeq q (Qmult (inject_Z m) (pow2 e)).

(** ** The data model *)

Definition SEM_HANDLE := Z.

(** [enum { RECURSIVE_MUTEX, SEMAPHORE }] *)
Definition RECURSIVE_MUTEX : Z := 0.
Definition SEMAPHORE : Z := 1.

Record BilliardSemLockObject : Type := mkSemLock {
  handle : SEM_HANDLE;
  last_tid : Z;
  count : Z;
  maxvalue : Z;
  kind : Z;
  name : option string
}.

Definition set_count (o : BilliardSemLockObject) (c : Z) : BilliardSemLockObject :=
  mkSemLock (handle o) (last_tid o) c (maxvalue o) (kind o) (name o).

Definition set_last_tid (o : BilliardSemLockObject) (t : Z) : BilliardSemLockObject :=
  mkSemLock (handle o) t (count o) (maxvalue o) (kind o) (name o).

(** [#define ISMINE(o) (o->count > 0 && PyThread_get_thread_ident() == o->last_tid)] *)
Definition ISMINE (tid : Z) (o : BilliardSemLockObject) : bool :=
  (count o >? 0) && (tid =? last_tid o).

(** The values of [errno] the source tests for, and any other one. *)
Inductive errno_t : Type :=
| ENOERR                     (* 0 *)
| EAGAIN
| EINTR
| ETIMEDOUT
| EOTHER (code : Z).

Definition errno_eqb (a b : errno_t) : bool :=
  match a, b with
  | ENOERR, ENOERR | EAGAIN, EAGAIN | EINTR, EINTR | ETIMEDOUT, ETIMEDOUT => true
  | EOTHER x, EOTHER y => x =? y
  | _, _ => false
  end.

Record timeval : Type := mkTimeval { tv_sec : Z; tv_usec : Z }.
Record timespec : Type := mkTimespec { ts_sec : Z; ts_nsec : Z }.

(** The object passed as [timeout]: [None], an object [PyFloat_AsDouble]
    converts to the given (finite) double, or one it rejects (a string, an integer
    beyond the range of a double). *)
Inductive PyObject : Type :=
| Py_None
| PyNumber (d : Q)
| PyNotANumber.

Definition PyFloat_AsDouble (o : PyObject) : option Q :=
  match o with
  | PyNumber d => Some d
  | _ => None
  end.

Definition is_Py_None (o : PyObject) : bool :=
  match o with Py_None => true | _ => false end.

(** The exception a call leaves set when it returns [NULL]. *)
Inductive PyExc : Type :=
| AssertionError        (* release of a recursive lock not owned by the thread *)
| ValueError            (* released too many times, unrecognized kind *)
| OverflowError         (* timeout is too large *)
| NotImplementedError
| RuntimeError
| OSError (e : errno_t)         (* PyErr_SetFromErrno(PyExc_OSError) *)
| WindowsError                  (* PyErr_SetFromWindowsErr(0) *)
| Billiard_Error (num : Z)      (* Billiard_SetError(NULL, num) *)
| ConversionError               (* set by PyFloat_AsDouble *)
| SignalError                   (* set by a handler run by PyErr_CheckSignals *)
| NoException.                  (* NULL returned with nothing set *)

Inductive PyResult : Type :=
| Py_True
| Py_False
| Py_RETURN_NONE
| PyInt_FromLong (v : Z)
| PyNULL (e : PyExc).

(** The calls of the source into the operating system and the runtime. *)
Inductive syscall : Type :=
| SYS_sem_trywait (h : SEM_HANDLE)
| SYS_sem_wait (h : SEM_HANDLE)
| SYS_sem_post (h : SEM_HANDLE)
| SYS_sem_getvalue (h : SEM_HANDLE)
| SYS_sem_open (nm : string)
| SYS_sem_create (nm : string) (value : Z)
| SYS_sem_close (h : SEM_HANDLE)
| SYS_sem_unlink (nm : string)
| SYS_gettimeofday
| SYS_select (delay : timeval)
| SYS_PyErr_CheckSignals
| SYS_WaitForSingleObject (h : SEM_HANDLE) (msecs : Z)
| SYS_WaitForMultipleObjects (h : SEM_HANDLE) (msecs : Z)
| SYS_ReleaseSemaphore (h : SEM_HANDLE)
| SYS_ResetEvent
| SYS_GetTickCount
| SYS_Sleep (msecs : Z)
| SYS_CreateSemaphore (value max : Z)
| SYS_CloseHandle (h : SEM_HANDLE)
| SYS_PyMem_Malloc
| SYS_PyObject_New.

(** ** The monad of the C functions *)

Record machine (W : Type) : Type := mkMachine {
  os : W;
  errno : errno_t;
  trace : list syscall
}.

Definition M (W A : Type) : Type := machine W -> A * machine W.

Definition ret {W A} (a : A) : M W A := fun m => (a, m).

Definition bind {W A B} (c : M W A) (k : A -> M W B) : M W B :=
  fun m => let (a, m') := c m in k a m'.

Declare Scope sem_scope.
Delimit Scope sem_scope with sem.
Notation "x <- c ;; k" := (bind c (fun x => k))
  (at level 61, c at next level, right associativity) : sem_scope.
Notation "c ;;; k" := (bind c (fun _ => k))
  (at level 61, right associativity) : sem_scope.
Local Open Scope sem_scope.

Definition get_errno {W} : M W errno_t := fun m => (errno m, m).

Definition set_errno {W} (e : errno_t) : M W unit :=
  fun m => (tt, mkMachine (os m) e (trace m)).

(** A call that can fail: on failure the result is [None] (the C call
    returned a negative value, or [SEM_FAILED]) and [errno] is set. *)
Definition syscall_fallible {W A} (ev : syscall) (op : W -> (A + errno_t) * W)
  : M W (option A) :=
  fun m =>
    match op (os m) with
    | (inl a, w) => (Some a, mkMachine w (errno m) (trace m ++ [ev]))
    | (inr e, w) => (None, mkMachine w e (trace m ++ [ev]))
    end.

(** A call that always yields a value. *)
Definition syscall_total {W A} (ev : syscall) (op : W -> A * W) : M W A :=
  fun m =>
    let (a, w) := op (os m) in (a, mkMachine w (errno m) (trace m ++ [ev])).

(** The macros [MP_STANDARD_ERROR] and [MP_EXCEPTION_HAS_BEEN_SET] are
    declared in [multiprocessing.h], which is not among the sources at hand:
    they are parameters of the development. *)
Class MP_Header : Type := {
  MP_STANDARD_ERROR : Z;
  MP_EXCEPTION_HAS_BEEN_SET : Z
}.

(** The Python runtime, on every platform. *)
Class PyRuntime (W : Type) : Type := {
  PyErr_CheckSignals : W -> Z * W;
  PyMem_Malloc : W -> (unit + errno_t) * W;
  PyObject_New : W -> (unit + errno_t) * W
}.

(** ** The POSIX branch ([#else] of [#ifdef MS_WINDOWS]) *)

(** POSIX named semaphores, the clock and [select] used as a sleep.
    [HAVE_BROKEN_SEM_GETVALUE] is the build-time switch of the same name. *)
Class Posix (W : Type) : Type := {
  HAVE_BROKEN_SEM_GETVALUE : bool;
  sem_trywait : SEM_HANDLE -> W -> (unit + errno_t) * W;
  sem_wait : SEM_HANDLE -> W -> (unit + errno_t) * W;
  sem_post : SEM_HANDLE -> W -> (unit + errno_t) * W;
  sem_getvalue : SEM_HANDLE -> W -> (Z + errno_t) * W;
  sem_open : string -> W -> (SEM_HANDLE + errno_t) * W;
  sem_create : string -> Z -> W -> (SEM_HANDLE + errno_t) * W;
  sem_close : SEM_HANDLE -> W -> (unit + errno_t) * W;
  sem_unlink : string -> W -> (unit + errno_t) * W;
  gettimeofday : W -> (timeval + errno_t) * W;
  select : timeval -> W -> (unit + errno_t) * W
}.

Section Unix.

Context {hdr : MP_Header} {W : Type} {rt : PyRuntime W} {px : Posix W}.

Definition do_sem_trywait (h : SEM_HANDLE) : M W (option unit) :=
  syscall_fallible (SYS_sem_trywait h) (sem_trywait h).
Definition do_sem_wait (h : SEM_HANDLE) : M W (option unit) :=
  syscall_fallible (SYS_sem_wait h) (sem_wait h).
Definition do_sem_post (h : SEM_HANDLE) : M W (option unit) :=
  syscall_fallible (SYS_sem_post h) (sem_post h).
Definition do_sem_getvalue (h : SEM_HANDLE) : M W (option Z) :=
  syscall_fallible (SYS_sem_getvalue h) (sem_getvalue h).
Definition do_sem_open (nm : string) : M W (option SEM_HANDLE) :=
  syscall_fallible (SYS_sem_open nm) (sem_open nm).
Definition do_gettimeofday : M W (option timeval) :=
  syscall_fallible SYS_gettimeofday gettimeofday.
Definition do_select (tv : timeval) : M W (option unit) :=
  syscall_fallible (SYS_select tv) (select tv).
Definition do_PyErr_CheckSignals : M W Z :=
  syscall_total SYS_PyErr_CheckSignals PyErr_CheckSignals.

(** The value of a C call that returns [0] on success and [-1] on failure. *)
Definition status (r : option unit) : Z :=
  match r with Some _ => 0 | None => -1 end.

(** The test for timeout of [Billiard_sem_timedwait_save]. *)
Definition deadline_passed (tvdeadline now : timeval) : bool :=
  (tv_sec tvdeadline <? tv_sec now)
  || ((tv_sec tvdeadline =? tv_sec now) && (tv_usec tvdeadline <=? tv_usec now)).

(** [difference]: the time left, in microseconds, as an [unsigned long]. *)
Definition time_left (tvdeadline now : timeval) : Z :=
  to_ulong ((tv_sec tvdeadline - tv_sec now) * 1000000
            + (tv_usec tvdeadline - tv_usec now)).

(** The two caps on [delay]: "maximum is 20 msecs", then the time left. *)
Definition cap_delay (delay difference : Z) : Z :=
  let delay := if delay >? 20000 then 20000 else delay in
  if delay >? difference then difference else delay.

(** The [for (delay = 0 ; ; delay += 1000)] loop of
    [Billiard_sem_timedwait_save], entered with the given [delay]. *)
Fixpoint timedwait_loop (fuel : nat) (sem : SEM_HANDLE) (tvdeadline : timeval)
         (delay : Z) : M W (option Z) :=
  match fuel with
  | O => ret None
  | S fuel' =>
    (* poll *)
    r <- do_sem_trywait sem ;;
    match r with
    | Some _ => ret (Some 0)
    | None =>
      e <- get_errno ;;
      if negb (errno_eqb e EAGAIN) then ret (Some MP_STANDARD_ERROR) else
      (* get current time *)
      t <- do_gettimeofday ;;
      match t with
      | None => ret (Some MP_STANDARD_ERROR)
      | Some now =>
        (* check for timeout *)
        if deadline_passed tvdeadline now then
          set_errno ETIMEDOUT ;;; ret (Some MP_STANDARD_ERROR)
        else
          (* calculate how much time is left *)
          let difference := time_left tvdeadline now in
          (* check delay not too long -- maximum is 20 msecs *)
          let delay := cap_delay delay difference in
          (* sleep *)
          s <- do_select (mkTimeval (delay / 1000000) (delay mod 1000000)) ;;
          match s with
          | None => ret (Some MP_STANDARD_ERROR)
          | Some _ =>
            (* check for signals *)
            res <- do_PyErr_CheckSignals ;;
            if negb (res =? 0) then
              set_errno EINTR ;;; ret (Some MP_EXCEPTION_HAS_BEEN_SET)
            else
              timedwait_loop fuel' sem tvdeadline (to_ulong (delay + 1000))
          end
      end
    end
  end.

Definition Billiard_sem_timedwait_save (fuel : nat) (sem : SEM_HANDLE)
           (deadline : timespec) : M W (option Z) :=
  set_errno ENOERR ;;;
  timedwait_loop fuel sem
    (mkTimeval (ts_sec deadline) (Z.quot (ts_nsec deadline) 1000)) 0.

(** The deadline [Billiard_semlock_acquire] computes from the clock and
    the (already clamped) timeout. *)
Definition compute_deadline (now : timeval) (timeout : Q) : timespec :=
  let sec := double_to_long timeout in
  let nsec :=
    double_to_long
      (to_double
         (Qplus (to_double
                   (Qmult (1000000000 # 1)
                          (to_double (Qminus timeout (to_double (inject_Z sec))))))
                (1 # 2))) in
  let d_sec := to_long (tv_sec now + sec) in
  let d_nsec := to_long (to_long (tv_usec now * 1000) + nsec) in
  mkTimespec (to_long (d_sec + Z.quot d_nsec 1000000000))
             (Z.rem d_nsec 1000000000).

(** The [do ... while] loop of [Billiard_semlock_acquire]; its value is
    the final [res]. *)
Fixpoint acquire_loop (fuel inner : nat) (h : SEM_HANDLE) (blocking : Z)
         (timeout_obj : PyObject) (deadline : timespec) : M W (option Z) :=
  match fuel with
  | O => ret None
  | S fuel' =>
    r <- (if negb (blocking =? 0) && is_Py_None timeout_obj then
            s <- do_sem_wait h ;; ret (Some (status s))
          else if blocking =? 0 then
            s <- do_sem_trywait h ;; ret (Some (status s))
          else
            Billiard_sem_timedwait_save inner h deadline) ;;
    match r with
    | None => ret None
    | Some res =>
      if res =? MP_EXCEPTION_HAS_BEEN_SET then ret (Some res) else
      if res <? 0 then
        e <- get_errno ;;
        if errno_eqb e EINTR then
          sig <- do_PyErr_CheckSignals ;;
          if sig =? 0 then acquire_loop fuel' inner h blocking timeout_obj deadline
          else ret (Some res)
        else ret (Some res)
      else ret (Some res)
    end
  end.

(** What follows the loop. *)
Definition acquire_finish (tid : Z) (self : BilliardSemLockObject) (res : Z)
  : M W (PyResult * BilliardSemLockObject) :=
  if res <? 0 then
    e <- get_errno ;;
    if errno_eqb e EAGAIN || errno_eqb e ETIMEDOUT then ret (Py_False, self)
    else if errno_eqb e EINTR then ret (PyNULL SignalError, self)
    else ret (PyNULL (OSError e), self)
  else
    ret (Py_True, set_last_tid (set_count self (to_int (count self + 1))) tid).

(** The loop and what follows it, once the deadline is known. *)
Definition acquire_wait (fuel : nat) (tid : Z) (self : BilliardSemLockObject)
           (blocking : Z) (timeout_obj : PyObject) (deadline : timespec)
  : M W (option PyResult * BilliardSemLockObject) :=
  r <- acquire_loop fuel fuel (handle self) blocking timeout_obj deadline ;;
  match r with
  | None => ret (None, self)
  | Some res => p <- acquire_finish tid self res ;; ret (Some (fst p), snd p)
  end.

(** [Billiard_semlock_acquire] (POSIX).  [fuel] bounds the iterations of
    the retry loop and of each timed wait. *)
Definition Billiard_semlock_acquire (fuel : nat) (tid : Z)
           (self : BilliardSemLockObject) (blocking : Z) (timeout_obj : PyObject)
  : M W (option PyResult * BilliardSemLockObject) :=
  if (kind self =? RECURSIVE_MUTEX) && ISMINE tid self then
    ret (Some Py_True, set_count self (to_int (count self + 1)))
  else
    let after_deadline := acquire_wait fuel tid self blocking timeout_obj in
    if negb (is_Py_None timeout_obj) then
      match PyFloat_AsDouble timeout_obj with
      | None => ret (Some (PyNULL ConversionError), self)
      | Some timeout =>
        let timeout := if Qlt_bool timeout 0 then 0%Q else timeout in
        t <- do_gettimeofday ;;
        match t with
        | None => e <- get_errno ;; ret (Some (PyNULL (OSError e)), self)
        | Some now => after_deadline (compute_deadline now timeout)
        end
      end
    else after_deadline (mkTimespec 0 0).

(** The [sem_post] and the decrement that end [Billiard_semlock_release]. *)
Definition release_post (self : BilliardSemLockObject)
  : M W (PyResult * BilliardSemLockObject) :=
  p <- do_sem_post (handle self) ;;
  match p with
  | None => e <- get_errno ;; ret (PyNULL (OSError e), self)
  | Some _ => ret (Py_RETURN_NONE, set_count self (to_int (count self - 1)))
  end.

(** [Billiard_semlock_release] (POSIX). *)
Definition Billiard_semlock_release (tid : Z) (self : BilliardSemLockObject)
  : M W (PyResult * BilliardSemLockObject) :=
  if kind self =? RECURSIVE_MUTEX then
    if negb (ISMINE tid self) then ret (PyNULL AssertionError, self)
    else if count self >? 1 then
      ret (Py_RETURN_NONE, set_count self (to_int (count self - 1)))
    else release_post self
  else if HAVE_BROKEN_SEM_GETVALUE then
    (* We will only check properly the maxvalue == 1 case *)
    if maxvalue self =? 1 then
      r <- do_sem_trywait (handle self) ;;
      match r with
      | None =>
        e <- get_errno ;;
        if negb (errno_eqb e EAGAIN) then ret (PyNULL (OSError e), self)
        else (* it is already locked as expected *) release_post self
      | Some _ =>
        (* it was not locked so undo wait and raise *)
        p <- do_sem_post (handle self) ;;
        match p with
        | None => e <- get_errno ;; ret (PyNULL (OSError e), self)
        | Some _ => ret (PyNULL ValueError, self)
        end
      end
    else release_post self
  else
    v <- do_sem_getvalue (handle self) ;;
    match v with
    | None => e <- get_errno ;; ret (PyNULL (OSError e), self)
    | Some sval =>
      if sval >=? maxvalue self then ret (PyNULL ValueError, self)
      else release_post self
    end.

End Unix.

(** ** The Windows branch ([#ifdef MS_WINDOWS]) *)

Definition WAIT_OBJECT_0 : Z := 0.
Definition WAIT_TIMEOUT : Z := 258.
Definition WAIT_FAILED : Z := 4294967295.
Definition INFINITE : Z := 4294967295.
Definition ERROR_TOO_MANY_POSTS : Z := 298.

(** The Win32 calls of the source.  [WaitForMultipleObjects] waits on the
    pair [{self->handle, sigint_event}]; [ReleaseSemaphore] yields the
    previous value, or fails with the code [GetLastError()] then reports. *)
Class Win32 (W : Type) : Type := {
  WaitForSingleObject : SEM_HANDLE -> Z -> W -> Z * W;
  WaitForMultipleObjects : SEM_HANDLE -> Z -> W -> Z * W;
  ReleaseSemaphore : SEM_HANDLE -> W -> (Z + Z) * W;
  ResetEvent : W -> unit * W;
  GetTickCount : W -> Z * W;
  Sleep : Z -> W -> unit * W
}.

Section Windows.

Context {hdr : MP_Header} {W : Type} {rt : PyRuntime W} {win : Win32 W}.

Definition do_WaitForSingleObject (h : SEM_HANDLE) (msecs : Z) : M W Z :=
  syscall_total (SYS_WaitForSingleObject h msecs) (WaitForSingleObject h msecs).
Definition do_WaitForMultipleObjects (h : SEM_HANDLE) (msecs : Z) : M W Z :=
  syscall_total (SYS_WaitForMultipleObjects h msecs) (WaitForMultipleObjects h msecs).
Definition do_ResetEvent : M W unit := syscall_total SYS_ResetEvent ResetEvent.
Definition do_GetTickCount : M W Z := syscall_total SYS_GetTickCount GetTickCount.
Definition do_Sleep (msecs : Z) : M W unit :=
  syscall_total (SYS_Sleep msecs) (Sleep msecs).
Definition win_PyErr_CheckSignals : M W Z :=
  syscall_total SYS_PyErr_CheckSignals PyErr_CheckSignals.

(** [ReleaseSemaphore(handle, 1, ...)]: the previous value, or the last
    error. *)
Definition do_ReleaseSemaphore (h : SEM_HANDLE) : M W (Z + Z) :=
  syscall_total (SYS_ReleaseSemaphore h) (ReleaseSemaphore h).

(** [_Billiard_GetSemaphoreValue]: the status, and the content of [*value]
    after the call when [sval0] was its content before. *)
Definition _Billiard_GetSemaphoreValue (h : SEM_HANDLE) (sval0 : Z) : M W (Z * Z) :=
  r <- do_WaitForSingleObject h 0 ;;
  if r =? WAIT_OBJECT_0 then
    p <- do_ReleaseSemaphore h ;;
    match p with
    | inr _ => ret (MP_STANDARD_ERROR, sval0)
    | inl previous => ret (0, previous + 1)
    end
  else if r =? WAIT_TIMEOUT then ret (0, 0)
  else ret (MP_STANDARD_ERROR, sval0).

(** "calculate timeout": [full_msecs], or the exception raised. *)
Definition win_full_msecs (blocking : Z) (timeout_obj : PyObject) : PyExc + Z :=
  if blocking =? 0 then inr 0
  else if is_Py_None timeout_obj then inr INFINITE
  else
    match PyFloat_AsDouble timeout_obj with
    | None => inl ConversionError
    | Some timeout =>
      let timeout := to_double (Qmult timeout (1000 # 1)) in  (* convert to millisecs *)
      if Qlt_bool timeout 0 then
        inr (to_DWORD (Qtrunc (to_double (Qplus 0 (1 # 2)))))
      else if Qge_bool timeout (Qmult (1 # 2) (inject_Z INFINITE)) then  (* 25 days *)
        inl OverflowError
      else inr (to_DWORD (Qtrunc (to_double (Qplus timeout (1 # 2)))))
    end.

(** The [for ( ; ; )] loop of [Billiard_semlock_acquire]: either the
    function returns from inside the loop ([inl]) or the loop is left with
    [res] ([inr]). *)
Fixpoint win_wait_loop (fuel : nat) (h : SEM_HANDLE) (full_msecs start msecs : Z)
  : M W (option (PyResult + Z)) :=
  match fuel with
  | O => ret None
  | S fuel' =>
    (* do the wait *)
    do_ResetEvent ;;;
    res <- do_WaitForMultipleObjects h msecs ;;
    (* handle result *)
    if negb (res =? WAIT_OBJECT_0 + 1) then ret (Some (inr res)) else
    (* got SIGINT so give signal handler a chance to run *)
    do_Sleep 1 ;;;
    (* if this is main thread let KeyboardInterrupt be raised *)
    sig <- win_PyErr_CheckSignals ;;
    if negb (sig =? 0) then ret (Some (inl (PyNULL SignalError))) else
    (* recalculate timeout *)
    if negb (msecs =? INFINITE) then
      ticks <- do_GetTickCount ;;
      if to_DWORD (ticks - start) >=? full_msecs then ret (Some (inl Py_False))
      else win_wait_loop fuel' h full_msecs start
                         (to_DWORD (full_msecs - to_DWORD (ticks - start)))
    else win_wait_loop fuel' h full_msecs start msecs
  end.

Definition win_acquired (tid : Z) (self : BilliardSemLockObject)
  : BilliardSemLockObject :=
  set_count (set_last_tid self tid) (to_int (count self + 1)).

(** [Billiard_semlock_acquire] (Windows). *)
Definition win_Billiard_semlock_acquire (fuel : nat) (tid : Z)
           (self : BilliardSemLockObject) (blocking : Z) (timeout_obj : PyObject)
  : M W (option PyResult * BilliardSemLockObject) :=
  (* calculate timeout *)
  match win_full_msecs blocking timeout_obj with
  | inl exc => ret (Some (PyNULL exc), self)
  | inr full_msecs =>
    (* check whether we already own the lock *)
    if (kind self =? RECURSIVE_MUTEX) && ISMINE tid self then
      ret (Some Py_True, set_count self (to_int (count self + 1)))
    else
      (* check whether we can acquire without blocking *)
      r <- do_WaitForSingleObject (handle self) 0 ;;
      if r =? WAIT_OBJECT_0 then ret (Some Py_True, win_acquired tid self)
      else
        start <- do_GetTickCount ;;
        l <- win_wait_loop fuel (handle self) full_msecs start full_msecs ;;
        match l with
        | None => ret (None, self)
        | Some (inl early) => ret (Some early, self)
        | Some (inr res) =>
          if res =? WAIT_TIMEOUT then ret (Some Py_False, self)
          else if res =? WAIT_OBJECT_0 then ret (Some Py_True, win_acquired tid self)
          else if res =? WAIT_FAILED then ret (Some (PyNULL WindowsError), self)
          else ret (Some (PyNULL RuntimeError), self)
        end
  end.

(** [Billiard_semlock_release] (Windows). *)
Definition win_Billiard_semlock_release (tid : Z) (self : BilliardSemLockObject)
  : M W (PyResult * BilliardSemLockObject) :=
  let post :=
    p <- do_ReleaseSemaphore (handle self) ;;
    match p with
    | inr err =>
      if err =? ERROR_TOO_MANY_POSTS then ret (PyNULL ValueError, self)
      else ret (PyNULL WindowsError, self)
    | inl _ => ret (Py_RETURN_NONE, set_count self (to_int (count self - 1)))
    end in
  if kind self =? RECURSIVE_MUTEX then
    if negb (ISMINE tid self) then ret (PyNULL AssertionError, self)
    else if count self >? 1 then
      ret (Py_RETURN_NONE, set_count self (to_int (count self - 1)))
    else post
  else post.

End Windows.

(** ** All platforms *)

Section AllPlatforms.

Context {hdr : MP_Header} {W : Type} {rt : PyRuntime W}.

(** The platform macros and build-time switches the common code uses.
    [SEM_CREATE] yields [None] for [SEM_FAILED]; [SEM_GETVALUE] yields its
    status and the content of [sval] after the call, given its
    (indeterminate) content before; [sem_open_existing] is
    [sem_open(name, 0)]. *)
Variable MS_WINDOWS : bool.
Variable broken_sem_getvalue : bool.
Variable SEM_CLEAR_ERROR : M W unit.
Variable SEM_CREATE : string -> Z -> Z -> M W (option SEM_HANDLE).
Variable SEM_GET_LAST_ERROR : M W Z.
Variable SEM_CLOSE : SEM_HANDLE -> M W Z.
Variable SEM_UNLINK : string -> M W Z.
Variable SEM_GETVALUE : SEM_HANDLE -> Z -> M W (Z * Z).
Variable sem_open_existing : string -> M W (option SEM_HANDLE).

Definition do_PyObject_New : M W (option unit) :=
  syscall_fallible SYS_PyObject_New PyObject_New.
Definition do_PyMem_Malloc : M W (option unit) :=
  syscall_fallible SYS_PyMem_Malloc PyMem_Malloc.

(** [Billiard_newsemlockobject] *)
Definition Billiard_newsemlockobject (h : SEM_HANDLE) (knd maxv : Z)
           (nm : option string) : M W (option BilliardSemLockObject) :=
  a <- do_PyObject_New ;;
  match a with
  | None => ret None
  | Some _ =>
    ret (Some {| handle := h; kind := knd; count := 0; last_tid := 0;
                 maxvalue := maxv; name := nm |})
  end.

(** [Billiard_semlock_new]: the new object, or the exception. *)
Definition Billiard_semlock_new (knd value maxv : Z) (nm : string) (unlink : Z)
  : M W (PyExc + BilliardSemLockObject) :=
  if negb (knd =? RECURSIVE_MUTEX) && negb (knd =? SEMAPHORE) then
    ret (inl ValueError)
  else
    let failure (h : option SEM_HANDLE) : M W (PyExc + BilliardSemLockObject) :=
      match h with
      | Some hd => SEM_CLOSE hd ;;; ret (inl (Billiard_Error MP_STANDARD_ERROR))
      | None => ret (inl (Billiard_Error MP_STANDARD_ERROR))
      end in
    c <- (if unlink =? 0 then do_PyMem_Malloc else ret (Some tt)) ;;
    match c with
    | None => failure None
    | Some _ =>
      let name_copy := if unlink =? 0 then Some nm else None in
      SEM_CLEAR_ERROR ;;;
      h <- SEM_CREATE nm value maxv ;;
      match h with
      | None => failure None
      | Some hd =>
        err <- SEM_GET_LAST_ERROR ;;
        if negb (err =? 0) then failure (Some hd) else
        u <- (if unlink =? 0 then ret 0 else SEM_UNLINK nm) ;;
        if u <? 0 then failure (Some hd) else
        o <- Billiard_newsemlockobject hd knd maxv name_copy ;;
        match o with
        | None => failure (Some hd)
        | Some self => ret (inr self)
        end
      end
    end.

(** [Billiard_semlock_rebuild]: [nm] is [None] for a [NULL] name. *)
Definition Billiard_semlock_rebuild (h : SEM_HANDLE) (knd maxv : Z)
           (nm : option string) : M W (option BilliardSemLockObject) :=
  match (if MS_WINDOWS then None else nm) with
  | Some n =>
    r <- sem_open_existing n ;;
    match r with
    | None => ret None
    | Some h' => Billiard_newsemlockobject h' knd maxv nm
    end
  | None => Billiard_newsemlockobject h knd maxv nm
  end.

(** [Billiard_semlock_count] *)
Definition Billiard_semlock_count (self : BilliardSemLockObject) : PyResult :=
  PyInt_FromLong (count self).

(** [Billiard_semlock_ismine] *)
Definition Billiard_semlock_ismine (tid : Z) (self : BilliardSemLockObject)
  : PyResult :=
  if ISMINE tid self then Py_True else Py_False.

(** [Billiard_semlock_getvalue]; [sval0] is the indeterminate content of
    the local [sval] before [SEM_GETVALUE] writes it. *)
Definition Billiard_semlock_getvalue (self : BilliardSemLockObject) (sval0 : Z)
  : M W PyResult :=
  if broken_sem_getvalue then ret (PyNULL NotImplementedError)
  else
    r <- SEM_GETVALUE (handle self) sval0 ;;
    let (st, sval) := r in
    if st <? 0 then ret (PyNULL (Billiard_Error MP_STANDARD_ERROR))
    else
      (* some posix implementations use negative numbers to indicate
         the number of waiting threads *)
      let sval := if sval <? 0 then 0 else sval in
      ret (PyInt_FromLong sval).

(** [Billiard_semlock_afterfork] *)
Definition Billiard_semlock_afterfork (self : BilliardSemLockObject)
  : M W (PyResult * BilliardSemLockObject) :=
  ret (Py_RETURN_NONE, set_count self 0).

End AllPlatforms.

(** The macros of the POSIX branch. *)
Section UnixMacros.

Context {W : Type} {px : Posix W}.

(** [sem_open(name, O_CREAT | O_EXCL, 0600, val)] *)
Definition unix_SEM_CREATE (nm : string) (val max : Z) : M W (option SEM_HANDLE) :=
  syscall_fallible (SYS_sem_create nm val) (sem_create nm val).
Definition unix_SEM_CLEAR_ERROR : M W unit := ret tt.
Definition unix_SEM_GET_LAST_ERROR : M W Z := ret 0.
Definition unix_SEM_CLOSE (h : SEM_HANDLE) : M W Z :=
  r <- syscall_fallible (SYS_sem_close h) (sem_close h) ;; ret (status r).
Definition unix_SEM_UNLINK (nm : string) : M W Z :=
  r <- syscall_fallible (SYS_sem_unlink nm) (sem_unlink nm) ;; ret (status r).
Definition unix_SEM_GETVALUE (h : SEM_HANDLE) (sval0 : Z) : M W (Z * Z) :=
  r <- do_sem_getvalue h ;;
  match r with
  | Some v => ret (0, v)
  | None => ret (-1, sval0)
  end.

End UnixMacros.

(** The common code as compiled on POSIX. *)
Section UnixCommon.

Context {hdr : MP_Header} {W : Type} {rt : PyRuntime W} {px : Posix W}.

Definition unix_semlock_new :=
  Billiard_semlock_new unix_SEM_CLEAR_ERROR unix_SEM_CREATE unix_SEM_GET_LAST_ERROR
                       unix_SEM_CLOSE unix_SEM_UNLINK.
Definition unix_semlock_rebuild :=
  Billiard_semlock_rebuild false do_sem_open.
Definition unix_semlock_getvalue :=
  Billiard_semlock_getvalue HAVE_BROKEN_SEM_GETVALUE unix_SEM_GETVALUE.

End UnixCommon.

(** The common code as compiled on Windows, where a handle that was
    inherited is wrapped as it is and [sem_open] does not exist. *)
Section WindowsCommon.

Context {hdr : MP_Header} {W : Type} {rt : PyRuntime W} {win : Win32 W}.

Definition win_semlock_getvalue :=
  Billiard_semlock_getvalue false _Billiard_GetSemaphoreValue.

End WindowsCommon.

(** ** A concrete world

    One semaphore that no other process touches, a clock in microseconds
    that only sleeping advances, and at most one interrupt signal, raised at
    a given time.  The code above runs on it. *)
Module Ideal.

Record world : Type := mkWorld {
  sem_value : Z;            (* the counter of the kernel semaphore *)
  sem_max : Z;              (* its maximum (enforced by Win32 only) *)
  clock : Z;                (* microseconds since the epoch *)
  sigint_at : option Z      (* when the interrupt signal arrives *)
}.

Definition the_handle : SEM_HANDLE := 3.

Definition with_value (w : world) (v : Z) : world :=
  mkWorld v (sem_max w) (clock w) (sigint_at w).
Definition advance (w : world) (usec : Z) : world :=
  mkWorld (sem_value w) (sem_max w) (clock w + usec) (sigint_at w).

Definition try_down (w : world) : (unit + errno_t) * world :=
  if 0 <? sem_value w then (inl tt, with_value w (sem_value w - 1))
  else (inr EAGAIN, w).

(** A wait on an unavailable semaphore is only ever ended by a signal. *)
Definition down (w : world) : (unit + errno_t) * world :=
  if 0 <? sem_value w then (inl tt, with_value w (sem_value w - 1))
  else (inr EINTR, w).

Definition check_signals (w : world) : Z * world :=
  match sigint_at w with
  | Some t =>
    if t <=? clock w then (-1, mkWorld (sem_value w) (sem_max w) (clock w) None)
    else (0, w)
  | None => (0, w)
  end.

#[global] Instance header : MP_Header :=
  {| MP_STANDARD_ERROR := -1; MP_EXCEPTION_HAS_BEEN_SET := -1006 |}.

#[global] Instance runtime : PyRuntime world :=
  {| PyErr_CheckSignals := check_signals;
     PyMem_Malloc := fun w => (inl tt, w);
     PyObject_New := fun w => (inl tt, w) |}.

Definition posix_with (broken : bool) : Posix world :=
  {| HAVE_BROKEN_SEM_GETVALUE := broken;
     sem_trywait := fun _ => try_down;
     sem_wait := fun _ => down;
     sem_post := fun _ w => (inl tt, with_value w (sem_value w + 1));
     sem_getvalue := fun _ w => (inl (sem_value w), w);
     sem_open := fun _ w => (inl the_handle, w);
     sem_create := fun _ v w => (inl the_handle, with_value w v);
     sem_close := fun _ w => (inl tt, w);
     sem_unlink := fun _ w => (inl tt, w);
     gettimeofday := fun w =>
       (inl (mkTimeval (clock w / 1000000) (clock w mod 1000000)), w);
     select := fun tv w => (inl tt, advance w (tv_sec tv * 1000000 + tv_usec tv)) |}.

#[global] Instance posix : Posix world := posix_with false.


Definition wait_single (msecs : Z) (w : world) : Z * world :=
  if 0 <? sem_value w then (WAIT_OBJECT_0, with_value w (sem_value w - 1))
  else if msecs =? INFINITE then (WAIT_FAILED, w)
  else (WAIT_TIMEOUT, advance w (msecs * 1000)).

Definition wait_multiple (msecs : Z) (w : world) : Z * world :=
  match sigint_at w with
  | Some t =>
    if t <=? clock w then (WAIT_OBJECT_0 + 1, w) else wait_single msecs w
  | None => wait_single msecs w
  end.

#[global] Instance win32 : Win32 world :=
  {| WaitForSingleObject := fun _ => wait_single;
     WaitForMultipleObjects := fun _ => wait_multiple;
     ReleaseSemaphore := fun _ w =>
       if sem_value w <? sem_max w
       then (inl (sem_value w), with_value w (sem_value w + 1))
       else (inr ERROR_TOO_MANY_POSTS, w);
     ResetEvent := fun w => (tt, w);
     GetTickCount := fun w => (to_DWORD (clock w / 1000), w);
     Sleep := fun ms w => (tt, advance w (ms * 1000)) |}.

Definition boot (w : world) : machine world := mkMachine w ENOERR [].

End Ideal.

(** ** A world with a second process

    The concrete world, and another process that posts the semaphore once,
    at a given time: from that time on the unit is there for whoever looks
    at the semaphore.  Every call does what it does in the concrete
    world. *)
Module Shared.

Record world : Type := mkWorld {
  local : Ideal.world;
  post_at : option Z        (* when the other process posts *)
}.

(** The post of the other process, once its time has come. *)
Definition arrive (w : world) : world :=
  match post_at w with
  | Some t =>
    if t <=? Ideal.clock (local w)
    then mkWorld (Ideal.with_value (local w) (Ideal.sem_value (local w) + 1)) None
    else w
  | None => w
  end.

(** A call that does not look at the semaphore. *)
Definition aside {A : Type} (op : Ideal.world -> A * Ideal.world) (w : world)
  : A * world :=
  let (a, l) := op (local w) in (a, mkWorld l (post_at w)).

(** A call on the semaphore. *)
Definition on_sem {A : Type} (op : Ideal.world -> A * Ideal.world) (w : world)
  : A * world :=
  aside op (arrive w).

#[global] Instance runtime : PyRuntime world :=
  {| PyErr_CheckSignals := aside Ideal.check_signals;
     PyMem_Malloc := aside (fun l => (inl tt, l));
     PyObject_New := aside (fun l => (inl tt, l)) |}.

#[global] Instance posix : Posix world :=
  {| HAVE_BROKEN_SEM_GETVALUE := false;
     sem_trywait := fun _ => on_sem Ideal.try_down;
     sem_wait := fun _ => on_sem Ideal.down;
     sem_post := fun _ =>
       on_sem (fun l => (inl tt, Ideal.with_value l (Ideal.sem_value l + 1)));
     sem_getvalue := fun _ => on_sem (fun l => (inl (Ideal.sem_value l), l));
     sem_open := fun _ => aside (fun l => (inl Ideal.the_handle, l));
     sem_create := fun _ v => aside (fun l => (inl Ideal.the_handle, Ideal.with_value l v));
     sem_close := fun _ => aside (fun l => (inl tt, l));
     sem_unlink := fun _ => aside (fun l => (inl tt, l));
     gettimeofday := aside (fun l =>
       (inl (mkTimeval (Ideal.clock l / 1000000) (Ideal.clock l mod 1000000)), l));
     select := fun tv =>
       aside (fun l => (inl tt, Ideal.advance l (tv_sec tv * 1000000 + tv_usec tv))) |}.

Definition boot (w : world) : machine world := mkMachine w ENOERR [].

End Shared.

(** ** Sequences of calls on one instance *)

(** A call on the lock, by the thread [tid]. *)
Inductive call : Type :=
| CallAcquire (fuel : nat) (tid blocking : Z) (timeout_obj : PyObject)
| CallRelease (tid : Z)
| CallAfterFork.

Section Calls.

Variable W : Type.
Variable acquire :
  nat -> Z -> BilliardSemLockObject -> Z -> PyObject ->
  M W (option PyResult * BilliardSemLockObject).
Variable release :
  Z -> BilliardSemLockObject -> M W (PyResult * BilliardSemLockObject).

(** One call: its result ([None] when it does not return within its fuel,
    in which case the fields are as they were) and the instance after it. *)
Definition run_call (c : call) (self : BilliardSemLockObject)
  : M W (option PyResult * BilliardSemLockObject) :=
  match c with
  | CallAcquire fuel tid blocking timeout_obj =>
    acquire fuel tid self blocking timeout_obj
  | CallRelease tid =>
    p <- release tid self ;; ret (Some (fst p), snd p)
  | CallAfterFork =>
    p <- Billiard_semlock_afterfork self ;; ret (Some (fst p), snd p)
  end.

(** The calls one after the other: their results and the final instance. *)
Fixpoint run_calls (cs : list call) (self : BilliardSemLockObject)
  : M W (list (option PyResult) * BilliardSemLockObject) :=
  match cs with
  | [] => ret ([], self)
  | c :: cs' =>
    p <- run_call c self ;;
    q <- run_calls cs' (snd p) ;;
    ret (fst p :: fst q, snd q)
  end.

End Calls.

Definition unix_run_calls {hdr : MP_Header} {W} {rt : PyRuntime W} {px : Posix W} :=
  run_calls (W := W) Billiard_semlock_acquire Billiard_semlock_release.

Definition win_run_calls {W} {rt : PyRuntime W} {win : Win32 W} :=
  run_calls (W := W) win_Billiard_semlock_acquire win_Billiard_semlock_release.

Definition is_acquire_by (tid : Z) (c : call) : Prop :=
  match c with
  | CallAcquire _ t _ _ => t = tid
  | _ => False
  end.

(** An acquire whose arguments the conversion of the timeout on Windows
    accepts. *)
Definition timeout_accepted (c : call) : Prop :=
  match c with
  | CallAcquire _ _ blocking timeout_obj =>
    exists full_msecs : Z, win_full_msecs blocking timeout_obj = inr full_msecs
  | _ => True
  end.

(** ** Reading the log *)

(** The sleeps of a run, in microseconds, in the order they were made. *)
Fixpoint select_delays (tr : list syscall) : list Z :=
  match tr with
  | [] => []
  | SYS_select tv :: tr' => (tv_sec tv * 1000000 + tv_usec tv) :: select_delays tr'
  | _ :: tr' => select_delays tr'
  end.

(** The calls of one round of the poll loop that finds the semaphore taken
    and goes on: the try, the read of the clock, the sleep of [d]
    microseconds, the check for signals. *)
Definition poll_round (h : SEM_HANDLE) (d : Z) : list syscall :=
  [SYS_sem_trywait h; SYS_gettimeofday;
   SYS_select (mkTimeval (d / 1000000) (d mod 1000000)); SYS_PyErr_CheckSignals].

(** The calls of the rounds with the given sleeps, one after the other. *)
Definition poll_rounds (h : SEM_HANDLE) (ds : list Z) : list syscall :=
  flat_map (poll_round h) ds.

(** The time a list of sleeps takes. *)
Definition slept (ds : list Z) : Z := fold_right Z.add 0 ds.


(** How often the semaphore [h] was posted in a log. *)
Fixpoint posts (h : SEM_HANDLE) (tr : list syscall) : nat :=
  match tr with
  | [] => O
  | SYS_sem_post h' :: tr' => if h' =? h then S (posts h tr') else posts h tr'
  | _ :: tr' => posts h tr'
  end.

(** A sequence of delays grows exponentially when each one is the one before
    it times a fixed factor [a / b] above one. *)
Definition exponentially_increasing (ds : list Z) : Prop :=
  exists a b : Z,
    0 < b < a /\
    forall i : nat, (S i < List.length ds)%nat -> b * nth (S i) ds 0 = a * nth i ds 0.

(** The sleeps of a timed wait that finds the semaphore taken throughout,
    written from the behaviour it is to have: the [k]-th sleep lasts [k]
    milliseconds, at most 20 milliseconds, and at most the time [left]; there
    is none once no time is left.  [n] bounds the number of sleeps. *)
Fixpoint linear_schedule (n : nat) (k left : Z) : list Z :=
  match n with
  | O => []
  | S n' =>
    if left <=? 0 then []
    else
      let d := Z.min (Z.min (1000 * k) 20000) left in
      d :: linear_schedule n' (k + 1) (left - d)
  end.

(** An instance as [Billiard_semlock_new] or [Billiard_semlock_rebuild]
    returns it, on any platform (whatever the macros do) and in any world. *)
Definition created_or_attached {hdr : MP_Header} {W : Type} {rt : PyRuntime W}
           (self : BilliardSemLockObject) : Prop :=
  (exists (SEM_CLEAR_ERROR : M W unit)
          (SEM_CREATE : string -> Z -> Z -> M W (option SEM_HANDLE))
          (SEM_GET_LAST_ERROR : M W Z) (SEM_CLOSE : SEM_HANDLE -> M W Z)
          (SEM_UNLINK : string -> M W Z)
          (knd value maxv : Z) (nm : string) (unlink : Z) (m m' : machine W),
      Billiard_semlock_new SEM_CLEAR_ERROR SEM_CREATE SEM_GET_LAST_ERROR SEM_CLOSE
                           SEM_UNLINK knd value maxv nm unlink m = (inr self, m'))
  \/ (exists (MS_WINDOWS : bool)
             (sem_open_existing : string -> M W (option SEM_HANDLE))
             (h knd maxv : Z) (nm : option string) (m m' : machine W),
         Billiard_semlock_rebuild MS_WINDOWS sem_open_existing h knd maxv nm m
         = (Some self, m')).


(** A deadline in microseconds since the epoch, as the timed wait reads it
    ([tv_usec = tv_nsec / 1000]). *)
Definition deadline_usec (deadline : timespec) : Z :=
  ts_sec deadline * 1000000 + Z.quot (ts_nsec deadline) 1000.

(** In the concrete world: no signal arrives up to the time [t]. *)
Definition no_signal_by (w : Ideal.world) (t : Z) : Prop :=
  match Ideal.sigint_at w with
  | None => True
  | Some s => t < s
  end.

(** Whether the instance is a recursive mutex. *)
Definition is_mutex (self : BilliardSemLockObject) : bool :=
  kind self =? RECURSIVE_MUTEX.

(** How one call may change the instance: the kind, the handle and the
    maximum stay, and [count] stays, goes up by one, goes down by one from
    a positive value when [guarded] (the ownership test of a recursive mutex
    passed), or is reset to zero. *)
Definition count_step (guarded : bool) (self self' : BilliardSemLockObject) : Prop :=
  kind self' = kind self
  /\ handle self' = handle self
  /\ maxvalue self' = maxvalue self
  /\ (count self' = count self
      \/ count self' = to_int (count self + 1)
      \/ (count self' = to_int (count self - 1)
          /\ (guarded = true -> 0 < count self))
      \/ count self' = 0).

(** ** The remaining methods *)

Section ZeroTest.

Context {hdr : MP_Header} {W : Type}.

(** The build-time switch, [SEM_GETVALUE], and the two POSIX calls of the
    probe that replaces it under [HAVE_BROKEN_SEM_GETVALUE]. *)
Variable broken_sem_getvalue : bool.
Variable SEM_GETVALUE : SEM_HANDLE -> Z -> M W (Z * Z).
Variable probe_trywait : SEM_HANDLE -> M W (option unit).
Variable probe_post : SEM_HANDLE -> M W (option unit).

(** [Billiard_semlock_iszero]; [sval0] is the indeterminate content of the
    local [sval] before [SEM_GETVALUE] writes it. *)
Definition Billiard_semlock_iszero (self : BilliardSemLockObject) (sval0 : Z)
  : M W PyResult :=
  if broken_sem_getvalue then
    r <- probe_trywait (handle self) ;;
    match r with
    | None =>
      e <- get_errno ;;
      if errno_eqb e EAGAIN then ret Py_True
      else ret (PyNULL (Billiard_Error MP_STANDARD_ERROR))
    | Some _ =>
      p <- probe_post (handle self) ;;
      match p with
      | None => ret (PyNULL (Billiard_Error MP_STANDARD_ERROR))
      | Some _ => ret Py_False
      end
    end
  else
    r <- SEM_GETVALUE (handle self) sval0 ;;
    let (st, sval) := r in
    if st <? 0 then ret (PyNULL (Billiard_Error MP_STANDARD_ERROR))
    else ret (if sval =? 0 then Py_True else Py_False).

End ZeroTest.

(** [_is_zero] as compiled on POSIX and on Windows. *)
Definition unix_semlock_iszero {hdr : MP_Header} {W : Type} {px : Posix W} :=
  Billiard_semlock_iszero (W := W) HAVE_BROKEN_SEM_GETVALUE unix_SEM_GETVALUE
                          do_sem_trywait do_sem_post.

Definition win_semlock_iszero {hdr : MP_Header} {W : Type} {win : Win32 W} :=
  Billiard_semlock_iszero (W := W) false _Billiard_GetSemaphoreValue
                          (fun _ => ret None) (fun _ => ret None).

(** The events of a log that are waits of the Windows acquire on the pair
    of the semaphore and the interrupt event, with their timeouts. *)
Fixpoint multiple_waits (tr : list syscall) : list Z :=
  match tr with
  | [] => []
  | SYS_WaitForMultipleObjects _ msecs :: tr' => msecs :: multiple_waits tr'
  | _ :: tr' => multiple_waits tr'
  end.

(** Whether a call may suspend the thread or take time: a blocking wait
    or a sleep. *)
Definition suspends (ev : syscall) : bool :=
  match ev with
  | SYS_sem_wait _ | SYS_select _ | SYS_Sleep _ => true
  | SYS_WaitForSingleObject _ msecs | SYS_WaitForMultipleObjects _ msecs =>
    negb (msecs =? 0)
  | _ => false
  end.

(** Whether a call raises or reads the value of the semaphore. *)
Definition posts_or_reads (ev : syscall) : bool :=
  match ev with
  | SYS_sem_post _ | SYS_sem_getvalue _ | SYS_ReleaseSemaphore _ => true
  | _ => false
  end.

(** * Properties *)

Unset Implicit Arguments.

(** ** Rounding to a double *)

Section Rounding.

Local Open Scope Q_scope.

Lemma pow2_pos (e : Z) : 0 < pow2 e.
Proof. apply Qpower_0_lt. reflexivity. Qed.

Lemma pow2_plus (a b : Z) : pow2 (a + b) == pow2 a * pow2 b.
Proof. apply Qpower_plus. discriminate. Qed.

Lemma pow2_le (a b : Z) : (a <= b)%Z -> pow2 a <= pow2 b.
Proof. intro H. apply Qpower_le_compat_l; [exact H | discriminate]. Qed.

Lemma pow2_lt_inv (a b : Z) : pow2 a < pow2 b -> (a < b)%Z.
Proof. intro H. apply (Qpower_lt_compat_l_inv (2 # 1)); [exact H | reflexivity]. Qed.

Lemma pow2_Z (n : Z) : (0 <= n)%Z -> pow2 n == inject_Z (2 ^ n).
Proof. intro H. unfold pow2. rewrite Zpower_Qpower by exact H. reflexivity. Qed.

Lemma pow2_succ (a : Z) : pow2 (a + 1) == 2 * pow2 a.
Proof. rewrite pow2_plus. change (pow2 1) with (2 # 1). ring. Qed.

Lemma Qlog2_le (q : Q) : 0 < q -> pow2 (Qlog2 q) <= q.
Proof.
  intro Hq. unfold Qlog2.
  set (a := Z.log2 (Qnum q)). set (b := Z.log2 (Z.pos (Qden q))).
  destruct (Qle_bool (pow2 (a - b)) q) eqn:Hle; [apply Qle_bool_iff; exact Hle |].
  assert (Hn : (0 < Qnum q)%Z).
  { unfold Qlt in Hq. simpl in Hq. lia. }
  assert (Ha : (2 ^ a <= Qnum q)%Z) by (apply Z.log2_spec; exact Hn).
  assert (Hb : (Z.pos (Qden q) < 2 ^ (b + 1))%Z).
  { replace (b + 1)%Z with (Z.succ b) by lia. apply Z.log2_spec. reflexivity. }
  assert (Ha0 : (0 <= a)%Z) by apply Z.log2_nonneg.
  assert (Hb0 : (0 <= b)%Z) by apply Z.log2_nonneg.
  replace (a - b - 1)%Z with (a - (b + 1))%Z by lia.
  unfold pow2. rewrite Qpower_minus by discriminate.
  fold (pow2 a). fold (pow2 (b + 1)).
  rewrite (pow2_Z a) by lia. rewrite (pow2_Z (b + 1)) by lia.
  apply Qle_shift_div_r.
  - assert (0 < 2 ^ (b + 1))%Z by (apply Z.pow_pos_nonneg; lia).
    unfold Qlt. simpl. lia.
  - destruct q as [n d]. simpl in *. unfold Qle. simpl.
    assert (0 < 2 ^ a)%Z by (apply Z.pow_pos_nonneg; lia).
    nia.
Qed.

Lemma Qlog2_lt (q : Q) : 0 < q -> q < pow2 (Qlog2 q + 1).
Proof.
  intro Hq. unfold Qlog2.
  set (a := Z.log2 (Qnum q)). set (b := Z.log2 (Z.pos (Qden q))).
  destruct (Qle_bool (pow2 (a - b)) q) eqn:Hle.
  - assert (Hn : (0 < Qnum q)%Z).
    { unfold Qlt in Hq. simpl in Hq. lia. }
    assert (Ha : (Qnum q < 2 ^ (a + 1))%Z).
    { replace (a + 1)%Z with (Z.succ a) by lia. apply Z.log2_spec. exact Hn. }
    assert (Hb : (2 ^ b <= Z.pos (Qden q))%Z) by (apply Z.log2_spec; reflexivity).
    assert (Ha0 : (0 <= a)%Z) by apply Z.log2_nonneg.
    assert (Hb0 : (0 <= b)%Z) by apply Z.log2_nonneg.
    replace (a - b + 1)%Z with ((a + 1) - b)%Z by lia.
    unfold pow2. rewrite Qpower_minus by discriminate.
    fold (pow2 (a + 1)). fold (pow2 b).
    rewrite (pow2_Z (a + 1)) by lia. rewrite (pow2_Z b) by lia.
    apply Qlt_shift_div_l.
    + assert (0 < 2 ^ b)%Z by (apply Z.pow_pos_nonneg; lia).
      unfold Qlt. simpl. lia.
    + destruct q as [n d]. simpl in *. unfold Qlt. simpl.
      assert (0 < 2 ^ b)%Z by (apply Z.pow_pos_nonneg; lia).
      nia.
  - replace (a - b - 1 + 1)%Z with (a - b)%Z by lia.
    apply Qnot_le_lt. intro H. apply Qle_bool_iff in H. congruence.
Qed.

Lemma Qrne_cases (q : Q) :
  let f := Qfloor q in
  (Qrne q = f /\ q - inject_Z f <= 1 # 2)
  \/ (Qrne q = (f + 1)%Z /\ (1 # 2) <= q - inject_Z f).
Proof.
  intro f. unfold Qrne. fold f.
  destruct (Qcompare (q - inject_Z f) (1 # 2)) eqn:Hc.
  - apply Qeq_alt in Hc. destruct (Z.even f); [left | right]; split; trivial;
      rewrite Hc; apply Qle_refl.
  - apply Qlt_alt in Hc. left. split; [reflexivity | apply Qlt_le_weak; exact Hc].
  - apply Qgt_alt in Hc. right. split; [reflexivity | apply Qlt_le_weak; exact Hc].
Qed.

Lemma Qrne_near (q : Q) :
  inject_Z (Qrne q) - q <= 1 # 2 /\ q - inject_Z (Qrne q) <= 1 # 2.
Proof.
  pose proof (Qfloor_le q) as Hlo. pose proof (Qlt_floor q) as Hhi.
  rewrite inject_Z_plus in Hhi. change (inject_Z 1) with 1 in Hhi.
  destruct (Qrne_cases q) as [[Hr H] | [Hr H]]; rewrite Hr;
    rewrite ?inject_Z_plus; change (inject_Z 1) with 1; split; lra.
Qed.

Lemma Qrne_ge_int (q : Q) (n : Z) : inject_Z n <= q -> (n <= Qrne q)%Z.
Proof.
  intro H. apply Qfloor_resp_le in H. rewrite Qfloor_Z in H.
  destruct (Qrne_cases q) as [[Hr _] | [Hr _]]; rewrite Hr; lia.
Qed.

Lemma Qrne_le_int (q : Q) (n : Z) : q <= inject_Z n -> (Qrne q <= n)%Z.
Proof.
  intro H.
  destruct (Qrne_cases q) as [[Hr _] | [Hr Hhalf]]; rewrite Hr.
  - apply Qfloor_resp_le in H. rewrite Qfloor_Z in H. exact H.
  - pose proof (Qfloor_le q) as Hlo.
    assert (Hlt : inject_Z (Qfloor q) < inject_Z n) by lra.
    rewrite <- Zlt_Qlt in Hlt. lia.
Qed.

Lemma round_pos_nonneg (q : Q) : 0 < q -> 0 <= round_pos q.
Proof.
  intro Hq. unfold round_pos.
  set (u := Z.max (Qlog2 q - 52) (-1074)).
  pose proof (pow2_pos u) as HP.
  assert (H0 : (0 <= Qrne (q / pow2 u))%Z).
  { apply Qrne_ge_int. change (inject_Z 0) with 0.
    apply Qle_shift_div_l; [exact HP | lra]. }
  rewrite Zle_Qle in H0. change (inject_Z 0) with 0 in H0.
  apply Qmult_le_0_compat; lra.
Qed.

Lemma round_pos_near (q : Q) :
  0 < q ->
  let u := Z.max (Qlog2 q - 52) (-1074) in
  round_pos q - q <= pow2 (u - 1) /\ q - round_pos q <= pow2 (u - 1).
Proof.
  intros Hq u. unfold round_pos. fold u.
  pose proof (pow2_pos u) as HP.
  assert (Hhalf : pow2 (u - 1) == pow2 u * (1 # 2)).
  { unfold Z.sub. rewrite pow2_plus. change (pow2 (-1)) with (1 # 2). reflexivity. }
  rewrite Hhalf.
  set (x := q / pow2 u).
  assert (Hx : q == x * pow2 u).
  { unfold x. field. lra. }
  destruct (Qrne_near x) as [H1 H2].
  set (m := inject_Z (Qrne x)) in *.
  split; nra.
Qed.

Lemma round_pos_rel (q : Q) :
  0 < q ->
  round_pos q - q <= q * pow2 (-53) + pow2 (-1075)
  /\ q - round_pos q <= q * pow2 (-53) + pow2 (-1075).
Proof.
  intro Hq. pose proof (round_pos_near q Hq) as H. cbv zeta in H.
  set (u := Z.max (Qlog2 q - 52) (-1074)) in *.
  assert (Hu : pow2 (u - 1) <= q * pow2 (-53) + pow2 (-1075)).
  { pose proof (Qlog2_le q Hq) as He.
    pose proof (pow2_pos (-1075)) as H1. pose proof (pow2_pos (-53)) as H2.
    destruct (Z.max_spec (Qlog2 q - 52) (-1074)) as [[_ Hm] | [_ Hm]]; fold u in Hm;
      rewrite Hm.
    - change (-1074 - 1)%Z with (-1075)%Z. nra.
    - replace (Qlog2 q - 52 - 1)%Z with (Qlog2 q + -53)%Z by lia.
      rewrite pow2_plus. nra. }
  destruct H as [Ha Hb]. split; lra.
Qed.

Lemma round_pos_abs (q : Q) (k : Z) :
  0 < q -> q < pow2 k -> (-1074 <= k - 53)%Z ->
  round_pos q - q <= pow2 (k - 54) /\ q - round_pos q <= pow2 (k - 54).
Proof.
  intros Hq Hk Hsub. pose proof (round_pos_near q Hq) as H. cbv zeta in H.
  set (u := Z.max (Qlog2 q - 52) (-1074)) in *.
  assert (He : (Qlog2 q < k)%Z).
  { apply pow2_lt_inv. pose proof (Qlog2_le q Hq). lra. }
  assert (Hu : pow2 (u - 1) <= pow2 (k - 54)) by (apply pow2_le; lia).
  destruct H as [Ha Hb]. split; lra.
Qed.

Lemma pow2_split (k u : Z) : (u <= k)%Z -> pow2 k == inject_Z (2 ^ (k - u)) * pow2 u.
Proof.
  intro H. rewrite <- pow2_Z by lia. rewrite <- pow2_plus.
  replace (k - u + u)%Z with k by lia. reflexivity.
Qed.

(** A double of the magnitude of [q] or more lies on the grid [q] is
    rounded on; a smaller one is at most the power of two below [q]. *)
Lemma double_on_grid (q r : Q) (m k : Z) :
  0 < q ->
  (Z.abs m <= 2 ^ 53)%Z -> (-1074 <= k)%Z -> r == inject_Z m * pow2 k ->
  let u := Z.max (Qlog2 q - 52) (-1074) in
  (exists n : Z, r == inject_Z n * pow2 u)
  \/ (r <= pow2 (Qlog2 q) /\ pow2 (Qlog2 q) == inject_Z (2 ^ 52) * pow2 u).
Proof.
  intros Hq Hm Hk Hr u.
  destruct (Z_le_gt_dec u k) as [Hge | Hlt].
  - left. exists (m * 2 ^ (k - u))%Z.
    rewrite Hr, (pow2_split k u Hge), inject_Z_mult. ring.
  - right.
    assert (Hu : u = (Qlog2 q - 52)%Z) by (unfold u in *; lia).
    split.
    + rewrite Hr.
      assert (Hm' : inject_Z m <= inject_Z (2 ^ 53)) by (rewrite <- Zle_Qle; lia).
      pose proof (pow2_pos k) as HP.
      assert (H1 : inject_Z m * pow2 k <= inject_Z (2 ^ 53) * pow2 k) by nra.
      assert (H2 : inject_Z (2 ^ 53) * pow2 k == pow2 (53 + k)).
      { rewrite pow2_plus. rewrite (pow2_Z 53) by lia. reflexivity. }
      assert (H3 : pow2 (53 + k) <= pow2 (Qlog2 q)) by (apply pow2_le; lia).
      lra.
    + rewrite <- pow2_Z by lia. rewrite <- pow2_plus. rewrite Hu.
      replace (52 + (Qlog2 q - 52))%Z with (Qlog2 q) by lia. reflexivity.
Qed.

Lemma round_pos_ge (q r : Q) :
  0 < q -> is_double r -> r <= q -> r <= round_pos q.
Proof.
  intros Hq (m & k & Hm & Hk & Hr) Hle.
  pose proof (double_on_grid q r m k Hq Hm Hk Hr) as Hgrid. cbv zeta in Hgrid.
  unfold round_pos.
  set (u := Z.max (Qlog2 q - 52) (-1074)) in *.
  pose proof (pow2_pos u) as HP.
  destruct Hgrid as [[n Hn] | [Hsmall Hpow]].
  - assert (Hrne : (n <= Qrne (q / pow2 u))%Z).
    { apply Qrne_ge_int. apply Qle_shift_div_l; [exact HP | lra]. }
    rewrite Zle_Qle in Hrne. rewrite Hn. nra.
  - assert (Hrne : (2 ^ 52 <= Qrne (q / pow2 u))%Z).
    { apply Qrne_ge_int. apply Qle_shift_div_l; [exact HP |].
      pose proof (Qlog2_le q Hq). lra. }
    rewrite Zle_Qle in Hrne. nra.
Qed.

Lemma round_pos_le (q r : Q) :
  0 < q -> is_double r -> q <= r -> round_pos q <= r.
Proof.
  intros Hq (m & k & Hm & Hk & Hr) Hle.
  pose proof (double_on_grid q r m k Hq Hm Hk Hr) as Hgrid. cbv zeta in Hgrid.
  unfold round_pos.
  set (u := Z.max (Qlog2 q - 52) (-1074)) in *.
  pose proof (pow2_pos u) as HP.
  destruct Hgrid as [[n Hn] | [Hsmall Hpow]].
  - assert (Hrne : (Qrne (q / pow2 u) <= n)%Z).
    { apply Qrne_le_int. apply Qle_shift_div_r; [exact HP | lra]. }
    rewrite Zle_Qle in Hrne. rewrite Hn. nra.
  - pose proof (Qlog2_le q Hq) as He.
    assert (Hrne : (Qrne (q / pow2 u) <= 2 ^ 52)%Z).
    { apply Qrne_le_int. apply Qle_shift_div_r; [exact HP | lra]. }
    rewrite Zle_Qle in Hrne. nra.
Qed.

Lemma is_double_opp (r : Q) : is_double r -> is_double (- r).
Proof.
  intros (m & k & Hm & Hk & Hr). exists (- m)%Z, k.
  split; [lia |]. split; [exact Hk |]. rewrite Hr, inject_Z_opp. ring.
Qed.

Lemma is_double_0 : is_double 0.
Proof. exists 0%Z, 0%Z. split; [discriminate |]. split; [discriminate | reflexivity]. Qed.

(** Rounding never crosses a double. *)
Lemma to_double_ge (q r : Q) : is_double r -> r <= q -> r <= to_double q.
Proof.
  intros Hr Hle. unfold to_double.
  destruct (Qcompare q 0) eqn:Hc.
  - apply Qeq_alt in Hc. lra.
  - apply Qlt_alt in Hc.
    assert (H : round_pos (- q) <= - r).
    { apply round_pos_le; [lra | apply is_double_opp; exact Hr | lra]. }
    lra.
  - apply Qgt_alt in Hc. apply round_pos_ge; [lra | exact Hr | exact Hle].
Qed.

Lemma to_double_le (q r : Q) : is_double r -> q <= r -> to_double q <= r.
Proof.
  intros Hr Hle. unfold to_double.
  destruct (Qcompare q 0) eqn:Hc.
  - apply Qeq_alt in Hc. lra.
  - apply Qlt_alt in Hc.
    assert (H : - r <= round_pos (- q)).
    { apply round_pos_ge; [lra | apply is_double_opp; exact Hr | lra]. }
    lra.
  - apply Qgt_alt in Hc. apply round_pos_le; [lra | exact Hr | exact Hle].
Qed.

(** A double is rounded to itself. *)
Lemma to_double_exact (r : Q) : is_double r -> to_double r == r.
Proof.
  intro Hr. apply Qle_antisym.
  - apply to_double_le; [exact Hr | apply Qle_refl].
  - apply to_double_ge; [exact Hr | apply Qle_refl].
Qed.

(** The rounding error: at most half a unit in the last place. *)
Lemma to_double_near (q : Q) :
  to_double q - q <= Qabs q * pow2 (-53) + pow2 (-1075)
  /\ q - to_double q <= Qabs q * pow2 (-53) + pow2 (-1075).
Proof.
  pose proof (pow2_pos (-1075)) as H1. pose proof (pow2_pos (-53)) as H2.
  unfold to_double.
  destruct (Qcompare q 0) eqn:Hc.
  - apply Qeq_alt in Hc. rewrite Hc. change (Qabs 0) with 0. split; lra.
  - apply Qlt_alt in Hc.
    destruct (round_pos_rel (- q)) as [Ha Hb]; [lra |].
    rewrite (Qabs_neg q) by lra. split; lra.
  - apply Qgt_alt in Hc.
    destruct (round_pos_rel q) as [Ha Hb]; [lra |].
    rewrite (Qabs_pos q) by lra. split; lra.
Qed.

Lemma to_double_near_below (q : Q) (k : Z) :
  0 <= q -> q < pow2 k -> (-1074 <= k - 53)%Z ->
  to_double q - q <= pow2 (k - 54) /\ q - to_double q <= pow2 (k - 54).
Proof.
  intros Hq Hk Hsub. pose proof (pow2_pos (k - 54)) as HP. unfold to_double.
  destruct (Qcompare q 0) eqn:Hc.
  - apply Qeq_alt in Hc. split; lra.
  - apply Qlt_alt in Hc. lra.
  - apply Qgt_alt in Hc. apply round_pos_abs; [lra | exact Hk | exact Hsub].
Qed.

Lemma to_double_nonneg (q : Q) : 0 <= q -> 0 <= to_double q.
Proof. intro H. apply to_double_ge; [apply is_double_0 | exact H]. Qed.

Lemma to_double_nonpos (q : Q) : q <= 0 -> to_double q <= 0.
Proof. intro H. apply to_double_le; [apply is_double_0 | exact H]. Qed.

Lemma is_double_Z (n : Z) : (Z.abs n <= 2 ^ 53)%Z -> is_double (inject_Z n).
Proof.
  intro H. exists n, 0%Z. split; [exact H |]. split; [discriminate |].
  change (pow2 0) with 1. ring.
Qed.

Lemma is_double_half (n : Z) : (Z.abs n < 2 ^ 52)%Z -> is_double (inject_Z n + (1 # 2)).
Proof.
  intro H. exists (2 * n + 1)%Z, (-1)%Z. split; [lia |]. split; [discriminate |].
  change (pow2 (-1)) with (1 # 2). rewrite inject_Z_plus, inject_Z_mult.
  change (inject_Z 2) with 2. change (inject_Z 1) with 1. ring.
Qed.

Lemma to_double_eq (q r : Q) : is_double r -> q == r -> to_double q == r.
Proof.
  intros Hr Hq. apply Qle_antisym.
  - apply to_double_le; [exact Hr | lra].
  - apply to_double_ge; [exact Hr | lra].
Qed.

(** The result of a rounding is a double. *)
Lemma to_double_is_double (q : Q) : is_double (to_double q).
Proof.
  assert (Hpos : forall p : Q, 0 < p -> is_double (round_pos p)).
  { intros p Hp. unfold round_pos.
    set (u := Z.max (Qlog2 p - 52) (-1074)).
    pose proof (pow2_pos u) as HP.
    exists (Qrne (p / pow2 u)), u.
    split; [| split; [unfold u; lia | reflexivity]].
    assert (Hlo : (0 <= Qrne (p / pow2 u))%Z).
    { apply Qrne_ge_int. change (inject_Z 0) with 0.
      apply Qle_shift_div_l; [exact HP | lra]. }
    assert (Hhi : (Qrne (p / pow2 u) <= 2 ^ 53)%Z).
    { apply Qrne_le_int. apply Qle_shift_div_r; [exact HP |].
      pose proof (Qlog2_lt p Hp) as He.
      assert (Hle : pow2 (Qlog2 p + 1) <= pow2 (53 + u)) by (apply pow2_le; unfold u; lia).
      assert (H3 : inject_Z (2 ^ 53) * pow2 u == pow2 (53 + u)).
      { rewrite pow2_plus. rewrite (pow2_Z 53) by lia. reflexivity. }
      lra. }
    lia. }
  unfold to_double. destruct (Qcompare q 0) eqn:Hc.
  - apply is_double_0.
  - apply Qlt_alt in Hc. apply is_double_opp. apply Hpos. lra.
  - apply Qgt_alt in Hc. apply Hpos. exact Hc.
Qed.

(** A double is a multiple of [2^k], or smaller than [2^(k+53)]. *)
Lemma double_multiple (t : Q) (k : Z) :
  is_double t ->
  (exists n : Z, t == inject_Z n * pow2 k)
  \/ (t <= pow2 (k + 52) /\ - pow2 (k + 52) <= t).
Proof.
  intros (m & e & Hm & He & Ht).
  destruct (Z_le_gt_dec k e) as [Hge | Hlt].
  - left. exists (m * 2 ^ (e - k))%Z.
    rewrite Ht, (pow2_split e k Hge), inject_Z_mult. ring.
  - right. pose proof (pow2_pos e) as HP.
    assert (H1 : inject_Z m <= inject_Z (2 ^ 53)) by (rewrite <- Zle_Qle; lia).
    assert (H2 : inject_Z (- 2 ^ 53) <= inject_Z m) by (rewrite <- Zle_Qle; lia).
    rewrite inject_Z_opp in H2.
    assert (H3 : inject_Z (2 ^ 53) * pow2 e == pow2 (53 + e)).
    { rewrite pow2_plus. rewrite (pow2_Z 53) by lia. reflexivity. }
    assert (H4 : pow2 (53 + e) <= pow2 (k + 52)) by (apply pow2_le; lia).
    rewrite Ht. split; nra.
Qed.

End Rounding.

(** ** Ownership on release *)

Ltac run_monad :=
  unfold bind, ret, get_errno, set_errno, syscall_fallible, syscall_total; simpl.

Lemma ISMINE_false_iff (tid : Z) (o : BilliardSemLockObject) :
  ISMINE tid o = false <-> count o <= 0 \/ last_tid o <> tid.
Proof.
  unfold ISMINE. rewrite andb_false_iff, Z.gtb_ltb, Z.ltb_ge, Z.eqb_neq.
  intuition congruence.
Qed.

Lemma ISMINE_true_iff (tid : Z) (o : BilliardSemLockObject) :
  ISMINE tid o = true <-> 0 < count o /\ last_tid o = tid.
Proof.
  unfold ISMINE. rewrite andb_true_iff, Z.gtb_ltb, Z.ltb_lt, Z.eqb_eq.
  intuition congruence.
Qed.

(** C5.  A release of a recursive mutex by a thread that does not own it
    ([count == 0], or another thread acquired it last) fails with the
    [AssertionError] "attempt to release recursive lock not owned by thread",
    and leaves the instance, the world (hence the kernel semaphore), [errno]
    and the log of system calls as they were: no post is issued.  This holds
    on the POSIX and on the Windows branch. *)
Theorem release_by_non_owner_is_rejected :
  forall (W : Type) (px : Posix W) (win : Win32 W)
         (tid : Z) (self : BilliardSemLockObject) (m : machine W),
    kind self = RECURSIVE_MUTEX ->
    count self = 0 \/ last_tid self <> tid ->
    Billiard_semlock_release tid self m = (PyNULL AssertionError, self, m)
    /\ win_Billiard_semlock_release tid self m = (PyNULL AssertionError, self, m).
Proof.
  intros W px win tid self m Hk Hown.
  assert (Hmine : ISMINE tid self = false).
  { apply ISMINE_false_iff. destruct Hown as [H0 | Ht]; [left; lia | right; exact Ht]. }
  unfold Billiard_semlock_release, win_Billiard_semlock_release.
  rewrite Hk, Hmine. simpl. split; reflexivity.
Qed.

Lemma release_by_non_owner_is_rejected_witness :
  let self := mkSemLock Ideal.the_handle 0 0 1 RECURSIVE_MUTEX None in
  let m := Ideal.boot (Ideal.mkWorld 1 1 0 None) in
  Billiard_semlock_release 7 self m = (PyNULL AssertionError, self, m)
  /\ win_Billiard_semlock_release 7 self m = (PyNULL AssertionError, self, m).
Proof.
  intros self m.
  apply (release_by_non_owner_is_rejected Ideal.world Ideal.posix Ideal.win32 7 self m).
  - reflexivity.
  - left. reflexivity.
Defined.

(** ** After a fork *)

(** C7.  [_after_fork] sets [count] to zero whatever it was, and changes
    nothing else: the handle, the kind, the maximum, the name and the thread
    recorded last are as before; the world (hence the counter of the kernel
    semaphore), [errno] and the log are untouched; and [_count] then returns
    zero. *)
Theorem afterfork_resets_count_only :
  forall (W : Type) (self : BilliardSemLockObject) (m : machine W),
    exists self' : BilliardSemLockObject,
      Billiard_semlock_afterfork self m = (Py_RETURN_NONE, self', m)
      /\ count self' = 0
      /\ handle self' = handle self
      /\ kind self' = kind self
      /\ maxvalue self' = maxvalue self
      /\ name self' = name self
      /\ last_tid self' = last_tid self
      /\ Billiard_semlock_count self' = PyInt_FromLong 0.
Proof.
  intros W self m. exists (set_count self 0).
  repeat split; reflexivity.
Qed.

(** ** A rebuilt instance *)

Lemma newsemlockobject_fresh :
  forall (W : Type) (rt : PyRuntime W) (h knd maxv : Z) (nm : option string)
         (m m' : machine W) (self : BilliardSemLockObject),
    Billiard_newsemlockobject h knd maxv nm m = (Some self, m') ->
    self = mkSemLock h 0 0 maxv knd nm.
Proof.
  intros W rt h knd maxv nm m m' self.
  unfold Billiard_newsemlockobject, do_PyObject_New. run_monad.
  destruct (PyObject_New (os m)) as [[[] | e] w]; simpl; intro H; inversion H.
  reflexivity.
Qed.

Lemma rebuild_fresh :
  forall (W : Type) (rt : PyRuntime W) (MS_WINDOWS : bool)
         (sem_open_existing : string -> M W (option SEM_HANDLE))
         (h knd maxv : Z) (nm : option string) (m m' : machine W)
         (self : BilliardSemLockObject),
    Billiard_semlock_rebuild MS_WINDOWS sem_open_existing h knd maxv nm m
    = (Some self, m') ->
    count self = 0 /\ last_tid self = 0 /\ kind self = knd /\ maxvalue self = maxv.
Proof.
  intros W rt MS_WINDOWS sem_open_existing h knd maxv nm m m' self.
  unfold Billiard_semlock_rebuild.
  destruct (if MS_WINDOWS then None else nm) as [n |].
  - unfold bind. destruct (sem_open_existing n m) as [[h' |] m1].
    + intro H. apply newsemlockobject_fresh in H. subst self. simpl. auto.
    + unfold ret. intro H. inversion H.
  - intro H. apply newsemlockobject_fresh in H. subst self. simpl. auto.
Qed.

(** C8.  Every instance [_rebuild] returns has [count == 0] and no thread
    recorded ([last_tid == 0]), whatever the world it was rebuilt in (hence
    whatever the value of the kernel semaphore): [_count] returns 0 and
    [_is_mine] is false for every thread.  The statement is about the common
    code, for either setting of [MS_WINDOWS] and any [sem_open]. *)
Theorem rebuild_starts_unowned :
  forall (W : Type) (rt : PyRuntime W) (MS_WINDOWS : bool)
         (sem_open_existing : string -> M W (option SEM_HANDLE))
         (h knd maxv : Z) (nm : option string) (m m' : machine W)
         (self : BilliardSemLockObject),
    Billiard_semlock_rebuild MS_WINDOWS sem_open_existing h knd maxv nm m
    = (Some self, m') ->
    count self = 0
    /\ last_tid self = 0
    /\ Billiard_semlock_count self = PyInt_FromLong 0
    /\ forall tid : Z, Billiard_semlock_ismine tid self = Py_False.
Proof.
  intros W rt MS_WINDOWS sem_open_existing h knd maxv nm m m' self H.
  apply rebuild_fresh in H. destruct H as (Hc & Ht & _ & _).
  repeat split; trivial.
  - unfold Billiard_semlock_count. now rewrite Hc.
  - intro tid. unfold Billiard_semlock_ismine, ISMINE. now rewrite Hc.
Qed.

Lemma rebuild_starts_unowned_witness :
  exists (self : BilliardSemLockObject) (m' : machine Ideal.world),
    unix_semlock_rebuild 0 RECURSIVE_MUTEX 1 (Some "/mp-lock"%string)
                         (Ideal.boot (Ideal.mkWorld 5 9 0 None))
    = (Some self, m')
    /\ count self = 0
    /\ last_tid self = 0
    /\ Billiard_semlock_count self = PyInt_FromLong 0
    /\ forall tid : Z, Billiard_semlock_ismine tid self = Py_False.
Proof.
  eexists. eexists. split.
  - reflexivity.
  - eapply (rebuild_starts_unowned Ideal.world Ideal.runtime false do_sem_open
              0 RECURSIVE_MUTEX 1 (Some "/mp-lock"%string)
              (Ideal.boot (Ideal.mkWorld 5 9 0 None))).
    reflexivity.
Defined.

(** ** The value of the semaphore *)

(** C9.  [_get_value] never returns a negative number: whatever
    [SEM_GETVALUE] does on the platform, a call that returns an integer [v]
    has [0 <= v], and [v] is the value [SEM_GETVALUE] reported with the
    negative ones (by which some POSIX implementations count the waiting
    threads) replaced by 0; every other outcome is an exception. *)
Theorem getvalue_never_negative :
  forall (hdr : MP_Header) (W : Type) (broken : bool)
         (SEM_GETVALUE : SEM_HANDLE -> Z -> M W (Z * Z))
         (self : BilliardSemLockObject) (sval0 : Z) (m m' : machine W)
         (r : PyResult),
    Billiard_semlock_getvalue broken SEM_GETVALUE self sval0 m = (r, m') ->
    match r with
    | PyInt_FromLong v =>
      0 <= v
      /\ exists st sval : Z,
           SEM_GETVALUE (handle self) sval0 m = (st, sval, m') /\ v = Z.max 0 sval
    | PyNULL _ => True
    | _ => False
    end.
Proof.
  intros hdr W broken SEM_GETVALUE self sval0 m m' r.
  unfold Billiard_semlock_getvalue.
  destruct broken.
  - unfold ret. intro H. inversion H. exact I.
  - unfold bind. destruct (SEM_GETVALUE (handle self) sval0 m) as [[st sval] m1].
    destruct (st <? 0).
    + unfold ret. intro H. inversion H. exact I.
    + unfold ret. intro H. inversion H. subst.
      destruct (Z.ltb_spec sval 0).
      * split; [lia |]. exists st, sval. split; [reflexivity | lia].
      * split; [lia |]. exists st, sval. split; [reflexivity | lia].
Qed.

Lemma getvalue_never_negative_witness :
  let m := Ideal.boot (Ideal.mkWorld (-2) 1 0 None) in
  let self := mkSemLock Ideal.the_handle 0 0 1 SEMAPHORE None in
  unix_semlock_getvalue self 12345 m = (PyInt_FromLong 0, snd (unix_semlock_getvalue self 12345 m))
  /\ 0 <= 0
  /\ exists st sval : Z,
       unix_SEM_GETVALUE (handle self) 12345 m
       = (st, sval, snd (unix_semlock_getvalue self 12345 m))
       /\ 0 = Z.max 0 sval.
Proof.
  intros m self. split.
  - reflexivity.
  - exact (getvalue_never_negative Ideal.header Ideal.world false unix_SEM_GETVALUE
             self 12345 m _ (PyInt_FromLong 0) eq_refl).
Defined.

(** ** The local count *)

Lemma to_int_small (z : Z) : - 2 ^ 31 <= z < 2 ^ 31 -> to_int z = z.
Proof.
  intro H. unfold to_int, wrap_signed.
  change (2 ^ (32 - 1)) with (2 ^ 31).
  rewrite Z.mod_small; [lia |].
  change (2 ^ 32) with (2 * 2 ^ 31). lia.
Qed.

Lemma INT_MAX_eq : INT_MAX = 2 ^ 31 - 1.
Proof. reflexivity. Qed.

Lemma count_step_same (g : bool) (self : BilliardSemLockObject) : count_step g self self.
Proof. unfold count_step. repeat split; auto 6. Qed.

Lemma count_step_up (g : bool) (self : BilliardSemLockObject) :
  count_step g self (set_count self (to_int (count self + 1))).
Proof. unfold count_step. simpl. repeat split; auto 6. Qed.

Lemma count_step_up_tid (g : bool) (self : BilliardSemLockObject) (tid : Z) :
  count_step g self (set_last_tid (set_count self (to_int (count self + 1))) tid).
Proof. unfold count_step. simpl. repeat split; auto 6. Qed.

Lemma count_step_up_tid' (g : bool) (self : BilliardSemLockObject) (tid : Z) :
  count_step g self (set_count (set_last_tid self tid) (to_int (count self + 1))).
Proof. unfold count_step. simpl. repeat split; auto 6. Qed.

Lemma count_step_down (g : bool) (self : BilliardSemLockObject) :
  (g = true -> 0 < count self) ->
  count_step g self (set_count self (to_int (count self - 1))).
Proof. unfold count_step. simpl. repeat split; auto 6. Qed.

Lemma count_step_zero (g : bool) (self : BilliardSemLockObject) :
  count_step g self (set_count self 0).
Proof. unfold count_step. simpl. repeat split; auto 6. Qed.

Create HintDb semlock.

#[local] Hint Resolve count_step_same count_step_up count_step_up_tid
  count_step_up_tid' count_step_down count_step_zero : semlock.

Section UnixCount.

Context {hdr : MP_Header} {W : Type} {rt : PyRuntime W} {px : Posix W}.

Lemma acquire_finish_count_step :
  forall (tid : Z) (self : BilliardSemLockObject) (res : Z) (m : machine W) (g : bool),
    count_step g self (snd (fst (acquire_finish tid self res m))).
Proof.
  intros tid self res m g. unfold acquire_finish.
  destruct (res <? 0); run_monad; [| auto with semlock].
  destruct (errno_eqb (errno m) EAGAIN || errno_eqb (errno m) ETIMEDOUT);
    simpl; [auto with semlock |].
  destruct (errno_eqb (errno m) EINTR); simpl; auto with semlock.
Qed.

Lemma acquire_count_step :
  forall (fuel : nat) (tid : Z) (self : BilliardSemLockObject) (blocking : Z)
         (timeout_obj : PyObject) (m : machine W) (g : bool),
    count_step g self
      (snd (fst (Billiard_semlock_acquire fuel tid self blocking timeout_obj m))).
Proof.
  intros fuel tid self blocking timeout_obj m g.
  assert (Hafter : forall deadline m0,
    count_step g self
      (snd (fst (acquire_wait fuel tid self blocking timeout_obj deadline m0)))).
  { intros deadline m0. unfold acquire_wait. unfold bind at 1.
    destruct (acquire_loop fuel fuel (handle self) blocking timeout_obj deadline m0)
      as [[res |] m1]; [| simpl; auto with semlock].
    unfold bind, ret.
    pose proof (acquire_finish_count_step tid self res m1 g) as Hf.
    destruct (acquire_finish tid self res m1) as [[r s] m2]. exact Hf. }
  unfold Billiard_semlock_acquire.
  destruct ((kind self =? RECURSIVE_MUTEX) && ISMINE tid self);
    [simpl; auto with semlock |].
  destruct (negb (is_Py_None timeout_obj)); [| apply Hafter].
  destruct (PyFloat_AsDouble timeout_obj) as [timeout |]; [| simpl; auto with semlock].
  unfold bind at 1, do_gettimeofday, syscall_fallible.
  destruct (gettimeofday (os m)) as [[now | e] w]; [apply Hafter |].
  simpl. auto with semlock.
Qed.

Lemma release_post_count_step :
  forall (self : BilliardSemLockObject) (m : machine W) (g : bool),
    (g = true -> 0 < count self) ->
    count_step g self (snd (fst (release_post self m))).
Proof.
  intros self m g Hg. unfold release_post, do_sem_post. run_monad.
  destruct (sem_post (handle self) (os m)) as [[[] | e] w]; simpl;
    auto with semlock.
Qed.

Lemma release_count_step :
  forall (tid : Z) (self : BilliardSemLockObject) (m : machine W),
    count_step (is_mutex self) self (snd (fst (Billiard_semlock_release tid self m))).
Proof.
  intros tid self m. unfold Billiard_semlock_release, is_mutex.
  destruct (kind self =? RECURSIVE_MUTEX).
  - destruct (ISMINE tid self) eqn:Hmine; simpl; [| auto with semlock].
    apply ISMINE_true_iff in Hmine.
    destruct (count self >? 1); simpl.
    + apply count_step_down. intros _. lia.
    + apply release_post_count_step. intros _. lia.
  - destruct HAVE_BROKEN_SEM_GETVALUE.
    + destruct (maxvalue self =? 1);
        [| apply release_post_count_step; discriminate].
      unfold bind at 1, do_sem_trywait, syscall_fallible.
      destruct (sem_trywait (handle self) (os m)) as [[[] | e] w].
      * unfold bind, do_sem_post, syscall_fallible. simpl.
        destruct (sem_post (handle self) w) as [[[] | e'] w']; simpl;
          auto with semlock.
      * unfold bind at 1, get_errno. simpl.
        destruct (negb (errno_eqb e EAGAIN)); simpl; [auto with semlock |].
        apply release_post_count_step. discriminate.
    + unfold bind at 1, do_sem_getvalue, syscall_fallible.
      destruct (sem_getvalue (handle self) (os m)) as [[sval | e] w].
      * destruct (sval >=? maxvalue self); simpl; [auto with semlock |].
        apply release_post_count_step. discriminate.
      * simpl. auto with semlock.
Qed.

End UnixCount.

Section WindowsCount.

Context {W : Type} {rt : PyRuntime W} {win : Win32 W}.

Lemma win_acquire_count_step :
  forall (fuel : nat) (tid : Z) (self : BilliardSemLockObject) (blocking : Z)
         (timeout_obj : PyObject) (m : machine W) (g : bool),
    count_step g self
      (snd (fst (win_Billiard_semlock_acquire fuel tid self blocking timeout_obj m))).
Proof.
  intros fuel tid self blocking timeout_obj m g.
  unfold win_Billiard_semlock_acquire.
  destruct (win_full_msecs blocking timeout_obj) as [exc | full_msecs];
    [simpl; auto with semlock |].
  destruct ((kind self =? RECURSIVE_MUTEX) && ISMINE tid self);
    [simpl; auto with semlock |].
  unfold bind at 1, do_WaitForSingleObject, syscall_total.
  destruct (WaitForSingleObject (handle self) 0 (os m)) as [r w].
  destruct (r =? WAIT_OBJECT_0); [simpl; unfold win_acquired; auto with semlock |].
  unfold bind at 1, do_GetTickCount, syscall_total. simpl.
  destruct (GetTickCount w) as [start w1].
  unfold bind at 1.
  match goal with
  | |- context [win_wait_loop ?f ?h ?a ?b ?c ?m0] =>
    destruct (win_wait_loop f h a b c m0) as [[[early | res] |] m2]
  end; simpl; auto with semlock.
  destruct (res =? WAIT_TIMEOUT); simpl; auto with semlock.
  destruct (res =? WAIT_OBJECT_0); simpl; [unfold win_acquired; auto with semlock |].
  destruct (res =? WAIT_FAILED); simpl; auto with semlock.
Qed.

Lemma win_release_count_step :
  forall (tid : Z) (self : BilliardSemLockObject) (m : machine W),
    count_step (is_mutex self) self
      (snd (fst (win_Billiard_semlock_release tid self m))).
Proof.
  intros tid self m. unfold win_Billiard_semlock_release, is_mutex.
  assert (Hpost : forall g, (g = true -> 0 < count self) ->
    count_step g self
      (snd (fst ((p <- do_ReleaseSemaphore (handle self) ;;
                  match p with
                  | inr err =>
                    if err =? ERROR_TOO_MANY_POSTS then ret (PyNULL ValueError, self)
                    else ret (PyNULL WindowsError, self)
                  | inl _ =>
                    ret (Py_RETURN_NONE, set_count self (to_int (count self - 1)))
                  end) m)))).
  { intros g Hg. unfold bind, do_ReleaseSemaphore, syscall_total.
    destruct (ReleaseSemaphore (handle self) (os m)) as [[prev | err] w]; simpl;
      [auto with semlock |].
    destruct (err =? ERROR_TOO_MANY_POSTS); simpl; auto with semlock. }
  destruct (kind self =? RECURSIVE_MUTEX).
  - destruct (ISMINE tid self) eqn:Hmine; simpl; [| auto with semlock].
    apply ISMINE_true_iff in Hmine.
    destruct (count self >? 1); simpl.
    + apply count_step_down. intros _. lia.
    + apply Hpost. intros _. lia.
  - apply Hpost. discriminate.
Qed.

End WindowsCount.

(** The invariant of a recursive mutex, for any pair of an acquire and a
    release that change the instance as [count_step] allows. *)
Section CountInvariant.

Variable W : Type.
Variable acquire :
  nat -> Z -> BilliardSemLockObject -> Z -> PyObject ->
  M W (option PyResult * BilliardSemLockObject).
Variable release :
  Z -> BilliardSemLockObject -> M W (PyResult * BilliardSemLockObject).

Hypothesis acquire_step :
  forall fuel tid self blocking timeout_obj m g,
    count_step g self (snd (fst (acquire fuel tid self blocking timeout_obj m))).
Hypothesis release_step :
  forall tid self m,
    count_step (is_mutex self) self (snd (fst (release tid self m))).

Lemma run_call_count_step :
  forall (c : call) (self : BilliardSemLockObject) (m : machine W),
    count_step (is_mutex self) self (snd (fst (run_call acquire release c self m))).
Proof.
  intros [fuel tid blocking timeout_obj | tid |] self m; simpl.
  - apply acquire_step.
  - unfold bind, ret. pose proof (release_step tid self m) as H.
    destruct (release tid self m) as [[r s] m']. exact H.
  - unfold Billiard_semlock_afterfork. run_monad. auto with semlock.
Qed.

Lemma mutex_count_bounds :
  forall (cs : list call) (self : BilliardSemLockObject) (m : machine W)
         (rs : list (option PyResult)) (self' : BilliardSemLockObject)
         (m' : machine W),
    run_calls acquire release cs self m = (rs, self', m') ->
    kind self = RECURSIVE_MUTEX ->
    0 <= count self ->
    count self + Z.of_nat (List.length cs) <= INT_MAX ->
    kind self' = RECURSIVE_MUTEX
    /\ 0 <= count self' <= count self + Z.of_nat (List.length cs).
Proof.
  induction cs as [| c cs IH]; intros self m rs self' m' Hrun Hk H0 Hmax.
  - simpl in *. inversion Hrun. subst. split; [exact Hk | lia].
  - change (List.length (c :: cs)) with (S (List.length cs)) in *.
    rewrite Nat2Z.inj_succ in *. rewrite INT_MAX_eq in *.
    cbn [run_calls] in Hrun. unfold bind at 1 in Hrun.
    pose proof (run_call_count_step c self m) as Hstep.
    destruct (run_call acquire release c self m) as [[r s1] m1].
    cbn [fst snd] in *.
    destruct Hstep as (Hk1 & _ & _ & Hc).
    assert (Hm : is_mutex self = true) by (unfold is_mutex; rewrite Hk; reflexivity).
    assert (Hb : 0 <= count s1 <= count self + 1).
    { destruct Hc as [Hc | [Hc | [[Hc Hg] | Hc]]]; rewrite Hc.
      - lia.
      - rewrite to_int_small; lia.
      - specialize (Hg Hm). rewrite to_int_small; lia.
      - lia. }
    assert (Hk1' : kind s1 = RECURSIVE_MUTEX) by congruence.
    unfold bind, ret in Hrun.
    destruct (run_calls acquire release cs s1 m1) as [[rs2 s2] m2] eqn:Hrest.
    cbn [fst snd] in Hrun. inversion Hrun. subst.
    destruct (IH s1 m1 rs2 self' m' Hrest Hk1' (proj1 Hb)) as [Hk2 Hb2].
    + lia.
    + split; [exact Hk2 | lia].
Qed.

End CountInvariant.

Ltac refute_new Hfail :=
  let H := fresh "H" in
  intro H; apply (f_equal fst) in H;
  exfalso;
  first [ simpl in H; discriminate H
        | eapply (Hfail (Some _)); exact H
        | eapply (Hfail None); exact H ].

Lemma semlock_new_fresh :
  forall (hdr : MP_Header) (W : Type) (rt : PyRuntime W)
         (SEM_CLEAR_ERROR : M W unit)
         (SEM_CREATE : string -> Z -> Z -> M W (option SEM_HANDLE))
         (SEM_GET_LAST_ERROR : M W Z) (SEM_CLOSE : SEM_HANDLE -> M W Z)
         (SEM_UNLINK : string -> M W Z)
         (knd value maxv : Z) (nm : string) (unlink : Z) (m m' : machine W)
         (self : BilliardSemLockObject),
    Billiard_semlock_new SEM_CLEAR_ERROR SEM_CREATE SEM_GET_LAST_ERROR SEM_CLOSE
                         SEM_UNLINK knd value maxv nm unlink m = (inr self, m') ->
    count self = 0 /\ last_tid self = 0 /\ kind self = knd /\ maxvalue self = maxv.
Proof.
  intros hdr W rt SEM_CLEAR_ERROR SEM_CREATE SEM_GET_LAST_ERROR SEM_CLOSE SEM_UNLINK
         knd value maxv nm unlink m m' self.
  unfold Billiard_semlock_new.
  destruct (negb (knd =? RECURSIVE_MUTEX) && negb (knd =? SEMAPHORE));
    [unfold ret; intro H; inversion H |].
  assert (Hfail : forall (h : option SEM_HANDLE) (m0 : machine W),
             fst (match h with
                  | Some hd =>
                    SEM_CLOSE hd ;;; ret (inl (Billiard_Error MP_STANDARD_ERROR))
                  | None => ret (inl (Billiard_Error MP_STANDARD_ERROR))
                  end m0) <> inr self).
  { intros [hd |] m0; unfold bind, ret; [destruct (SEM_CLOSE hd m0) |]; simpl;
      discriminate. }
  unfold bind at 1.
  destruct ((if unlink =? 0 then do_PyMem_Malloc else ret (Some tt)) m) as [[[] |] m1];
    [| refute_new Hfail].
  unfold bind at 1.
  destruct (SEM_CLEAR_ERROR m1) as [[] m1'].
  unfold bind at 1.
  destruct (SEM_CREATE nm value maxv m1') as [[hd |] m2];
    [| refute_new Hfail].
  unfold bind at 1.
  destruct (SEM_GET_LAST_ERROR m2) as [err m3].
  destruct (negb (err =? 0));
    [refute_new Hfail |].
  unfold bind at 1.
  destruct ((if unlink =? 0 then ret 0 else SEM_UNLINK nm) m3) as [u m4].
  destruct (u <? 0);
    [refute_new Hfail |].
  unfold bind at 1.
  destruct (Billiard_newsemlockobject hd knd maxv (if unlink =? 0 then Some nm else None) m4)
    as [[o |] m5] eqn:Hnew;
    [| refute_new Hfail].
  apply newsemlockobject_fresh in Hnew. unfold ret. intro H. inversion H. subst.
  simpl. auto.
Qed.

Lemma created_or_attached_count :
  forall (hdr : MP_Header) (W : Type) (rt : PyRuntime W) (self : BilliardSemLockObject),
    created_or_attached (W := W) self -> count self = 0.
Proof.
  intros hdr W rt self [H | H].
  - destruct H as (ce & c & g & cl & u & knd & value & maxv & nm & unlink & m & m' & H).
    apply semlock_new_fresh in H. tauto.
  - destruct H as (msw & op & h & knd & maxv & nm & m & m' & H).
    apply rebuild_fresh in H. tauto.
Qed.

Section SemaphoreRelease.

Context {W : Type} {px : Posix W}.

Lemma release_post_success :
  forall (self self' : BilliardSemLockObject) (m m' : machine W),
    release_post self m = (Py_RETURN_NONE, self', m') ->
    self' = set_count self (to_int (count self - 1)).
Proof.
  intros self self' m m'. unfold release_post, do_sem_post. run_monad.
  destruct (sem_post (handle self) (os m)) as [[[] | e] w]; simpl;
    intro H; inversion H; reflexivity.
Qed.

(** A release that returns [None] has decremented [count], once, from
    whatever it was: nothing on the path of a semaphore looks at it. *)
Lemma release_success_decrements :
  forall (tid : Z) (self self' : BilliardSemLockObject) (m m' : machine W),
    Billiard_semlock_release tid self m = (Py_RETURN_NONE, self', m') ->
    self' = set_count self (to_int (count self - 1)).
Proof.
  intros tid self self' m m'. unfold Billiard_semlock_release.
  destruct (kind self =? RECURSIVE_MUTEX).
  - destruct (negb (ISMINE tid self)); [unfold ret; intro H; inversion H |].
    destruct (count self >? 1); [unfold ret; intro H; inversion H; reflexivity |].
    apply release_post_success.
  - destruct HAVE_BROKEN_SEM_GETVALUE.
    + destruct (maxvalue self =? 1); [| apply release_post_success].
      unfold bind at 1, do_sem_trywait, syscall_fallible.
      destruct (sem_trywait (handle self) (os m)) as [[[] | e] w].
      * unfold bind, do_sem_post, syscall_fallible. simpl.
        destruct (sem_post (handle self) w) as [[[] | e'] w']; simpl;
          unfold ret; intro H; inversion H.
      * unfold bind at 1, get_errno. simpl.
        destruct (negb (errno_eqb e EAGAIN)); [unfold ret; intro H; inversion H |].
        apply release_post_success.
    + unfold bind at 1, do_sem_getvalue, syscall_fallible.
      destruct (sem_getvalue (handle self) (os m)) as [[sval | e] w].
      * destruct (sval >=? maxvalue self); [unfold ret; intro H; inversion H |].
        apply release_post_success.
      * run_monad. intro H; inversion H.
Qed.

End SemaphoreRelease.

(** C1, as the code has it.  [count] is 0 on every instance that creation or
    attachment returns.  On a recursive mutex no sequence of acquire, release
    and after-fork calls, by any threads and in any world, brings it below 0
    (as long as the calls are few enough for an [int] to count them), on the
    POSIX and on the Windows branch.  A release that succeeds decrements
    [count] whatever its value: on a semaphore, where nothing guards the
    decrement, [count] is the number of acquires minus the number of
    releases of this instance and goes below 0 when it has released more
    often than it has acquired. *)
Theorem mutex_count_never_negative :
  forall (hdr : MP_Header) (W : Type) (rt : PyRuntime W) (px : Posix W)
         (win : Win32 W) (self : BilliardSemLockObject) (cs : list call)
         (m : machine W),
    created_or_attached (W := W) self ->
    kind self = RECURSIVE_MUTEX ->
    Z.of_nat (List.length cs) <= INT_MAX ->
    count self = 0
    /\ 0 <= count (snd (fst (unix_run_calls cs self m)))
    /\ 0 <= count (snd (fst (win_run_calls cs self m)))
    /\ forall (tid : Z) (s s' : BilliardSemLockObject) (m0 m' : machine W),
         - 2 ^ 31 < count s <= INT_MAX ->
         Billiard_semlock_release tid s m0 = (Py_RETURN_NONE, s', m') ->
         count s' = count s - 1.
Proof.
  intros hdr W rt px win self cs m Hnew Hk Hlen.
  pose proof (created_or_attached_count hdr W rt self Hnew) as Hc.
  split; [exact Hc |]. split; [| split].
  - unfold unix_run_calls.
    destruct (run_calls Billiard_semlock_acquire Billiard_semlock_release cs self m)
      as [[rs s1] m1] eqn:Hrun.
    eapply mutex_count_bounds in Hrun; try eassumption.
    + simpl. lia.
    + intros. apply acquire_count_step.
    + intros. apply release_count_step.
    + lia.
    + lia.
  - unfold win_run_calls.
    destruct (run_calls win_Billiard_semlock_acquire win_Billiard_semlock_release cs self m)
      as [[rs s1] m1] eqn:Hrun.
    eapply mutex_count_bounds in Hrun; try eassumption.
    + simpl. lia.
    + intros. apply win_acquire_count_step.
    + intros. apply win_release_count_step.
    + lia.
    + lia.
  - intros tid s s' m0 m' Hmin Hrel.
    apply release_success_decrements in Hrel. subst s'. simpl.
    rewrite INT_MAX_eq in Hmin. apply to_int_small. lia.
Qed.

Lemma mutex_count_never_negative_witness :
  let self := mkSemLock Ideal.the_handle 0 0 1 RECURSIVE_MUTEX None in
  let cs := [CallAcquire 5 7 1 Py_None; CallAcquire 5 7 1 Py_None; CallRelease 9;
             CallRelease 7; CallAfterFork; CallRelease 7] in
  let m := Ideal.boot (Ideal.mkWorld 1 1 0 None) in
  created_or_attached (W := Ideal.world) self
  /\ kind self = RECURSIVE_MUTEX
  /\ Z.of_nat (List.length cs) <= INT_MAX
  /\ count self = 0
  /\ 0 <= count (snd (fst (unix_run_calls cs self m)))
  /\ 0 <= count (snd (fst (win_run_calls cs self m))).
Proof.
  intros self cs m.
  assert (Hnew : created_or_attached (W := Ideal.world) self).
  { left.
    exists unix_SEM_CLEAR_ERROR, unix_SEM_CREATE, unix_SEM_GET_LAST_ERROR.
    exists unix_SEM_CLOSE, unix_SEM_UNLINK.
    exists RECURSIVE_MUTEX, 1, 1, "/mp-lock"%string, 1.
    exists (Ideal.boot (Ideal.mkWorld 0 1 0 None)). eexists.
    vm_compute. reflexivity. }
  assert (Hk : kind self = RECURSIVE_MUTEX) by reflexivity.
  assert (Hlen : Z.of_nat (List.length cs) <= INT_MAX) by (vm_compute; discriminate).
  destruct (mutex_count_never_negative Ideal.header Ideal.world Ideal.runtime
              Ideal.posix Ideal.win32 self cs m Hnew Hk Hlen) as (H0 & Hu & Hw & _).
  repeat split; assumption.
Defined.

(** C1 as stated fails on a semaphore.  A semaphore created with value 0
    and maximum 1 has [count == 0]; its release succeeds (the value 0 is
    below the maximum, so the guard lets the post through) and leaves
    [count == -1]. *)
Lemma semaphore_count_goes_negative :
  exists (self self' : BilliardSemLockObject) (m1 m2 : machine Ideal.world),
    unix_semlock_new SEMAPHORE 0 1 "/mp-sem"%string 1
                     (Ideal.boot (Ideal.mkWorld 0 1 0 None)) = (inr self, m1)
    /\ count self = 0
    /\ Billiard_semlock_release 7 self m1 = (Py_RETURN_NONE, self', m2)
    /\ count self' = -1
    /\ ~ 0 <= count self'.
Proof.
  do 4 eexists. split; [vm_compute; reflexivity |]. split; [reflexivity |].
  split; [vm_compute; reflexivity |]. split; [reflexivity |].
  simpl. lia.
Qed.

(** ** Recursion *)

Lemma set_count_same (self : BilliardSemLockObject) : set_count self (count self) = self.
Proof. destruct self; reflexivity. Qed.

Lemma set_count_twice (self : BilliardSemLockObject) (a b : Z) :
  set_count (set_count self a) b = set_count self b.
Proof. reflexivity. Qed.

Lemma posts_app (h : SEM_HANDLE) (tr1 tr2 : list syscall) :
  posts h (tr1 ++ tr2) = (posts h tr1 + posts h tr2)%nat.
Proof.
  induction tr1 as [| ev tr1 IH]; simpl; [reflexivity |].
  destruct ev; try exact IH.
  destruct (h0 =? h); simpl; rewrite IH; reflexivity.
Qed.

Section UnixRecursion.

Context {hdr : MP_Header} {W : Type} {rt : PyRuntime W} {px : Posix W}.

(** The fast path of acquire: no call is made, [count] goes up by one. *)
Lemma acquire_fast_path :
  forall (fuel : nat) (tid : Z) (self : BilliardSemLockObject) (blocking : Z)
         (timeout_obj : PyObject) (m : machine W),
    kind self = RECURSIVE_MUTEX ->
    ISMINE tid self = true ->
    Billiard_semlock_acquire fuel tid self blocking timeout_obj m
    = (Some Py_True, set_count self (to_int (count self + 1)), m).
Proof.
  intros fuel tid self blocking timeout_obj m Hk Hmine.
  unfold Billiard_semlock_acquire. rewrite Hk, Hmine. reflexivity.
Qed.

Lemma further_acquires :
  forall (cs : list call) (tid : Z) (self : BilliardSemLockObject) (m : machine W),
    kind self = RECURSIVE_MUTEX ->
    ISMINE tid self = true ->
    Forall (is_acquire_by tid) cs ->
    count self + Z.of_nat (List.length cs) <= INT_MAX ->
    unix_run_calls cs self m
    = (repeat (Some Py_True) (List.length cs),
       set_count self (count self + Z.of_nat (List.length cs)), m).
Proof.
  unfold unix_run_calls.
  induction cs as [| c cs IH]; intros tid self m Hk Hmine Hall Hmax.
  - simpl. rewrite Z.add_0_r, set_count_same. reflexivity.
  - change (List.length (c :: cs)) with (S (List.length cs)) in *.
    rewrite Nat2Z.inj_succ in *. rewrite INT_MAX_eq in Hmax.
    inversion Hall as [| c' cs' Hc Hcs]; subst.
    destruct c as [fuel t blocking timeout_obj | t |]; simpl in Hc; try contradiction.
    subst t.
    pose proof (proj1 (ISMINE_true_iff tid self) Hmine) as [Hpos Htid].
    cbn [run_calls run_call]. unfold bind at 1.
    rewrite (acquire_fast_path fuel tid self blocking timeout_obj m Hk Hmine).
    cbn [fst snd]. rewrite to_int_small by lia.
    unfold bind at 1.
    rewrite (IH tid (set_count self (count self + 1)) m); trivial.
    + unfold ret. cbn [fst snd repeat]. rewrite set_count_twice.
      simpl count. do 3 f_equal. lia.
    + apply ISMINE_true_iff. simpl. split; [lia | exact Htid].
    + simpl count. rewrite INT_MAX_eq. lia.
Qed.

Lemma inner_releases :
  forall (n : nat) (tid : Z) (self : BilliardSemLockObject) (m : machine W),
    kind self = RECURSIVE_MUTEX ->
    ISMINE tid self = true ->
    Z.of_nat n < count self <= INT_MAX ->
    unix_run_calls (repeat (CallRelease tid) n) self m
    = (repeat (Some Py_RETURN_NONE) n, set_count self (count self - Z.of_nat n), m).
Proof.
  unfold unix_run_calls.
  induction n as [| n IH]; intros tid self m Hk Hmine Hn.
  - simpl. rewrite Z.sub_0_r, set_count_same. reflexivity.
  - rewrite Nat2Z.inj_succ in *. rewrite INT_MAX_eq in Hn.
    pose proof (proj1 (ISMINE_true_iff tid self) Hmine) as [Hpos Htid].
    cbn [repeat run_calls run_call]. unfold bind at 1. unfold bind at 1.
    unfold Billiard_semlock_release at 1. rewrite Hk, Hmine.
    replace (count self >? 1) with true by (symmetry; apply Z.gtb_lt; lia).
    cbn [RECURSIVE_MUTEX Z.eqb negb]. unfold ret at 1. unfold ret at 1.
    cbn [fst snd]. rewrite to_int_small by lia.
    unfold bind at 1.
    rewrite (IH tid (set_count self (count self - 1)) m); trivial.
    + unfold ret. cbn [fst snd]. rewrite set_count_twice.
      simpl count. do 3 f_equal. lia.
    + apply ISMINE_true_iff. simpl. split; [lia | exact Htid].
    + simpl count. rewrite INT_MAX_eq. lia.
Qed.

(** The release at [count == 1]: one [sem_post], nothing else. *)
Lemma last_release :
  forall (tid : Z) (self : BilliardSemLockObject) (m : machine W),
    kind self = RECURSIVE_MUTEX ->
    ISMINE tid self = true ->
    count self = 1 ->
    Billiard_semlock_release tid self m
    = match sem_post (handle self) (os m) with
      | (inl _, w) =>
        (Py_RETURN_NONE, set_count self 0,
         mkMachine w (errno m) (trace m ++ [SYS_sem_post (handle self)]))
      | (inr e, w) =>
        (PyNULL (OSError e), self,
         mkMachine w e (trace m ++ [SYS_sem_post (handle self)]))
      end.
Proof.
  intros tid self m Hk Hmine H1.
  unfold Billiard_semlock_release. rewrite Hk, Hmine, H1. simpl.
  unfold release_post, do_sem_post. run_monad. rewrite H1.
  destruct (sem_post (handle self) (os m)) as [[[] | e] w]; reflexivity.
Qed.

End UnixRecursion.

Lemma run_calls_app :
  forall (W : Type) acquire release (cs1 cs2 : list call)
         (self : BilliardSemLockObject) (m : machine W),
    run_calls acquire release (cs1 ++ cs2) self m
    = (let '(r1, s1, m1) := run_calls acquire release cs1 self m in
       let '(r2, s2, m2) := run_calls acquire release cs2 s1 m1 in
       (r1 ++ r2, s2, m2)).
Proof.
  intros W acquire release cs1 cs2.
  induction cs1 as [| c cs1 IH]; intros self m.
  - simpl. unfold ret. destruct (run_calls acquire release cs2 self m) as [[r2 s2] m2].
    reflexivity.
  - simpl. unfold bind, ret.
    destruct (run_call acquire release c self m) as [[r s] m1]. cbn [fst snd].
    rewrite IH.
    destruct (run_calls acquire release cs1 s m1) as [[r1 s1] m2]. cbn [fst snd].
    destruct (run_calls acquire release cs2 s1 m2) as [[r2 s2] m3].
    reflexivity.
Qed.

Section WindowsRecursion.

Context {W : Type} {rt : PyRuntime W} {win : Win32 W}.

(** An acquire by the owner on Windows: the timeout is converted first;
    when the conversion raises, so does the call, and otherwise the fast
    path is taken.  No call is made either way. *)
Lemma win_acquire_by_owner :
  forall (fuel : nat) (tid : Z) (self : BilliardSemLockObject) (blocking : Z)
         (timeout_obj : PyObject) (m : machine W),
    kind self = RECURSIVE_MUTEX ->
    ISMINE tid self = true ->
    win_Billiard_semlock_acquire fuel tid self blocking timeout_obj m
    = match win_full_msecs blocking timeout_obj with
      | inl exc => (Some (PyNULL exc), self, m)
      | inr _ => (Some Py_True, set_count self (to_int (count self + 1)), m)
      end.
Proof.
  intros fuel tid self blocking timeout_obj m Hk Hmine.
  unfold win_Billiard_semlock_acquire.
  destruct (win_full_msecs blocking timeout_obj) as [exc | full_msecs];
    [reflexivity |].
  rewrite Hk, Hmine. reflexivity.
Qed.

Lemma win_further_acquires :
  forall (cs : list call) (tid : Z) (self : BilliardSemLockObject) (m : machine W),
    kind self = RECURSIVE_MUTEX ->
    ISMINE tid self = true ->
    Forall (is_acquire_by tid) cs ->
    Forall timeout_accepted cs ->
    count self + Z.of_nat (List.length cs) <= INT_MAX ->
    win_run_calls cs self m
    = (repeat (Some Py_True) (List.length cs),
       set_count self (count self + Z.of_nat (List.length cs)), m).
Proof.
  unfold win_run_calls.
  induction cs as [| c cs IH]; intros tid self m Hk Hmine Hall Hacc Hmax.
  - simpl. rewrite Z.add_0_r, set_count_same. reflexivity.
  - change (List.length (c :: cs)) with (S (List.length cs)) in *.
    rewrite Nat2Z.inj_succ in *. rewrite INT_MAX_eq in Hmax.
    inversion Hall as [| c' cs' Hc Hcs]; subst.
    inversion Hacc as [| c' cs' Ha Has]; subst.
    destruct c as [fuel t blocking timeout_obj | t |]; simpl in Hc; try contradiction.
    subst t. destruct Ha as [full_msecs Hfull].
    pose proof (proj1 (ISMINE_true_iff tid self) Hmine) as [Hpos Htid].
    cbn [run_calls run_call]. unfold bind at 1.
    rewrite (win_acquire_by_owner fuel tid self blocking timeout_obj m Hk Hmine), Hfull.
    cbn [fst snd]. rewrite to_int_small by lia.
    unfold bind at 1.
    rewrite (IH tid (set_count self (count self + 1)) m); trivial.
    + unfold ret. cbn [fst snd repeat]. rewrite set_count_twice.
      simpl count. do 3 f_equal. lia.
    + apply ISMINE_true_iff. simpl. split; [lia | exact Htid].
    + simpl count. rewrite INT_MAX_eq. lia.
Qed.

Lemma win_inner_releases :
  forall (n : nat) (tid : Z) (self : BilliardSemLockObject) (m : machine W),
    kind self = RECURSIVE_MUTEX ->
    ISMINE tid self = true ->
    Z.of_nat n < count self <= INT_MAX ->
    win_run_calls (repeat (CallRelease tid) n) self m
    = (repeat (Some Py_RETURN_NONE) n, set_count self (count self - Z.of_nat n), m).
Proof.
  unfold win_run_calls.
  induction n as [| n IH]; intros tid self m Hk Hmine Hn.
  - simpl. rewrite Z.sub_0_r, set_count_same. reflexivity.
  - rewrite Nat2Z.inj_succ in *. rewrite INT_MAX_eq in Hn.
    pose proof (proj1 (ISMINE_true_iff tid self) Hmine) as [Hpos Htid].
    cbn [repeat run_calls run_call]. unfold bind at 1. unfold bind at 1.
    unfold win_Billiard_semlock_release at 1. rewrite Hk, Hmine.
    replace (count self >? 1) with true by (symmetry; apply Z.gtb_lt; lia).
    cbn [RECURSIVE_MUTEX Z.eqb negb]. unfold ret at 1. unfold ret at 1.
    cbn [fst snd]. rewrite to_int_small by lia.
    unfold bind at 1.
    rewrite (IH tid (set_count self (count self - 1)) m); trivial.
    + unfold ret. cbn [fst snd]. rewrite set_count_twice.
      simpl count. do 3 f_equal. lia.
    + apply ISMINE_true_iff. simpl. split; [lia | exact Htid].
    + simpl count. rewrite INT_MAX_eq. lia.
Qed.

(** The release at [count == 1] on Windows: one [ReleaseSemaphore], nothing
    else. *)
Lemma win_last_release :
  forall (tid : Z) (self : BilliardSemLockObject) (m : machine W),
    kind self = RECURSIVE_MUTEX ->
    ISMINE tid self = true ->
    count self = 1 ->
    win_Billiard_semlock_release tid self m
    = match ReleaseSemaphore (handle self) (os m) with
      | (inl _, w) =>
        (Py_RETURN_NONE, set_count self 0,
         mkMachine w (errno m) (trace m ++ [SYS_ReleaseSemaphore (handle self)]))
      | (inr err, w) =>
        (PyNULL (if err =? ERROR_TOO_MANY_POSTS then ValueError else WindowsError),
         self,
         mkMachine w (errno m) (trace m ++ [SYS_ReleaseSemaphore (handle self)]))
      end.
Proof.
  intros tid self m Hk Hmine H1.
  unfold win_Billiard_semlock_release. rewrite Hk, Hmine, H1. simpl.
  unfold do_ReleaseSemaphore. run_monad.
  destruct (ReleaseSemaphore (handle self) (os m)) as [[prev | err] w];
    [reflexivity |].
  destruct (err =? ERROR_TOO_MANY_POSTS); reflexivity.
Qed.

End WindowsRecursion.

(** C6, as the code has it.  Let the thread [tid] own a recursive mutex.

    On POSIX each further acquire by it returns [True] on the fast path,
    whatever its arguments: [count] goes up by one and nothing else happens
    (the world, [errno] and the log of system calls are as before, so no
    wait is issued).  With the depth [count] then has, all releases but the
    last return [None], bring [count] down to 1 and again touch nothing.
    The last release, at [count == 1], makes exactly one system call, the
    [sem_post]; when that succeeds it returns [None] and [count] is 0.  So
    the releases that undo the acquires post the semaphore exactly once.

    On Windows the timeout is converted and checked before the ownership
    test: a further acquire by the owner raises what the conversion raises
    ([OverflowError], or the error of [PyFloat_AsDouble]) and leaves
    [count] as it was, and takes the fast path only when the conversion
    accepts its arguments; in neither case is a call made.  The acquires
    whose arguments are accepted and the releases behave as on POSIX, the
    one post being the [ReleaseSemaphore] of the last release.

    ([count] is a C [int]: the depth is assumed to fit.) *)
Theorem recursive_round_trip :
  forall (hdr : MP_Header) (W : Type) (rt : PyRuntime W) (px : Posix W)
         (win : Win32 W) (tid : Z) (self : BilliardSemLockObject) (cs : list call)
         (m : machine W),
    kind self = RECURSIVE_MUTEX ->
    ISMINE tid self = true ->
    Forall (is_acquire_by tid) cs ->
    count self + Z.of_nat (List.length cs) <= INT_MAX ->
    let depth := Z.to_nat (count self + Z.of_nat (List.length cs)) in
    exists deepest outermost : BilliardSemLockObject,
      (unix_run_calls cs self m
       = (repeat (Some Py_True) (List.length cs), deepest, m)
       /\ count deepest = Z.of_nat depth
       /\ unix_run_calls (repeat (CallRelease tid) (depth - 1)) deepest m
          = (repeat (Some Py_RETURN_NONE) (depth - 1), outermost, m)
       /\ count outermost = 1
       /\ (let last := Billiard_semlock_release tid outermost m in
           trace (snd last) = trace m ++ [SYS_sem_post (handle self)]
           /\ forall w : W,
                sem_post (handle self) (os m) = (inl tt, w) ->
                fst (fst last) = Py_RETURN_NONE
                /\ count (snd (fst last)) = 0
                /\ os (snd last) = w)
       /\ (let all := unix_run_calls (repeat (CallRelease tid) depth) deepest m in
           posts (handle self) (trace (snd all)) = S (posts (handle self) (trace m))
           /\ forall w : W,
                sem_post (handle self) (os m) = (inl tt, w) ->
                fst (fst all) = repeat (Some Py_RETURN_NONE) depth
                /\ count (snd (fst all)) = 0))
      /\ ((forall (fuel : nat) (blocking : Z) (timeout_obj : PyObject),
              win_Billiard_semlock_acquire fuel tid self blocking timeout_obj m
              = match win_full_msecs blocking timeout_obj with
                | inl exc => (Some (PyNULL exc), self, m)
                | inr _ => (Some Py_True, set_count self (to_int (count self + 1)), m)
                end)
          /\ (Forall timeout_accepted cs ->
              win_run_calls cs self m
              = (repeat (Some Py_True) (List.length cs), deepest, m))
          /\ win_run_calls (repeat (CallRelease tid) (depth - 1)) deepest m
             = (repeat (Some Py_RETURN_NONE) (depth - 1), outermost, m)
          /\ (let all := win_run_calls (repeat (CallRelease tid) depth) deepest m in
              trace (snd all) = trace m ++ [SYS_ReleaseSemaphore (handle self)]
              /\ forall (previous : Z) (w : W),
                   ReleaseSemaphore (handle self) (os m) = (inl previous, w) ->
                   fst (fst all) = repeat (Some Py_RETURN_NONE) depth
                   /\ count (snd (fst all)) = 0
                   /\ os (snd all) = w)).
Proof.
  intros hdr W rt px win tid self cs m Hk Hmine Hall Hmax depth.
  pose proof (proj1 (ISMINE_true_iff tid self) Hmine) as [Hpos Htid].
  set (deepest := set_count self (count self + Z.of_nat (List.length cs))).
  set (outermost := set_count self 1).
  assert (Hdepth : Z.of_nat depth = count self + Z.of_nat (List.length cs)).
  { unfold depth. rewrite Z2Nat.id; lia. }
  assert (Hmine_d : ISMINE tid deepest = true).
  { apply ISMINE_true_iff. unfold deepest. simpl. split; [lia | exact Htid]. }
  assert (Hmine_o : ISMINE tid outermost = true).
  { apply ISMINE_true_iff. unfold outermost. simpl. split; [lia | exact Htid]. }
  assert (Hinner : unix_run_calls (repeat (CallRelease tid) (depth - 1)) deepest m
                   = (repeat (Some Py_RETURN_NONE) (depth - 1), outermost, m)).
  { rewrite (inner_releases (depth - 1) tid deepest m); trivial.
    - unfold deepest, outermost. rewrite set_count_twice. simpl count.
      do 2 f_equal. f_equal. lia.
    - unfold deepest. simpl count. lia. }
  assert (Hwinner : win_run_calls (repeat (CallRelease tid) (depth - 1)) deepest m
                    = (repeat (Some Py_RETURN_NONE) (depth - 1), outermost, m)).
  { rewrite (win_inner_releases (depth - 1) tid deepest m); trivial.
    - unfold deepest, outermost. rewrite set_count_twice. simpl count.
      do 2 f_equal. f_equal. lia.
    - unfold deepest. simpl count. lia. }
  assert (Hlast : Billiard_semlock_release tid outermost m
                  = match sem_post (handle self) (os m) with
                    | (inl _, w) =>
                      (Py_RETURN_NONE, set_count outermost 0,
                       mkMachine w (errno m) (trace m ++ [SYS_sem_post (handle self)]))
                    | (inr e, w) =>
                      (PyNULL (OSError e), outermost,
                       mkMachine w e (trace m ++ [SYS_sem_post (handle self)]))
                    end).
  { apply (last_release tid outermost m); trivial. }
  pose proof (win_last_release tid outermost m Hk Hmine_o eq_refl) as Hwlast.
  change (handle outermost) with (handle self) in Hwlast.
  exists deepest, outermost.
  split.
  - split; [apply further_acquires with (tid := tid); assumption |].
    split; [unfold deepest; simpl; lia |].
    split; [exact Hinner |].
    split; [reflexivity |].
    split.
    + cbv zeta. rewrite Hlast.
      destruct (sem_post (handle self) (os m)) as [[[] | e] w]; simpl.
      * split; [reflexivity |]. intros w' Hw. inversion Hw. auto.
      * split; [reflexivity |]. intros w' Hw. inversion Hw.
    + cbv zeta. clearbody depth.
      destruct depth as [| d]; [lia |].
      replace (S d - 1)%nat with d in Hinner by lia.
      cbn [repeat]. rewrite !repeat_cons.
      unfold unix_run_calls in *.
      rewrite run_calls_app, Hinner.
      cbn [run_calls run_call]. unfold bind, ret. rewrite Hlast.
      destruct (sem_post (handle self) (os m)) as [[[] | e] w]; cbn [fst snd trace].
      * split.
        -- rewrite posts_app. simpl. rewrite Z.eqb_refl. lia.
        -- intros w' Hw. split; reflexivity.
      * split.
        -- rewrite posts_app. simpl. rewrite Z.eqb_refl. lia.
        -- intros w' Hw. inversion Hw.
  - split.
    + intros fuel blocking timeout_obj.
      apply win_acquire_by_owner; assumption.
    + split.
      * intro Hacc. apply win_further_acquires with (tid := tid); assumption.
      * split; [exact Hwinner |].
        cbv zeta. clearbody depth.
        destruct depth as [| d]; [lia |].
        replace (S d - 1)%nat with d in Hwinner by lia.
        cbn [repeat]. rewrite !repeat_cons.
        unfold win_run_calls in *.
        rewrite run_calls_app, Hwinner.
        cbn [run_calls run_call]. unfold bind, ret. rewrite Hwlast.
        destruct (ReleaseSemaphore (handle self) (os m)) as [[prev | err] w];
          cbn [fst snd trace os].
        -- split; [reflexivity |]. intros previous w' Hw. inversion Hw.
           repeat split; reflexivity.
        -- split; [reflexivity |]. intros previous w' Hw. inversion Hw.
Qed.

Lemma recursive_round_trip_witness :
  let fresh := mkSemLock Ideal.the_handle 0 0 1 RECURSIVE_MUTEX None in
  let first := Billiard_semlock_acquire 3 7 fresh 1 Py_None
                                        (Ideal.boot (Ideal.mkWorld 1 1 0 None)) in
  let self := snd (fst first) in
  let m := snd first in
  let cs := [CallAcquire 3 7 1 Py_None; CallAcquire 3 7 0 (PyNumber (1 # 2))] in
  fst (fst first) = Some Py_True
  /\ trace m = [SYS_sem_wait Ideal.the_handle]
  /\ kind self = RECURSIVE_MUTEX
  /\ ISMINE 7 self = true
  /\ Forall (is_acquire_by 7) cs
  /\ count self + Z.of_nat (List.length cs) <= INT_MAX
  /\ exists deepest outermost : BilliardSemLockObject,
       unix_run_calls cs self m = ([Some Py_True; Some Py_True], deepest, m)
       /\ count deepest = 3
       /\ unix_run_calls [CallRelease 7; CallRelease 7] deepest m
          = ([Some Py_RETURN_NONE; Some Py_RETURN_NONE], outermost, m)
       /\ count outermost = 1
       /\ (let all := unix_run_calls [CallRelease 7; CallRelease 7; CallRelease 7]
                                     deepest m in
           posts Ideal.the_handle (trace (snd all)) = 1%nat
           /\ count (snd (fst all)) = 0)
       /\ win_run_calls cs self m = ([Some Py_True; Some Py_True], deepest, m)
       /\ (let all := win_run_calls [CallRelease 7; CallRelease 7; CallRelease 7]
                                    deepest m in
           trace (snd all) = trace m ++ [SYS_ReleaseSemaphore Ideal.the_handle]
           /\ count (snd (fst all)) = 0).
Proof.
  intros fresh first self m cs.
  assert (Hk : kind self = RECURSIVE_MUTEX) by reflexivity.
  assert (Hmine : ISMINE 7 self = true) by reflexivity.
  assert (Hall : Forall (is_acquire_by 7) cs).
  { repeat constructor. }
  assert (Hacc : Forall timeout_accepted cs).
  { repeat constructor; eexists; vm_compute; reflexivity. }
  assert (Hmax : count self + Z.of_nat (List.length cs) <= INT_MAX).
  { vm_compute. discriminate. }
  split; [reflexivity |]. split; [reflexivity |].
  repeat (split; [assumption |]).
  destruct (recursive_round_trip Ideal.header Ideal.world Ideal.runtime Ideal.posix
              Ideal.win32 7 self cs m Hk Hmine Hall Hmax)
    as (deepest & outermost
        & (Hacq & Hdeep & Hinner & Hout & _ & Hposts & Hsucc)
        & (_ & Hwacq & _ & Hwtrace & Hwsucc)).
  exists deepest, outermost.
  split; [exact Hacq |]. split; [exact Hdeep |]. split; [exact Hinner |].
  split; [exact Hout |].
  split; [split; [exact Hposts | exact (proj2 (Hsucc _ eq_refl))] |].
  split; [exact (Hwacq Hacc) |].
  split; [exact Hwtrace |].
  exact (proj1 (proj2 (Hwsucc 0 (Ideal.mkWorld 1 1 0 None) eq_refl))).
Defined.

(** C6 as stated fails on the Windows branch, where the timeout is
    converted and checked before the ownership test.  The owner of a
    recursive mutex who acquires it once more with a timeout of ten million
    seconds, or with a timeout that is not a number, does not take the fast
    path: the call raises, and [count] is as it was.  The same calls on
    POSIX return [True] and increment [count]. *)
Lemma owner_acquire_raises_on_windows :
  let self := mkSemLock Ideal.the_handle 7 1 1 RECURSIVE_MUTEX None in
  let m := Ideal.boot (Ideal.mkWorld 0 1 0 None) in
  kind self = RECURSIVE_MUTEX
  /\ ISMINE 7 self = true
  /\ win_Billiard_semlock_acquire 3 7 self 1 (PyNumber (10000000 # 1)) m
     = (Some (PyNULL OverflowError), self, m)
  /\ win_Billiard_semlock_acquire 3 7 self 1 PyNotANumber m
     = (Some (PyNULL ConversionError), self, m)
  /\ Billiard_semlock_acquire 3 7 self 1 (PyNumber (10000000 # 1)) m
     = (Some Py_True, set_count self 2, m)
  /\ Billiard_semlock_acquire 3 7 self 1 PyNotANumber m
     = (Some Py_True, set_count self 2, m).
Proof.
  intros self m. repeat split; vm_compute; reflexivity.
Qed.

(** ** The overflow guard of release *)

(** C2, as the code has it.  On POSIX the guard before the post is made on
    the path of a semaphore only (any kind but [RECURSIVE_MUTEX]):
    - without [HAVE_BROKEN_SEM_GETVALUE], release first reads the value with
      [sem_getvalue]; when the value is at or above [maxvalue] it raises
      [ValueError] ("released too many times"), posts nothing and leaves the
      instance as it was; below [maxvalue] it goes on to the one [sem_post];
    - with [HAVE_BROKEN_SEM_GETVALUE] and [maxvalue == 1], it first probes
      with [sem_trywait]: when the probe succeeds (the semaphore was not
      locked) it undoes it with a [sem_post] and raises, leaving [count] as
      it was; when the probe fails with [EAGAIN] it goes on to the real
      [sem_post]; with any other [maxvalue] there is no guard.
    On a recursive mutex no guard is made at all: the log gains nothing, or
    the [sem_post] alone, and the final recursive release ([count == 1] by
    the owner) is that lone [sem_post]. *)
Theorem release_overflow_guard :
  forall (W : Type) (px : Posix W) (tid : Z) (self : BilliardSemLockObject)
         (m : machine W),
    let out := Billiard_semlock_release tid self m in
    let h := handle self in
    if kind self =? RECURSIVE_MUTEX then
      (trace (snd out) = trace m \/ trace (snd out) = trace m ++ [SYS_sem_post h])
      /\ (ISMINE tid self = true -> count self = 1 ->
          trace (snd out) = trace m ++ [SYS_sem_post h])
    else if HAVE_BROKEN_SEM_GETVALUE then
      if maxvalue self =? 1 then
        match sem_trywait h (os m) with
        | (inl _, w) =>
          trace (snd out) = trace m ++ [SYS_sem_trywait h; SYS_sem_post h]
          /\ snd (fst out) = self
          /\ fst (fst out) = match sem_post h w with
                             | (inl _, _) => PyNULL ValueError
                             | (inr e, _) => PyNULL (OSError e)
                             end
        | (inr e, w) =>
          if errno_eqb e EAGAIN
          then trace (snd out) = trace m ++ [SYS_sem_trywait h; SYS_sem_post h]
          else out = (PyNULL (OSError e), self,
                      mkMachine w e (trace m ++ [SYS_sem_trywait h]))
        end
      else trace (snd out) = trace m ++ [SYS_sem_post h]
    else
      match sem_getvalue h (os m) with
      | (inl sval, w) =>
        if sval >=? maxvalue self
        then out = (PyNULL ValueError, self,
                    mkMachine w (errno m) (trace m ++ [SYS_sem_getvalue h]))
        else trace (snd out) = trace m ++ [SYS_sem_getvalue h; SYS_sem_post h]
      | (inr e, w) =>
        out = (PyNULL (OSError e), self,
               mkMachine w e (trace m ++ [SYS_sem_getvalue h]))
      end.
Proof.
  intros W px tid self m out h.
  assert (Hpost : forall m0 : machine W,
             trace (snd (release_post self m0)) = trace m0 ++ [SYS_sem_post (handle self)]).
  { intro m0. unfold release_post, do_sem_post. run_monad.
    destruct (sem_post (handle self) (os m0)) as [[[] | e] w]; reflexivity. }
  assert (Hout : out = Billiard_semlock_release tid self m) by reflexivity.
  clearbody out. subst h. unfold Billiard_semlock_release in Hout.
  destruct (kind self =? RECURSIVE_MUTEX).
  - destruct (ISMINE tid self); simpl in Hout.
    + destruct (Z.gtb_spec (count self) 1) as [Hgt | Hle]; subst out.
      * split; [left; reflexivity | intros _ H1; lia].
      * split; [right; apply Hpost | intros _ _; apply Hpost].
    + subst out. split; [left; reflexivity | discriminate].
  - destruct HAVE_BROKEN_SEM_GETVALUE.
    + destruct (maxvalue self =? 1); [| subst out; apply Hpost].
      unfold bind at 1, do_sem_trywait, syscall_fallible in Hout.
      destruct (sem_trywait (handle self) (os m)) as [[[] | e] w].
      * unfold bind, do_sem_post, syscall_fallible in Hout. simpl in Hout.
        destruct (sem_post (handle self) w) as [[[] | e'] w']; subst out; simpl;
          rewrite <- app_assoc; auto.
      * unfold bind at 1, get_errno in Hout. simpl in Hout.
        destruct (errno_eqb e EAGAIN); simpl in Hout; subst out; [| reflexivity].
        rewrite Hpost. simpl. rewrite <- app_assoc. reflexivity.
    + unfold bind at 1, do_sem_getvalue, syscall_fallible in Hout.
      destruct (sem_getvalue (handle self) (os m)) as [[sval | e] w].
      * destruct (sval >=? maxvalue self); simpl in Hout; subst out; [reflexivity |].
        rewrite Hpost. simpl. rewrite <- app_assoc. reflexivity.
      * subst out. reflexivity.
Qed.

Lemma release_overflow_guard_witness :
  let self := mkSemLock Ideal.the_handle 0 1 1 SEMAPHORE None in
  let m := Ideal.boot (Ideal.mkWorld 1 1 0 None) in
  Billiard_semlock_release 7 self m
  = (PyNULL ValueError, self,
     mkMachine (Ideal.mkWorld 1 1 0 None) ENOERR [SYS_sem_getvalue Ideal.the_handle]).
Proof.
  intros self m.
  exact (release_overflow_guard Ideal.world Ideal.posix 7 self m).
Defined.

(** C2 as stated fails for the final recursive release.  The owner of a
    recursive mutex with [count == 1] and [maxvalue == 1] releases it while
    the kernel semaphore already has the value 1: the release reads no value
    and probes nothing, it posts (the value becomes 2) and returns [None];
    a semaphore in the same state is refused with [ValueError], and so it
    is when the build has [HAVE_BROKEN_SEM_GETVALUE]. *)
Lemma final_recursive_release_is_unguarded :
  let mutex := mkSemLock Ideal.the_handle 7 1 1 RECURSIVE_MUTEX None in
  let semaphore := mkSemLock Ideal.the_handle 7 1 1 SEMAPHORE None in
  let m := Ideal.boot (Ideal.mkWorld 1 1 0 None) in
  (let out := Billiard_semlock_release 7 mutex m in
   fst (fst out) = Py_RETURN_NONE
   /\ trace (snd out) = [SYS_sem_post Ideal.the_handle]
   /\ Ideal.sem_value (os (snd out)) = 2
   /\ maxvalue mutex = 1)
  /\ (let out := Billiard_semlock_release (px := Ideal.posix_with true) 7 mutex m in
      fst (fst out) = Py_RETURN_NONE
      /\ trace (snd out) = [SYS_sem_post Ideal.the_handle]
      /\ Ideal.sem_value (os (snd out)) = 2)
  /\ fst (fst (Billiard_semlock_release 7 semaphore m)) = PyNULL ValueError
  /\ fst (fst (Billiard_semlock_release (px := Ideal.posix_with true) 7 semaphore m))
     = PyNULL ValueError.
Proof.
  vm_compute. repeat split; reflexivity.
Qed.

(** ** Timeouts beyond the range of the platform *)

Section UnixNoOverflowCheck.

Context {hdr : MP_Header} {W : Type} {rt : PyRuntime W} {px : Posix W}.

Lemma acquire_finish_not_overflow :
  forall (tid : Z) (self : BilliardSemLockObject) (res : Z) (m : machine W),
    fst (fst (acquire_finish tid self res m)) <> PyNULL OverflowError.
Proof.
  intros tid self res m. unfold acquire_finish.
  destruct (res <? 0); run_monad; [| discriminate].
  destruct (errno_eqb (errno m) EAGAIN || errno_eqb (errno m) ETIMEDOUT);
    simpl; [discriminate |].
  destruct (errno_eqb (errno m) EINTR); simpl; discriminate.
Qed.

(** No path of the POSIX acquire raises [OverflowError]. *)
Lemma unix_acquire_not_overflow :
  forall (fuel : nat) (tid : Z) (self : BilliardSemLockObject) (blocking : Z)
         (timeout_obj : PyObject) (m : machine W),
    fst (fst (Billiard_semlock_acquire fuel tid self blocking timeout_obj m))
    <> Some (PyNULL OverflowError).
Proof.
  intros fuel tid self blocking timeout_obj m.
  assert (Hafter : forall deadline m0,
    fst (fst (acquire_wait fuel tid self blocking timeout_obj deadline m0))
    <> Some (PyNULL OverflowError)).
  { intros deadline m0. unfold acquire_wait. unfold bind at 1.
    destruct (acquire_loop fuel fuel (handle self) blocking timeout_obj deadline m0)
      as [[res |] m1]; [| simpl; discriminate].
    unfold bind, ret.
    pose proof (acquire_finish_not_overflow tid self res m1) as Hf.
    destruct (acquire_finish tid self res m1) as [[r s] m2]. simpl in *.
    congruence. }
  unfold Billiard_semlock_acquire.
  destruct ((kind self =? RECURSIVE_MUTEX) && ISMINE tid self);
    [simpl; discriminate |].
  destruct (negb (is_Py_None timeout_obj)); [| apply Hafter].
  destruct (PyFloat_AsDouble timeout_obj) as [timeout |]; [| simpl; discriminate].
  unfold bind at 1, do_gettimeofday, syscall_fallible.
  destruct (gettimeofday (os m)) as [[now | e] w]; [apply Hafter |].
  simpl. discriminate.
Qed.

End UnixNoOverflowCheck.

(** C4 fails on the POSIX branch, which has no range check on the timeout.
    No path of the POSIX acquire raises [OverflowError].  With a clock at
    1000000 seconds and the semaphore taken, a blocking acquire with the
    timeout [2^63 - 1024] seconds (a double; more than 292 billion years)
    computes a deadline whose [tv_sec] has wrapped around to a negative
    number: the call returns [False] at once, without a single sleep and
    without the clock having advanced.  The Windows branch raises
    [OverflowError] on the same arguments, as it does for every blocking
    call whose timeout is [0.5 * INFINITE] milliseconds or more, before it
    touches the semaphore. *)
Theorem unix_timeout_overflow_is_not_detected :
  (forall (hdr : MP_Header) (W : Type) (rt : PyRuntime W) (px : Posix W)
          (fuel : nat) (tid : Z) (self : BilliardSemLockObject) (blocking : Z)
          (timeout_obj : PyObject) (m : machine W),
      fst (fst (Billiard_semlock_acquire fuel tid self blocking timeout_obj m))
      <> Some (PyNULL OverflowError))
  /\ (forall (W : Type) (rt : PyRuntime W) (win : Win32 W)
             (fuel : nat) (tid : Z) (self : BilliardSemLockObject) (blocking : Z)
             (timeout : Q) (m : machine W),
         blocking <> 0 ->
         Qle (Qmult (1 # 2) (inject_Z INFINITE)) (Qmult timeout (1000 # 1)) ->
         win_Billiard_semlock_acquire fuel tid self blocking (PyNumber timeout) m
         = (Some (PyNULL OverflowError), self, m))
  /\ (let self := mkSemLock Ideal.the_handle 0 0 1 SEMAPHORE None in
      let timeout := PyNumber (inject_Z (2 ^ 63 - 1024)) in
      let m := Ideal.boot (Ideal.mkWorld 0 1 1000000000000 None) in
      let out := Billiard_semlock_acquire 1 7 self 1 timeout m in
      fst out = (Some Py_False, self)
      /\ select_delays (trace (snd out)) = []
      /\ Ideal.clock (os (snd out)) = 1000000000000
      /\ ts_sec (compute_deadline (mkTimeval 1000000 0) (inject_Z (2 ^ 63 - 1024)))
         = - 2 ^ 63 + 998976
      /\ win_Billiard_semlock_acquire 1 7 self 1 timeout m
         = (Some (PyNULL OverflowError), self, m)).
Proof.
  split; [| split].
  - intros. apply unix_acquire_not_overflow.
  - intros W rt win fuel tid self blocking timeout m Hb Hbig.
    unfold win_Billiard_semlock_acquire, win_full_msecs.
    replace (blocking =? 0) with false by (symmetry; apply Z.eqb_neq; exact Hb).
    cbn [is_Py_None PyFloat_AsDouble].
    assert (Hthr : is_double (Qmult (1 # 2) (inject_Z INFINITE))).
    { exists 4294967295, (-1). split; [vm_compute; discriminate |].
      split; [lia | reflexivity]. }
    pose proof (to_double_ge _ _ Hthr Hbig) as Hge.
    assert (Hpos : Qle_bool 0 (to_double (Qmult timeout (1000 # 1))) = true).
    { apply Qle_bool_iff. eapply Qle_trans; [| exact Hge]. discriminate. }
    unfold Qlt_bool, Qge_bool. rewrite Hpos. cbn [negb].
    apply Qle_bool_iff in Hge. rewrite Hge. reflexivity.
  - vm_compute. repeat split; reflexivity.
Qed.

(** ** The timeout of a non-blocking acquire *)



Section UnixNonBlocking.

Context {hdr : MP_Header} {W : Type} {rt : PyRuntime W} {px : Posix W}.

(** One iteration of the retry loop with [blocking == 0]. *)
Lemma acquire_loop_nonblocking_step :
  forall (fuel inner : nat) (h : SEM_HANDLE) (t : PyObject) (d : timespec)
         (m : machine W),
    acquire_loop (S fuel) inner h 0 t d m
    = match sem_trywait h (os m) with
      | (inl _, w) => (Some 0, mkMachine w (errno m) (trace m ++ [SYS_sem_trywait h]))
      | (inr e, w) =>
        let m' := mkMachine w e (trace m ++ [SYS_sem_trywait h]) in
        if -1 =? MP_EXCEPTION_HAS_BEEN_SET then (Some (-1), m')
        else if errno_eqb e EINTR then
          let (sig, w') := PyErr_CheckSignals w in
          let m'' := mkMachine w' e (trace m' ++ [SYS_PyErr_CheckSignals]) in
          if sig =? 0 then acquire_loop fuel inner h 0 t d m'' else (Some (-1), m'')
        else (Some (-1), m')
      end.
Proof.
  intros fuel inner h t d m. cbn [acquire_loop].
  change (0 =? 0) with true. cbn [negb andb].
  unfold bind at 1. unfold bind at 1. unfold do_sem_trywait, syscall_fallible.
  destruct (sem_trywait h (os m)) as [[[] | e] w]; unfold ret at 1; cbn [status].
  - destruct (0 =? MP_EXCEPTION_HAS_BEEN_SET); reflexivity.
  - destruct (-1 =? MP_EXCEPTION_HAS_BEEN_SET); [reflexivity |].
    change (-1 <? 0) with true. cbv iota zeta.
    unfold bind at 1, get_errno. cbn [errno].
    destruct (errno_eqb e EINTR); [| reflexivity].
    unfold bind at 1, do_PyErr_CheckSignals, syscall_total. cbn [os errno trace].
    destruct (PyErr_CheckSignals w) as [sig w'].
    destruct (sig =? 0); reflexivity.
Qed.




End UnixNonBlocking.






(** ** The emulated timed wait *)

Lemma select_delays_app (tr1 tr2 : list syscall) :
  select_delays (tr1 ++ tr2) = select_delays tr1 ++ select_delays tr2.
Proof.
  induction tr1 as [| ev tr1 IH]; simpl; [reflexivity |].
  destruct ev; simpl; rewrite ?IH; reflexivity.
Qed.

Lemma cap_delay_min (delay difference : Z) :
  cap_delay delay difference = Z.min (Z.min delay 20000) difference.
Proof.
  unfold cap_delay.
  destruct (Z.gtb_spec delay 20000);
    [rewrite (Z.min_r delay 20000) by lia | rewrite (Z.min_l delay 20000) by lia].
  - destruct (Z.gtb_spec 20000 difference); lia.
  - destruct (Z.gtb_spec delay difference); lia.
Qed.

Lemma linear_schedule_capped (n : nat) :
  forall k left : Z, 0 <= k -> Forall (fun d => 0 <= d <= 20000) (linear_schedule n k left).
Proof.
  induction n as [| n IH]; intros k left Hk; cbn [linear_schedule]; [constructor |].
  destruct (Z.leb_spec left 0); [constructor |].
  constructor; [lia | apply IH; lia].
Qed.

(** The time read in the concrete world against a deadline. *)
Lemma ideal_deadline_passed (c sec usec : Z) :
  0 <= usec < 1000000 ->
  deadline_passed (mkTimeval sec usec) (mkTimeval (c / 1000000) (c mod 1000000))
  = (sec * 1000000 + usec <=? c).
Proof.
  intro Hu. unfold deadline_passed. simpl.
  pose proof (Z.div_mod c 1000000 ltac:(lia)) as Hdm.
  pose proof (Z.mod_pos_bound c 1000000 ltac:(lia)) as Hmod.
  destruct (Z.leb_spec (sec * 1000000 + usec) c) as [Hle | Hgt].
  - destruct (Z.ltb_spec sec (c / 1000000)); [reflexivity |].
    simpl. apply andb_true_iff. split; [apply Z.eqb_eq | apply Z.leb_le]; lia.
  - apply orb_false_iff. split; [apply Z.ltb_ge; lia |].
    apply andb_false_iff.
    destruct (Z.eqb_spec sec (c / 1000000)); [right; apply Z.leb_gt; lia | left; reflexivity].
Qed.

Lemma ideal_time_left (c sec usec : Z) :
  0 <= sec * 1000000 + usec - c < 2 ^ 64 ->
  time_left (mkTimeval sec usec) (mkTimeval (c / 1000000) (c mod 1000000))
  = sec * 1000000 + usec - c.
Proof.
  intro H. unfold time_left, to_ulong. simpl.
  pose proof (Z.div_mod c 1000000 ltac:(lia)) as Hdm.
  rewrite Z.mod_small; lia.
Qed.

Lemma usec_split (d : Z) : d / 1000000 * 1000000 + d mod 1000000 = d.
Proof. pose proof (Z.div_mod d 1000000 ltac:(lia)). lia. Qed.

(** In any world, every sleep of the poll loop lasts at most 20
    milliseconds. *)
Lemma timedwait_sleeps_capped :
  forall (hdr : MP_Header) (W : Type) (rt : PyRuntime W) (px : Posix W)
         (fuel : nat) (h : SEM_HANDLE) (tvdeadline : timeval) (delay : Z)
         (m : machine W),
    0 <= delay <= 21000 ->
    Forall (fun d => 0 <= d <= 20000) (select_delays (trace m)) ->
    Forall (fun d => 0 <= d <= 20000)
           (select_delays (trace (snd (timedwait_loop fuel h tvdeadline delay m)))).
Proof.
  intros hdr W rt px.
  induction fuel as [| fuel IH]; intros h tvdeadline delay m Hdelay Hlog.
  - exact Hlog.
  - cbn [timedwait_loop].
    unfold bind at 1. unfold do_sem_trywait, syscall_fallible.
    destruct (sem_trywait h (os m)) as [[[] | e] w]; [simpl; now rewrite select_delays_app, app_nil_r |].
    unfold bind at 1, get_errno. cbn [errno fst snd].
    assert (Hlog1 : Forall (fun d => 0 <= d <= 20000)
                           (select_delays (trace m ++ [SYS_sem_trywait h]))).
    { rewrite select_delays_app. simpl. now rewrite app_nil_r. }
    destruct (negb (errno_eqb e EAGAIN)); [exact Hlog1 |].
    unfold bind at 1. unfold do_gettimeofday, syscall_fallible. cbn [os errno trace].
    assert (Hlog2 : Forall (fun d => 0 <= d <= 20000)
                           (select_delays ((trace m ++ [SYS_sem_trywait h])
                                           ++ [SYS_gettimeofday]))).
    { rewrite select_delays_app. simpl. now rewrite app_nil_r. }
    destruct (gettimeofday w) as [[now | e'] w1]; [| exact Hlog2].
    destruct (deadline_passed tvdeadline now); [exact Hlog2 |].
    set (d := cap_delay delay (time_left tvdeadline now)).
    assert (Hd : 0 <= d <= 20000).
    { unfold d. rewrite cap_delay_min.
      assert (0 <= time_left tvdeadline now).
      { unfold time_left, to_ulong. apply Z.mod_pos_bound. reflexivity. }
      lia. }
    unfold bind at 1. unfold do_select, syscall_fallible. cbn [os errno trace].
    assert (Hlog3 : Forall (fun d => 0 <= d <= 20000)
                           (select_delays
                              (((trace m ++ [SYS_sem_trywait h]) ++ [SYS_gettimeofday])
                               ++ [SYS_select (mkTimeval (d / 1000000) (d mod 1000000))]))).
    { rewrite select_delays_app. apply Forall_app. split; [exact Hlog2 |].
      simpl. rewrite usec_split. constructor; [exact Hd | constructor]. }
    destruct (select (mkTimeval (d / 1000000) (d mod 1000000)) w1) as [[[] | e''] w2];
      [| exact Hlog3].
    unfold bind at 1. unfold do_PyErr_CheckSignals, syscall_total. cbn [os errno trace].
    destruct (PyErr_CheckSignals w2) as [sig w3].
    assert (Hlog4 : Forall (fun d => 0 <= d <= 20000)
                           (select_delays
                              ((((trace m ++ [SYS_sem_trywait h]) ++ [SYS_gettimeofday])
                                ++ [SYS_select (mkTimeval (d / 1000000) (d mod 1000000))])
                               ++ [SYS_PyErr_CheckSignals]))).
    { rewrite select_delays_app. simpl. now rewrite app_nil_r. }
    destruct (negb (sig =? 0)); [exact Hlog4 |].
    apply IH; [| exact Hlog4].
    unfold to_ulong. rewrite Z.mod_small; lia.
Qed.

(** One iteration of the poll loop in the concrete world, while the
    semaphore is taken. *)
Lemma ideal_timedwait_step :
  forall (fuel : nat) (h : SEM_HANDLE) (tvdeadline : timeval) (delay : Z)
         (w : Ideal.world) (e : errno_t) (tr : list syscall),
    Ideal.sem_value w <= 0 ->
    timedwait_loop (S fuel) h tvdeadline delay (mkMachine w e tr)
    = let now := mkTimeval (Ideal.clock w / 1000000) (Ideal.clock w mod 1000000) in
      if deadline_passed tvdeadline now then
        (Some (-1), mkMachine w ETIMEDOUT (tr ++ [SYS_sem_trywait h; SYS_gettimeofday]))
      else
        let d := cap_delay delay (time_left tvdeadline now) in
        let tr' := tr ++ [SYS_sem_trywait h; SYS_gettimeofday;
                          SYS_select (mkTimeval (d / 1000000) (d mod 1000000));
                          SYS_PyErr_CheckSignals] in
        let (sig, w') := Ideal.check_signals (Ideal.advance w d) in
        if negb (sig =? 0) then (Some (-1006), mkMachine w' EINTR tr')
        else timedwait_loop fuel h tvdeadline (to_ulong (d + 1000))
                            (mkMachine w' EAGAIN tr').
Proof.
  intros fuel h tvdeadline delay w e tr Hsem.
  cbn [timedwait_loop].
  unfold bind at 1. unfold do_sem_trywait, syscall_fallible.
  cbn [os errno trace sem_trywait Ideal.posix Ideal.posix_with].
  unfold Ideal.try_down.
  replace (0 <? Ideal.sem_value w) with false by (symmetry; apply Z.ltb_ge; lia).
  unfold bind at 1, get_errno. cbn [errno fst snd errno_eqb negb].
  unfold bind at 1. unfold do_gettimeofday, syscall_fallible.
  cbn [os errno trace gettimeofday Ideal.posix Ideal.posix_with].
  cbv zeta.
  destruct (deadline_passed tvdeadline
              (mkTimeval (Ideal.clock w / 1000000) (Ideal.clock w mod 1000000))).
  - unfold bind, set_errno, ret. cbn [os errno trace].
    rewrite <- app_assoc. reflexivity.
  - unfold bind at 1. unfold do_select, syscall_fallible.
    cbn [os errno trace select Ideal.posix Ideal.posix_with tv_sec tv_usec].
    rewrite usec_split.
    unfold bind at 1. unfold do_PyErr_CheckSignals, syscall_total.
    cbn [os errno trace PyErr_CheckSignals Ideal.runtime].
    destruct (Ideal.check_signals _) as [sig w'].
    rewrite <- !app_assoc. cbn [app].
    destruct (negb (sig =? 0)); [| reflexivity].
    unfold bind, set_errno, ret. reflexivity.
Qed.

Lemma advance_0 (w : Ideal.world) : Ideal.advance w 0 = w.
Proof. destruct w. unfold Ideal.advance. simpl. rewrite Z.add_0_r. reflexivity. Qed.

Lemma advance_advance (w : Ideal.world) (a b : Z) :
  Ideal.advance (Ideal.advance w a) b = Ideal.advance w (a + b).
Proof. unfold Ideal.advance. simpl. rewrite Z.add_assoc. reflexivity. Qed.

Lemma check_signals_quiet (w : Ideal.world) (D d : Z) :
  no_signal_by w D ->
  Ideal.clock w + d <= D ->
  Ideal.check_signals (Ideal.advance w d) = (0, Ideal.advance w d).
Proof.
  unfold no_signal_by, Ideal.check_signals. simpl.
  destruct (Ideal.sigint_at w) as [s |]; [| reflexivity].
  intros Hs Hd. destruct (Z.leb_spec s (Ideal.clock w + d)); [lia | reflexivity].
Qed.

Lemma select_delays_poll_rounds (h : SEM_HANDLE) (ds : list Z) :
  select_delays (poll_rounds h ds) = ds.
Proof.
  induction ds as [| d ds IH]; [reflexivity |].
  unfold poll_rounds in *. cbn [flat_map]. rewrite select_delays_app.
  rewrite IH. simpl. rewrite usec_split. reflexivity.
Qed.

(** The poll loop in the concrete world when the semaphore stays taken and
    no signal arrives by the deadline: entered for its [k]-th iteration with
    enough fuel, it returns the timeout, after the rounds (try, clock, sleep,
    check for signals) of [linear_schedule] and a last try and read of the
    clock, exactly at the deadline. *)
Lemma ideal_timedwait_times_out :
  forall (fuel : nat) (h : SEM_HANDLE) (sec usec k delay : Z) (w : Ideal.world)
         (e : errno_t) (tr : list syscall),
    let left := sec * 1000000 + usec - Ideal.clock w in
    Ideal.sem_value w <= 0 ->
    no_signal_by w (sec * 1000000 + usec) ->
    0 <= usec < 1000000 ->
    left < 2 ^ 64 ->
    0 <= k ->
    0 <= delay <= 21000 ->
    Z.min delay 20000 = Z.min (1000 * k) 20000 \/ left <= 0 ->
    Z.max 0 left + (if k =? 0 then 2000 else 1000) <= 1000 * Z.of_nat fuel ->
    timedwait_loop fuel h (mkTimeval sec usec) delay (mkMachine w e tr)
    = (Some (-1),
       mkMachine (Ideal.advance w (Z.max 0 left)) ETIMEDOUT
                 (tr ++ poll_rounds h (linear_schedule fuel k left)
                     ++ [SYS_sem_trywait h; SYS_gettimeofday])).
Proof.
  induction fuel as [| fuel IH];
    intros h sec usec k delay w e tr left Hsem Hsig Hu Hfit Hk Hdelay Hinv Hfuel.
  - exfalso. destruct (k =? 0); simpl in Hfuel; lia.
  - rewrite ideal_timedwait_step by exact Hsem. cbv zeta.
    rewrite ideal_deadline_passed by exact Hu.
    cbn [linear_schedule]. fold left.
    destruct (Z.leb_spec (sec * 1000000 + usec) (Ideal.clock w)) as [Hpast | Hahead].
    + replace (left <=? 0) with true by (symmetry; apply Z.leb_le; unfold left; lia).
      rewrite Z.max_l by (unfold left; lia). rewrite advance_0. reflexivity.
    + replace (left <=? 0) with false by (symmetry; apply Z.leb_gt; unfold left; lia).
      rewrite ideal_time_left by (fold left; lia). fold left.
      rewrite cap_delay_min.
      assert (Hd : Z.min (Z.min delay 20000) left = Z.min (Z.min (1000 * k) 20000) left).
      { destruct Hinv as [Hinv | Hinv]; [rewrite Hinv; reflexivity | unfold left in Hinv; lia]. }
      rewrite Hd. set (d := Z.min (Z.min (1000 * k) 20000) left).
      assert (Hd0 : 0 <= d <= 20000 /\ d <= left) by (unfold d; lia).
      rewrite (check_signals_quiet w (sec * 1000000 + usec) d Hsig)
        by (unfold left in Hd0; lia).
      cbn [Z.eqb negb].
      replace (to_ulong (d + 1000)) with (d + 1000)
        by (unfold to_ulong; rewrite Z.mod_small; lia).
      rewrite (IH h sec usec (k + 1) (d + 1000) (Ideal.advance w d) EAGAIN).
      * rewrite advance_advance. cbn [Ideal.advance Ideal.clock].
        replace (sec * 1000000 + usec - (Ideal.clock w + d)) with (left - d)
          by (unfold left; lia).
        replace (d + Z.max 0 (left - d)) with (Z.max 0 left) by lia.
        unfold poll_rounds. cbn [flat_map]. fold (poll_rounds h).
        unfold poll_round at 2. rewrite <- !app_assoc. reflexivity.
      * exact Hsem.
      * exact Hsig.
      * exact Hu.
      * simpl. lia.
      * lia.
      * lia.
      * simpl Ideal.clock. fold left.
        destruct (Z.eq_dec d left) as [Heq | Hne]; [right; lia | left].
        unfold d in *. lia.
      * simpl Ideal.clock. fold left.
        replace (k + 1 =? 0) with false by (symmetry; apply Z.eqb_neq; lia).
        destruct (Z.eqb_spec k 0) as [Hk0 | Hk0].
        -- lia.
        -- assert (1000 <= d \/ d = left) by (unfold d; lia). lia.
Qed.

(** The poll loop in the concrete world when the semaphore stays taken and
    the signal arrives at [s], no later than the deadline: it returns
    [MP_EXCEPTION_HAS_BEEN_SET] with [errno == EINTR] from the check that
    follows the first sleep ending at or after [s]: its rounds are the
    first [j] of [linear_schedule], and no earlier round had reached [s]. *)
Lemma ideal_timedwait_interrupted :
  forall (fuel : nat) (h : SEM_HANDLE) (sec usec k delay s : Z) (w : Ideal.world)
         (e : errno_t) (tr : list syscall),
    let left := sec * 1000000 + usec - Ideal.clock w in
    Ideal.sem_value w <= 0 ->
    Ideal.sigint_at w = Some s ->
    s <= sec * 1000000 + usec ->
    0 <= usec < 1000000 ->
    0 < left < 2 ^ 64 ->
    0 <= k ->
    0 <= delay <= 21000 ->
    Z.min delay 20000 = Z.min (1000 * k) 20000 ->
    Z.max 0 left + (if k =? 0 then 2000 else 1000) <= 1000 * Z.of_nat fuel ->
    exists j : nat,
      let rounds := firstn j (linear_schedule fuel k left) in
      timedwait_loop fuel h (mkTimeval sec usec) delay (mkMachine w e tr)
      = (Some (-1006),
         mkMachine (Ideal.mkWorld (Ideal.sem_value w) (Ideal.sem_max w)
                                  (Ideal.clock w + slept rounds) None)
                   EINTR (tr ++ poll_rounds h rounds))
      /\ (1 <= j)%nat
      /\ s <= Ideal.clock w + slept rounds
      /\ Ideal.clock w + slept rounds <= sec * 1000000 + usec
      /\ (forall i : nat,
            (1 <= i < j)%nat ->
            Ideal.clock w + slept (firstn i (linear_schedule fuel k left)) < s).
Proof.
  induction fuel as [| fuel IH];
    intros h sec usec k delay s w e tr left Hsem Hs Hsle Hu Hfit Hk Hdelay Hinv Hfuel.
  - exfalso. destruct (k =? 0); simpl in Hfuel; lia.
  - rewrite ideal_timedwait_step by exact Hsem. cbv zeta.
    rewrite ideal_deadline_passed by exact Hu.
    cbn [linear_schedule]. fold left.
    replace (sec * 1000000 + usec <=? Ideal.clock w) with false
      by (symmetry; apply Z.leb_gt; unfold left in Hfit; lia).
    replace (left <=? 0) with false by (symmetry; apply Z.leb_gt; lia).
    rewrite ideal_time_left by (fold left; lia). fold left.
    rewrite cap_delay_min. rewrite Hinv.
    set (d := Z.min (Z.min (1000 * k) 20000) left).
    assert (Hd0 : 0 <= d <= 20000 /\ d <= left) by (unfold d; lia).
    unfold Ideal.check_signals. cbn [Ideal.advance Ideal.sigint_at Ideal.clock
                                     Ideal.sem_value Ideal.sem_max].
    rewrite Hs.
    destruct (Z.leb_spec s (Ideal.clock w + d)) as [Harrived | Hnotyet].
    + cbn [Z.eqb negb].
      exists 1%nat. cbn [firstn slept fold_right poll_rounds flat_map].
      rewrite Z.add_0_r, app_nil_r.
      split; [reflexivity |]. split; [lia |]. split; [exact Harrived |].
      split; [unfold left in Hd0; lia |].
      intros i Hi. lia.
    + cbn [Z.eqb negb].
      replace (to_ulong (d + 1000)) with (d + 1000)
        by (unfold to_ulong; rewrite Z.mod_small; lia).
      change (Ideal.mkWorld (Ideal.sem_value w) (Ideal.sem_max w)
                            (Ideal.clock w + d) (Ideal.sigint_at w))
        with (Ideal.advance w d).
      assert (Hleft' : d < left) by (unfold left; lia).
      destruct (IH h sec usec (k + 1) (d + 1000) s (Ideal.advance w d) EAGAIN
                  (tr ++ [SYS_sem_trywait h; SYS_gettimeofday;
                          SYS_select (mkTimeval (d / 1000000) (d mod 1000000));
                          SYS_PyErr_CheckSignals]))
        as (j & Hrun & Hj & Hreached & Hc & Hmin).
      * exact Hsem.
      * exact Hs.
      * exact Hsle.
      * exact Hu.
      * simpl Ideal.clock. fold left. lia.
      * lia.
      * lia.
      * unfold d in *. lia.
      * simpl Ideal.clock. fold left.
        replace (k + 1 =? 0) with false by (symmetry; apply Z.eqb_neq; lia).
        destruct (Z.eqb_spec k 0) as [Hk0 | Hk0].
        -- lia.
        -- assert (1000 <= d) by (unfold d; lia). lia.
      * cbv zeta in Hrun, Hreached, Hc, Hmin.
        cbn [Ideal.advance Ideal.clock Ideal.sem_value Ideal.sem_max] in Hrun, Hreached, Hc, Hmin.
        replace (sec * 1000000 + usec - (Ideal.clock w + d)) with (left - d)
          in Hrun, Hreached, Hc, Hmin by (unfold left; lia).
        exists (S j). cbv zeta. cbn [firstn slept fold_right].
        fold (slept (firstn j (linear_schedule fuel (k + 1) (left - d)))).
        split.
        { rewrite Hrun. unfold poll_rounds. cbn [flat_map]. fold (poll_rounds h).
          unfold poll_round at 2. rewrite <- !app_assoc. rewrite Z.add_assoc.
          reflexivity. }
        split; [lia |]. split; [lia |]. split; [lia |].
        intros i Hi. destruct i as [| i]; [lia |].
        cbn [firstn slept fold_right].
        fold (slept (firstn i (linear_schedule fuel (k + 1) (left - d)))).
        destruct i as [| i].
        { cbn [firstn slept fold_right]. lia. }
        specialize (Hmin (S i) ltac:(lia)). lia.
Qed.

(** A blocking acquire with a timeout on the slow path, in any world: the
    clock is read, the deadline computed, and the outcome of the timed wait
    decides the result. *)
Lemma timed_acquire_unfold :
  forall (W : Type) (rt : PyRuntime W) (px : Posix W)
         (fuel : nat) (tid : Z) (self : BilliardSemLockObject) (timeout : Q)
         (m : machine W) (now : timeval) (w1 : W) (res : Z) (m' : machine W),
    let deadline := compute_deadline now (if Qlt_bool timeout 0 then 0%Q else timeout) in
    (kind self =? RECURSIVE_MUTEX) && ISMINE tid self = false ->
    gettimeofday (os m) = (inl now, w1) ->
    timedwait_loop (S fuel) (handle self)
      (mkTimeval (ts_sec deadline) (Z.quot (ts_nsec deadline) 1000)) 0
      (mkMachine w1 ENOERR (trace m ++ [SYS_gettimeofday]))
    = (Some res, m') ->
    (res = 0 ->
     Billiard_semlock_acquire (S fuel) tid self 1 (PyNumber timeout) m
     = (Some Py_True, set_last_tid (set_count self (to_int (count self + 1))) tid, m'))
    /\ (res = -1 -> errno m' = ETIMEDOUT ->
        Billiard_semlock_acquire (S fuel) tid self 1 (PyNumber timeout) m
        = (Some Py_False, self, m'))
    /\ (res = -1006 -> errno m' = EINTR ->
        Billiard_semlock_acquire (S fuel) tid self 1 (PyNumber timeout) m
        = (Some (PyNULL SignalError), self, m')).
Proof.
  intros W rt px fuel tid self timeout m now w1 res m' deadline Hslow Hnow Hwait.
  subst deadline.
  repeat split; intros; subst res;
    unfold Billiard_semlock_acquire; rewrite Hslow;
    cbn [is_Py_None negb PyFloat_AsDouble];
    unfold bind at 1; unfold do_gettimeofday, syscall_fallible;
    rewrite Hnow;
    unfold acquire_wait; unfold bind at 1; cbn [acquire_loop];
    change (1 =? 0) with false; cbn [negb andb is_Py_None];
    unfold bind at 1; unfold Billiard_sem_timedwait_save;
    unfold bind at 1, set_errno; cbn [os errno trace];
    rewrite Hwait.
  - reflexivity.
  - destruct m' as [w' e' tr']. cbn [errno] in *. subst e'. reflexivity.
  - destruct m' as [w' e' tr']. cbn [errno] in *. subst e'. reflexivity.
Qed.

(** One iteration of the poll loop in the world with a second process,
    while the semaphore is taken and the post is still to come: it is the
    iteration of the concrete world. *)
Lemma shared_timedwait_step :
  forall (fuel : nat) (h : SEM_HANDLE) (tvdeadline : timeval) (delay T : Z)
         (l : Ideal.world) (e : errno_t) (tr : list syscall),
    Ideal.sem_value l <= 0 ->
    Ideal.clock l < T ->
    timedwait_loop (S fuel) h tvdeadline delay
                   (mkMachine (Shared.mkWorld l (Some T)) e tr)
    = let now := mkTimeval (Ideal.clock l / 1000000) (Ideal.clock l mod 1000000) in
      if deadline_passed tvdeadline now then
        (Some (-1), mkMachine (Shared.mkWorld l (Some T)) ETIMEDOUT
                              (tr ++ [SYS_sem_trywait h; SYS_gettimeofday]))
      else
        let d := cap_delay delay (time_left tvdeadline now) in
        let tr' := tr ++ poll_round h d in
        let (sig, l') := Ideal.check_signals (Ideal.advance l d) in
        if negb (sig =? 0)
        then (Some (-1006), mkMachine (Shared.mkWorld l' (Some T)) EINTR tr')
        else timedwait_loop fuel h tvdeadline (to_ulong (d + 1000))
                            (mkMachine (Shared.mkWorld l' (Some T)) EAGAIN tr').
Proof.
  intros fuel h tvdeadline delay T l e tr Hsem Hlater.
  cbn [timedwait_loop].
  unfold bind at 1. unfold do_sem_trywait, syscall_fallible.
  cbn [os errno trace sem_trywait Shared.posix].
  unfold Shared.on_sem, Shared.arrive. cbn [Shared.post_at Shared.local].
  replace (T <=? Ideal.clock l) with false by (symmetry; apply Z.leb_gt; lia).
  unfold Shared.aside. cbn [Shared.post_at Shared.local].
  unfold Ideal.try_down.
  replace (0 <? Ideal.sem_value l) with false by (symmetry; apply Z.ltb_ge; lia).
  unfold bind at 1, get_errno. cbn [errno fst snd errno_eqb negb].
  unfold bind at 1. unfold do_gettimeofday, syscall_fallible.
  cbn [os errno trace gettimeofday Shared.posix Shared.aside Shared.post_at Shared.local].
  cbv zeta.
  destruct (deadline_passed tvdeadline
              (mkTimeval (Ideal.clock l / 1000000) (Ideal.clock l mod 1000000))).
  - unfold bind, set_errno, ret. cbn [os errno trace].
    rewrite <- app_assoc. reflexivity.
  - unfold bind at 1. unfold do_select, syscall_fallible.
    cbn [os errno trace select Shared.posix Shared.aside Shared.post_at Shared.local
         tv_sec tv_usec].
    rewrite usec_split.
    unfold bind at 1. unfold do_PyErr_CheckSignals, syscall_total.
    cbn [os errno trace PyErr_CheckSignals Shared.runtime].
    unfold Shared.aside. cbn [Shared.post_at Shared.local].
    destruct (Ideal.check_signals _) as [sig l'].
    unfold poll_round. rewrite <- !app_assoc. cbn [app].
    destruct (negb (sig =? 0)); [| reflexivity].
    unfold bind, set_errno, ret. reflexivity.
Qed.

(** The iteration of the poll loop that follows the post of the other
    process: the try takes the unit, and the loop returns 0 at once. *)
Lemma shared_timedwait_takes :
  forall (fuel : nat) (h : SEM_HANDLE) (tvdeadline : timeval) (delay T : Z)
         (l : Ideal.world) (e : errno_t) (tr : list syscall),
    Ideal.sem_value l = 0 ->
    T <= Ideal.clock l ->
    timedwait_loop (S fuel) h tvdeadline delay
                   (mkMachine (Shared.mkWorld l (Some T)) e tr)
    = (Some 0, mkMachine (Shared.mkWorld l None) e (tr ++ [SYS_sem_trywait h])).
Proof.
  intros fuel h tvdeadline delay T l e tr Hsem Hposted.
  cbn [timedwait_loop].
  unfold bind at 1. unfold do_sem_trywait, syscall_fallible.
  cbn [os errno trace sem_trywait Shared.posix].
  unfold Shared.on_sem, Shared.arrive. cbn [Shared.post_at Shared.local].
  replace (T <=? Ideal.clock l) with true by (symmetry; apply Z.leb_le; lia).
  unfold Shared.aside. cbn [Shared.post_at Shared.local].
  unfold Ideal.try_down, Ideal.with_value.
  destruct l as [v mx c sg]. cbn [Ideal.sem_value Ideal.sem_max Ideal.clock
                                  Ideal.sigint_at] in *.
  subst v. reflexivity.
Qed.

(** The poll loop in the world with a second process, when the semaphore is
    taken, the other process posts it at [T], no later than the deadline,
    and no signal arrives: the loop returns 0 from the first try made at or
    after [T], after the rounds of the first [j] sleeps of
    [linear_schedule]; every earlier try was made before [T]. *)
Lemma shared_timedwait_acquires :
  forall (fuel : nat) (h : SEM_HANDLE) (sec usec k delay T : Z) (l : Ideal.world)
         (e : errno_t) (tr : list syscall),
    let left := sec * 1000000 + usec - Ideal.clock l in
    Ideal.sem_value l = 0 ->
    no_signal_by l (sec * 1000000 + usec) ->
    T <= sec * 1000000 + usec ->
    0 <= usec < 1000000 ->
    left < 2 ^ 64 ->
    0 <= k ->
    0 <= delay <= 21000 ->
    Z.min delay 20000 = Z.min (1000 * k) 20000 \/ left <= 0 ->
    Z.max 0 left + (if k =? 0 then 2000 else 1000) <= 1000 * Z.of_nat fuel ->
    exists (j : nat) (e' : errno_t),
      let rounds := firstn j (linear_schedule fuel k left) in
      timedwait_loop fuel h (mkTimeval sec usec) delay
                     (mkMachine (Shared.mkWorld l (Some T)) e tr)
      = (Some 0,
         mkMachine (Shared.mkWorld (Ideal.advance l (slept rounds)) None) e'
                   (tr ++ poll_rounds h rounds ++ [SYS_sem_trywait h]))
      /\ T <= Ideal.clock l + slept rounds
      /\ (forall i : nat,
            (i < j)%nat ->
            Ideal.clock l + slept (firstn i (linear_schedule fuel k left)) < T).
Proof.
  induction fuel as [| fuel IH];
    intros h sec usec k delay T l e tr left Hsem Hsig HT Hu Hfit Hk Hdelay Hinv Hfuel.
  - exfalso. destruct (k =? 0); simpl in Hfuel; lia.
  - destruct (Z.le_gt_cases T (Ideal.clock l)) as [Hposted | Hlater].
    + exists 0%nat, e. cbv zeta. cbn [firstn slept fold_right poll_rounds flat_map app].
      rewrite advance_0.
      split; [apply shared_timedwait_takes; assumption |].
      split; [lia |]. intros i Hi. lia.
    + rewrite shared_timedwait_step by lia. cbv zeta.
      rewrite ideal_deadline_passed by exact Hu.
      cbn [linear_schedule]. fold left.
      replace (sec * 1000000 + usec <=? Ideal.clock l) with false
        by (symmetry; apply Z.leb_gt; lia).
      replace (left <=? 0) with false by (symmetry; apply Z.leb_gt; unfold left; lia).
      rewrite ideal_time_left by (fold left; lia). fold left.
      rewrite cap_delay_min.
      assert (Hd : Z.min (Z.min delay 20000) left = Z.min (Z.min (1000 * k) 20000) left).
      { destruct Hinv as [Hinv | Hinv]; [rewrite Hinv; reflexivity | unfold left in Hinv; lia]. }
      rewrite Hd. set (d := Z.min (Z.min (1000 * k) 20000) left).
      assert (Hd0 : 0 <= d <= 20000 /\ d <= left) by (unfold d, left; lia).
      rewrite (check_signals_quiet l (sec * 1000000 + usec) d Hsig)
        by (unfold left in Hd0; lia).
      cbn [Z.eqb negb].
      replace (to_ulong (d + 1000)) with (d + 1000)
        by (unfold to_ulong; rewrite Z.mod_small; lia).
      destruct (IH h sec usec (k + 1) (d + 1000) T (Ideal.advance l d) EAGAIN
                  (tr ++ poll_round h d))
        as (j & e' & Hrun & Hreached & Hmin).
      * exact Hsem.
      * exact Hsig.
      * exact HT.
      * exact Hu.
      * simpl. lia.
      * lia.
      * lia.
      * simpl Ideal.clock. fold left.
        destruct (Z.eq_dec d left) as [Heq | Hne]; [right; lia | left].
        unfold d in *. lia.
      * simpl Ideal.clock. fold left.
        replace (k + 1 =? 0) with false by (symmetry; apply Z.eqb_neq; lia).
        destruct (Z.eqb_spec k 0) as [Hk0 | Hk0].
        -- lia.
        -- assert (1000 <= d \/ d = left) by (unfold d; lia). lia.
      * cbv zeta in Hrun, Hreached, Hmin.
        cbn [Ideal.advance Ideal.clock] in Hreached, Hmin.
        replace (sec * 1000000 + usec - Ideal.clock (Ideal.advance l d)) with (left - d)
          in Hrun by (unfold left; simpl; lia).
        replace (sec * 1000000 + usec - (Ideal.clock l + d)) with (left - d)
          in Hreached, Hmin by (unfold left; lia).
        exists (S j), e'. cbv zeta. cbn [firstn slept fold_right].
        fold (slept (firstn j (linear_schedule fuel (k + 1) (left - d)))).
        split.
        { rewrite Hrun. rewrite advance_advance.
          unfold poll_rounds. cbn [flat_map]. fold (poll_rounds h).
          rewrite <- !app_assoc. reflexivity. }
        split; [lia |].
        intros i Hi. destruct i as [| i].
        { cbn [firstn slept fold_right]. lia. }
        cbn [firstn slept fold_right].
        fold (slept (firstn i (linear_schedule fuel (k + 1) (left - d)))).
        specialize (Hmin i ltac:(lia)). lia.
Qed.

(** C3, as the code has it.  A blocking acquire with a timeout, in the
    concrete world, by a thread that does not own the lock: the clock is
    read and the deadline computed; then the poll loop tries the semaphore
    without blocking, and after each failure before the deadline reads the
    clock, sleeps and checks for signals.  The [k]-th sleep (from 0) lasts
    [k] milliseconds -- the delay grows by one millisecond per iteration,
    it is not multiplied --, at most 20 milliseconds and at most the time
    left until the deadline ([linear_schedule]).  With enough fuel ([fuel]
    iterations cover the time left) the call returns, and its log of calls
    is exactly:
    - the read of the clock and one try, if the semaphore is available: the
      result is [True], the unit is taken and the lock counted, without any
      sleep;
    - the read of the clock, one round (try, clock, sleep, check for
      signals) for every sleep of the schedule, and a last try and read of
      the clock, if the semaphore stays taken and no signal arrives by the
      deadline: the result is [False], and the clock stands at the deadline
      (or where it stood, if the deadline had passed already);
    - the read of the clock and the first [j >= 1] rounds of the schedule, if
      the semaphore stays taken and a signal arrives at [s], before or at
      the deadline: the result is [NULL] with the exception of the signal
      handler, from the check that follows the first sleep ending at or
      after [s] (no earlier round had reached [s]);
    - the read of the clock, the first [j] rounds of the schedule and the try
      that succeeds, if the semaphore is taken and another process posts it
      at [T], before or at the deadline, no signal arriving: the result is
      [True], from the first try made at or after [T].
    The instance is unchanged when the result is not [True]. *)
Theorem emulated_timed_acquire :
  forall (fuel : nat) (tid : Z) (self : BilliardSemLockObject) (timeout : Q)
         (w : Ideal.world),
    let h := handle self in
    let now := mkTimeval (Ideal.clock w / 1000000) (Ideal.clock w mod 1000000) in
    let deadline := compute_deadline now (if Qlt_bool timeout 0 then 0%Q else timeout) in
    let left := deadline_usec deadline - Ideal.clock w in
    let schedule := linear_schedule fuel 0 left in
    let acquired := set_last_tid (set_count self (to_int (count self + 1))) tid in
    let out := Billiard_semlock_acquire fuel tid self 1 (PyNumber timeout) (Ideal.boot w) in
    (kind self =? RECURSIVE_MUTEX) && ISMINE tid self = false ->
    0 <= ts_nsec deadline < 1000000000 ->
    left < 2 ^ 64 ->
    Z.max 0 left + 2000 <= 1000 * Z.of_nat fuel ->
    (0 < Ideal.sem_value w ->
     out = (Some Py_True, acquired,
            mkMachine (Ideal.with_value w (Ideal.sem_value w - 1)) ENOERR
                      [SYS_gettimeofday; SYS_sem_trywait h]))
    /\ (Ideal.sem_value w <= 0 ->
        no_signal_by w (deadline_usec deadline) ->
        fst out = (Some Py_False, self)
        /\ trace (snd out)
           = SYS_gettimeofday
               :: poll_rounds h schedule ++ [SYS_sem_trywait h; SYS_gettimeofday]
        /\ select_delays (trace (snd out)) = schedule
        /\ Forall (fun d => 0 <= d <= 20000) schedule
        /\ os (snd out) = Ideal.advance w (Z.max 0 left))
    /\ (Ideal.sem_value w <= 0 ->
        forall s : Z,
          Ideal.sigint_at w = Some s ->
          s <= deadline_usec deadline ->
          0 < left ->
          fst out = (Some (PyNULL SignalError), self)
          /\ Ideal.clock (os (snd out)) <= deadline_usec deadline
          /\ exists j : nat,
               (1 <= j)%nat
               /\ trace (snd out) = SYS_gettimeofday :: poll_rounds h (firstn j schedule)
               /\ select_delays (trace (snd out)) = firstn j schedule
               /\ Ideal.clock (os (snd out)) = Ideal.clock w + slept (firstn j schedule)
               /\ s <= Ideal.clock w + slept (firstn j schedule)
               /\ (forall i : nat,
                     (1 <= i < j)%nat ->
                     Ideal.clock w + slept (firstn i schedule) < s))
    /\ (Ideal.sem_value w = 0 ->
        no_signal_by w (deadline_usec deadline) ->
        forall T : Z,
          T <= deadline_usec deadline ->
          let shared :=
            Billiard_semlock_acquire fuel tid self 1 (PyNumber timeout)
              (Shared.boot (Shared.mkWorld w (Some T))) in
          fst shared = (Some Py_True, acquired)
          /\ exists j : nat,
               trace (snd shared)
               = SYS_gettimeofday
                   :: poll_rounds h (firstn j schedule) ++ [SYS_sem_trywait h]
               /\ select_delays (trace (snd shared)) = firstn j schedule
               /\ os (snd shared)
                  = Shared.mkWorld (Ideal.advance w (slept (firstn j schedule))) None
               /\ T <= Ideal.clock w + slept (firstn j schedule)
               /\ (forall i : nat,
                     (i < j)%nat ->
                     Ideal.clock w + slept (firstn i schedule) < T)).
Proof.
  intros fuel tid self timeout w h now deadline left schedule acquired out
         Hslow Hnsec Hfit Hfuel.
  assert (Husec : 0 <= Z.quot (ts_nsec deadline) 1000 < 1000000).
  { split.
    - apply Z.quot_pos; lia.
    - apply Z.quot_lt_upper_bound; lia. }
  destruct fuel as [| fuel]; [simpl in Hfuel; lia |].
  assert (Hnow : gettimeofday (os (Ideal.boot w)) = (inl now, w)) by reflexivity.
  unfold deadline_usec in *.
  split; [| split; [| split]].
  - intro Havail.
    assert (Hrun :
      timedwait_loop (S fuel) h
        (mkTimeval (ts_sec deadline) (Z.quot (ts_nsec deadline) 1000)) 0
        (mkMachine w ENOERR (trace (Ideal.boot w) ++ [SYS_gettimeofday]))
      = (Some 0, mkMachine (Ideal.with_value w (Ideal.sem_value w - 1)) ENOERR
                           [SYS_gettimeofday; SYS_sem_trywait h])).
    { cbn [timedwait_loop].
      unfold bind at 1. unfold do_sem_trywait, syscall_fallible.
      cbn [os errno trace sem_trywait Ideal.posix Ideal.posix_with Ideal.boot app].
      unfold Ideal.try_down.
      replace (0 <? Ideal.sem_value w) with true by (symmetry; apply Z.ltb_lt; lia).
      reflexivity. }
    destruct (timed_acquire_unfold Ideal.world Ideal.runtime Ideal.posix fuel tid self timeout
                (Ideal.boot w) now w 0 _
                Hslow Hnow Hrun) as [Hacq _].
    exact (Hacq eq_refl).
  - intros Hsem Hquiet.
    pose proof (ideal_timedwait_times_out (S fuel) h (ts_sec deadline)
                  (Z.quot (ts_nsec deadline) 1000) 0 0 w ENOERR [SYS_gettimeofday]
                  Hsem Hquiet Husec Hfit ltac:(lia) ltac:(lia) ltac:(left; reflexivity)
                  Hfuel) as Hrun.
    destruct (timed_acquire_unfold Ideal.world Ideal.runtime Ideal.posix fuel tid self timeout
                (Ideal.boot w) now w (-1) _
                Hslow Hnow Hrun) as (_ & Hacq & _).
    specialize (Hacq eq_refl eq_refl). unfold out. rewrite Hacq.
    cbn [fst snd trace os app].
    split; [reflexivity |]. split; [reflexivity |].
    split.
    { cbn [select_delays]. rewrite select_delays_app, select_delays_poll_rounds.
      cbn [select_delays]. exact (app_nil_r _). }
    split; [| reflexivity].
    apply linear_schedule_capped. lia.
  - intros Hsem s Hs Hsle Hleft.
    destruct (ideal_timedwait_interrupted (S fuel) h (ts_sec deadline)
                (Z.quot (ts_nsec deadline) 1000) 0 0 s w ENOERR [SYS_gettimeofday]
                Hsem Hs Hsle Husec ltac:(split; [exact Hleft | exact Hfit])
                ltac:(lia) ltac:(lia) ltac:(reflexivity) Hfuel)
      as (j & Hrun & Hj & Hreached & Hc & Hmin).
    cbv zeta in Hrun, Hreached, Hc.
    destruct (timed_acquire_unfold Ideal.world Ideal.runtime Ideal.posix fuel tid self timeout
                (Ideal.boot w) now w (-1006) _
                Hslow Hnow Hrun) as (_ & _ & Hacq).
    specialize (Hacq eq_refl eq_refl). unfold out. rewrite Hacq.
    cbn [fst snd trace os app Ideal.clock].
    split; [reflexivity |]. split; [exact Hc |].
    exists j. split; [exact Hj |]. split; [reflexivity |].
    split.
    { cbn [select_delays]. apply select_delays_poll_rounds. }
    split; [reflexivity |]. split; [exact Hreached | exact Hmin].
  - intros Hsem Hquiet T HT.
    destruct (shared_timedwait_acquires (S fuel) h (ts_sec deadline)
                (Z.quot (ts_nsec deadline) 1000) 0 0 T w ENOERR [SYS_gettimeofday]
                Hsem Hquiet HT Husec Hfit ltac:(lia) ltac:(lia)
                ltac:(left; reflexivity) Hfuel)
      as (j & e' & Hrun & Hreached & Hmin).
    cbv zeta in Hrun, Hreached.
    assert (Hnow' : gettimeofday (os (Shared.boot (Shared.mkWorld w (Some T))))
                    = (inl now, Shared.mkWorld w (Some T))) by reflexivity.
    destruct (timed_acquire_unfold Shared.world Shared.runtime Shared.posix fuel tid self timeout
                (Shared.boot (Shared.mkWorld w (Some T))) now
                (Shared.mkWorld w (Some T)) 0 _ Hslow Hnow' Hrun) as [Hacq _].
    specialize (Hacq eq_refl). rewrite Hacq.
    cbn [fst snd trace os app].
    split; [reflexivity |].
    exists j. split; [reflexivity |].
    split.
    { cbn [select_delays]. rewrite select_delays_app, select_delays_poll_rounds.
      cbn [select_delays]. exact (app_nil_r _). }
    split; [reflexivity |]. split; [exact Hreached | exact Hmin].
Qed.

Lemma emulated_timed_acquire_witness :
  let self := mkSemLock Ideal.the_handle 0 0 1 SEMAPHORE None in
  let timeout := (1 # 50)%Q in
  let free := Ideal.mkWorld 1 1 0 None in
  let quiet := Ideal.mkWorld 0 1 0 None in
  let interrupted := Ideal.mkWorld 0 1 0 (Some 2500) in
  let posted := Shared.mkWorld quiet (Some 2500) in
  let deadline := compute_deadline (mkTimeval 0 0) timeout in
  ((kind self =? RECURSIVE_MUTEX) && ISMINE 7 self = false
   /\ 0 <= ts_nsec deadline < 1000000000
   /\ deadline_usec deadline - 0 < 2 ^ 64
   /\ Z.max 0 (deadline_usec deadline - 0) + 2000 <= 1000 * Z.of_nat 30
   /\ 0 < Ideal.sem_value free
   /\ Ideal.sem_value quiet <= 0
   /\ no_signal_by quiet (deadline_usec deadline)
   /\ Ideal.sigint_at interrupted = Some 2500
   /\ 2500 <= deadline_usec deadline
   /\ 0 < deadline_usec deadline - 0)
  /\ (let out := Billiard_semlock_acquire 30 7 self 1 (PyNumber timeout)
                                          (Ideal.boot free) in
      fst out = (Some Py_True, set_last_tid (set_count self 1) 7)
      /\ trace (snd out) = [SYS_gettimeofday; SYS_sem_trywait Ideal.the_handle]
      /\ Ideal.sem_value (os (snd out)) = 0)
  /\ (let out := Billiard_semlock_acquire 30 7 self 1 (PyNumber timeout)
                                          (Ideal.boot quiet) in
      fst out = (Some Py_False, self)
      /\ select_delays (trace (snd out)) = [0; 1000; 2000; 3000; 4000; 5000; 5000]
      /\ Ideal.clock (os (snd out)) = 20000)
  /\ (let out := Billiard_semlock_acquire 30 7 self 1 (PyNumber timeout)
                                          (Ideal.boot interrupted) in
      fst out = (Some (PyNULL SignalError), self)
      /\ Ideal.clock (os (snd out)) <= 20000)
  /\ (let out := Billiard_semlock_acquire 30 7 self 1 (PyNumber timeout)
                                          (Shared.boot posted) in
      fst out = (Some Py_True, set_last_tid (set_count self 1) 7)
      /\ exists j : nat,
           select_delays (trace (snd out))
           = firstn j [0; 1000; 2000; 3000; 4000; 5000; 5000]
           /\ 2500 <= slept (firstn j [0; 1000; 2000; 3000; 4000; 5000; 5000])).
Proof.
  intros self timeout free quiet interrupted posted deadline.
  assert (Hslow : (kind self =? RECURSIVE_MUTEX) && ISMINE 7 self = false)
    by reflexivity.
  assert (Hnsec : 0 <= ts_nsec deadline < 1000000000) by (vm_compute; split; congruence).
  assert (Hfit : deadline_usec deadline - 0 < 2 ^ 64) by (vm_compute; reflexivity).
  assert (Hfuel : Z.max 0 (deadline_usec deadline - 0) + 2000 <= 1000 * Z.of_nat 30)
    by (vm_compute; congruence).
  assert (Hfree : 0 < Ideal.sem_value free) by reflexivity.
  assert (Hsem : Ideal.sem_value quiet <= 0) by (simpl; lia).
  assert (Hquiet : no_signal_by quiet (deadline_usec deadline)) by exact I.
  assert (Hs : Ideal.sigint_at interrupted = Some 2500) by reflexivity.
  assert (Hsle : 2500 <= deadline_usec deadline) by (vm_compute; congruence).
  assert (Hleft : 0 < deadline_usec deadline - 0) by (vm_compute; reflexivity).
  split; [repeat split; try assumption; apply Hnsec |].
  split; [| split; [| split]].
  - destruct (emulated_timed_acquire 30 7 self timeout free Hslow Hnsec Hfit Hfuel)
      as [Htrue _].
    cbv zeta. rewrite (Htrue Hfree). repeat split.
  - destruct (emulated_timed_acquire 30 7 self timeout quiet Hslow Hnsec Hfit Hfuel)
      as (_ & Hfalse & _).
    destruct (Hfalse Hsem Hquiet) as (Hres & _ & Hsleeps & _ & Hos).
    split; [exact Hres |]. split; [exact Hsleeps |].
    cbv zeta. rewrite Hos. reflexivity.
  - destruct (emulated_timed_acquire 30 7 self timeout interrupted Hslow Hnsec
                Hfit Hfuel) as (_ & _ & Herr & _).
    destruct (Herr Hsem 2500 Hs Hsle Hleft) as (Hres & Hclock & _).
    split; [exact Hres | exact Hclock].
  - destruct (emulated_timed_acquire 30 7 self timeout quiet Hslow Hnsec Hfit Hfuel)
      as (_ & _ & _ & Hpost).
    destruct (Hpost eq_refl Hquiet 2500 Hsle) as (Hres & j & _ & Hsleeps & _ & Hreached & _).
    split; [exact Hres |].
    exists j. split; [exact Hsleeps | exact Hreached].
Defined.

(** C3 as stated fails in the growth of the delay.  A blocking acquire
    with a timeout of 20 milliseconds on a taken semaphore sleeps 0, 1, 2,
    3, 4, 5 and again 5 milliseconds (the last sleep is cut to the time
    left) and then returns [False].  The sleeps before the cut, with or
    without the initial one of zero length, do not grow by a constant
    factor: they grow by a constant difference. *)
Lemma poll_delay_is_not_exponential :
  let self := mkSemLock Ideal.the_handle 0 0 1 SEMAPHORE None in
  let out := Billiard_semlock_acquire 30 7 self 1 (PyNumber (1 # 50))
                                      (Ideal.boot (Ideal.mkWorld 0 1 0 None)) in
  fst out = (Some Py_False, self)
  /\ select_delays (trace (snd out)) = [0; 1000; 2000; 3000; 4000; 5000; 5000]
  /\ ~ exponentially_increasing [0; 1000; 2000; 3000; 4000; 5000]
  /\ ~ exponentially_increasing [1000; 2000; 3000; 4000; 5000].
Proof.
  intros self out. split; [vm_compute; reflexivity |].
  split; [vm_compute; reflexivity |].
  split; intros (a & b & Hab & Hstep).
  - pose proof (Hstep 0%nat ltac:(simpl; lia)) as H0. simpl in H0. lia.
  - pose proof (Hstep 0%nat ltac:(simpl; lia)) as H0.
    pose proof (Hstep 1%nat ltac:(simpl; lia)) as H1.
    simpl in H0, H1. lia.
Qed.

(** * Further properties of the code *)

(** ** What a call does to the instance *)

Section UnixOutcome.

Context {hdr : MP_Header} {W : Type} {rt : PyRuntime W} {px : Posix W}.

Lemma acquire_finish_outcome :
  forall (tid : Z) (self s : BilliardSemLockObject) (res : Z) (m m' : machine W)
         (r : PyResult),
    acquire_finish tid self res m = (r, s, m') ->
    (r = Py_True
     /\ s = set_last_tid (set_count self (to_int (count self + 1))) tid)
    \/ (r <> Py_True /\ s = self).
Proof.
  intros tid self s res m m' r. unfold acquire_finish.
  destruct (res <? 0); run_monad;
    [| intro H; inversion H; left; split; reflexivity].
  destruct (errno_eqb (errno m) EAGAIN || errno_eqb (errno m) ETIMEDOUT);
    simpl; [intro H; inversion H; right; split; [discriminate | reflexivity] |].
  destruct (errno_eqb (errno m) EINTR); simpl;
    intro H; inversion H; right; (split; [discriminate | reflexivity]).
Qed.

Lemma acquire_wait_outcome :
  forall (fuel : nat) (tid : Z) (self s : BilliardSemLockObject) (blocking : Z)
         (timeout_obj : PyObject) (deadline : timespec) (m m' : machine W)
         (r : option PyResult),
    acquire_wait fuel tid self blocking timeout_obj deadline m = (r, s, m') ->
    (r = Some Py_True
     /\ s = set_last_tid (set_count self (to_int (count self + 1))) tid)
    \/ (r <> Some Py_True /\ s = self).
Proof.
  intros fuel tid self s blocking timeout_obj deadline m m' r.
  unfold acquire_wait. unfold bind at 1.
  destruct (acquire_loop fuel fuel (handle self) blocking timeout_obj deadline m)
    as [[res |] m1];
    [| unfold ret; intro H; inversion H; right; split; [discriminate | reflexivity]].
  unfold bind, ret.
  destruct (acquire_finish tid self res m1) as [[r1 s1] m2] eqn:Hf.
  apply acquire_finish_outcome in Hf. cbn [fst snd].
  intro H. inversion H. subst.
  destruct Hf as [[Hr Hs] | [Hr Hs]]; [left | right]; split; congruence.
Qed.

(** The instance after an acquire: as it was when the call does not return
    [True]; with [count] one higher when it does, and the calling thread
    recorded (on the fast path of a recursive mutex it was recorded
    already). *)
Lemma unix_acquire_outcome :
  forall (fuel : nat) (tid : Z) (self s : BilliardSemLockObject) (blocking : Z)
         (timeout_obj : PyObject) (m m' : machine W) (r : option PyResult),
    Billiard_semlock_acquire fuel tid self blocking timeout_obj m = (r, s, m') ->
    (r = Some Py_True
     /\ s = set_last_tid (set_count self (to_int (count self + 1))) tid)
    \/ (r <> Some Py_True /\ s = self).
Proof.
  intros fuel tid self s blocking timeout_obj m m' r.
  unfold Billiard_semlock_acquire.
  destruct ((kind self =? RECURSIVE_MUTEX) && ISMINE tid self) eqn:Hfast.
  - unfold ret. intro H. inversion H. left. split; [reflexivity |].
    apply andb_true_iff in Hfast. destruct Hfast as [_ Hmine].
    apply ISMINE_true_iff in Hmine. destruct Hmine as [_ Ht].
    unfold set_last_tid, set_count. simpl. rewrite Ht. reflexivity.
  - destruct (negb (is_Py_None timeout_obj)); [| apply acquire_wait_outcome].
    destruct (PyFloat_AsDouble timeout_obj) as [timeout |];
      [| unfold ret; intro H; inversion H; right; split; [discriminate | reflexivity]].
    unfold bind at 1, do_gettimeofday, syscall_fallible.
    destruct (gettimeofday (os m)) as [[now | e] w]; [apply acquire_wait_outcome |].
    run_monad. intro H. inversion H. right. split; [discriminate | reflexivity].
Qed.

End UnixOutcome.

Section WindowsOutcome.

Context {W : Type} {rt : PyRuntime W} {win : Win32 W}.

Lemma win_wait_loop_early :
  forall (fuel : nat) (h : SEM_HANDLE) (full_msecs start msecs : Z)
         (m m' : machine W) (early : PyResult),
    win_wait_loop fuel h full_msecs start msecs m = (Some (inl early), m') ->
    early = Py_False \/ early = PyNULL SignalError.
Proof.
  induction fuel as [| fuel IH]; intros h full_msecs start msecs m m' early.
  - simpl. unfold ret. intro H. inversion H.
  - cbn [win_wait_loop].
    unfold bind at 1, do_ResetEvent, syscall_total.
    destruct (ResetEvent (os m)) as [[] w0]. cbn [os errno trace].
    unfold bind at 1, do_WaitForMultipleObjects, syscall_total. cbn [os errno trace].
    destruct (WaitForMultipleObjects h msecs w0) as [res w1].
    destruct (negb (res =? WAIT_OBJECT_0 + 1));
      [unfold ret; intro H; inversion H |].
    unfold bind at 1, do_Sleep, syscall_total. cbn [os errno trace].
    destruct (Sleep 1 w1) as [[] w2].
    unfold bind at 1, win_PyErr_CheckSignals, syscall_total. cbn [os errno trace].
    destruct (PyErr_CheckSignals w2) as [sig w3].
    destruct (negb (sig =? 0));
      [unfold ret; intro H; inversion H; right; reflexivity |].
    destruct (negb (msecs =? INFINITE)); [| apply IH].
    unfold bind at 1, do_GetTickCount, syscall_total. cbn [os errno trace].
    destruct (GetTickCount w3) as [ticks w4].
    destruct (to_DWORD (ticks - start) >=? full_msecs);
      [unfold ret; intro H; inversion H; left; reflexivity | apply IH].
Qed.

Lemma win_acquire_outcome :
  forall (fuel : nat) (tid : Z) (self s : BilliardSemLockObject) (blocking : Z)
         (timeout_obj : PyObject) (m m' : machine W) (r : option PyResult),
    win_Billiard_semlock_acquire fuel tid self blocking timeout_obj m = (r, s, m') ->
    (r = Some Py_True
     /\ s = set_last_tid (set_count self (to_int (count self + 1))) tid)
    \/ (r <> Some Py_True /\ s = self).
Proof.
  intros fuel tid self s blocking timeout_obj m m' r.
  unfold win_Billiard_semlock_acquire.
  destruct (win_full_msecs blocking timeout_obj) as [exc | full_msecs];
    [unfold ret; intro H; inversion H; right; split; [discriminate | reflexivity] |].
  destruct ((kind self =? RECURSIVE_MUTEX) && ISMINE tid self) eqn:Hfast.
  - unfold ret. intro H. inversion H. left. split; [reflexivity |].
    apply andb_true_iff in Hfast. destruct Hfast as [_ Hmine].
    apply ISMINE_true_iff in Hmine. destruct Hmine as [_ Ht].
    unfold set_last_tid, set_count. simpl. rewrite Ht. reflexivity.
  - unfold bind at 1, do_WaitForSingleObject, syscall_total.
    destruct (WaitForSingleObject (handle self) 0 (os m)) as [r0 w].
    destruct (r0 =? WAIT_OBJECT_0);
      [unfold ret; intro H; inversion H; left; split; reflexivity |].
    unfold bind at 1, do_GetTickCount, syscall_total. cbn [os errno trace].
    destruct (GetTickCount w) as [start w1].
    unfold bind at 1.
    match goal with
    | |- context [win_wait_loop ?f ?h ?a ?b ?c ?m0] =>
      destruct (win_wait_loop f h a b c m0) as [[[early | res] |] m2] eqn:Hloop
    end.
    + unfold ret. intro H. inversion H. right. split; [| reflexivity].
      apply win_wait_loop_early in Hloop.
      destruct Hloop as [He | He]; rewrite He; discriminate.
    + destruct (res =? WAIT_TIMEOUT);
        [unfold ret; intro H; inversion H; right; split; [discriminate | reflexivity] |].
      destruct (res =? WAIT_OBJECT_0);
        [unfold ret; intro H; inversion H; left; split; reflexivity |].
      destruct (res =? WAIT_FAILED);
        unfold ret; intro H; inversion H; right; (split; [discriminate | reflexivity]).
    + unfold ret. intro H. inversion H. right. split; [discriminate | reflexivity].
Qed.

End WindowsOutcome.

(** X1.  An acquire that returns [True] leaves [count] one higher and the
    calling thread the owner ([_is_mine] holds for it), and changes no other
    field; an acquire that returns anything else ([False], an exception) or
    does not return leaves the instance exactly as it was.  On the POSIX and
    on the Windows branch, in any world.  ([count] is a C [int]: it is
    assumed to lie in [0, INT_MAX).) *)
Theorem acquire_owns_or_leaves :
  forall (hdr : MP_Header) (W : Type) (rt : PyRuntime W) (px : Posix W)
         (win : Win32 W) (fuel : nat) (tid : Z) (self : BilliardSemLockObject)
         (blocking : Z) (timeout_obj : PyObject) (m : machine W),
    0 <= count self < INT_MAX ->
    let after (out : option PyResult * BilliardSemLockObject * machine W) :=
      let r := fst (fst out) in
      let s := snd (fst out) in
      (r = Some Py_True ->
       count s = count self + 1
       /\ ISMINE tid s = true
       /\ handle s = handle self /\ kind s = kind self
       /\ maxvalue s = maxvalue self /\ name s = name self)
      /\ (r <> Some Py_True -> s = self) in
    after (Billiard_semlock_acquire fuel tid self blocking timeout_obj m)
    /\ after (win_Billiard_semlock_acquire fuel tid self blocking timeout_obj m).
Proof.
  intros hdr W rt px win fuel tid self blocking timeout_obj m Hc after.
  rewrite INT_MAX_eq in Hc.
  assert (Hgen : forall out : option PyResult * BilliardSemLockObject * machine W,
             (fst (fst out) = Some Py_True
              /\ snd (fst out)
                 = set_last_tid (set_count self (to_int (count self + 1))) tid)
             \/ (fst (fst out) <> Some Py_True /\ snd (fst out) = self) ->
             after out).
  { intros out [[Hr Hs] | [Hr Hs]]; unfold after; cbv zeta; split.
    - intros _. rewrite Hs. simpl. rewrite to_int_small by lia.
      repeat split; trivial. apply ISMINE_true_iff. simpl.
      split; [lia | reflexivity].
    - intro Hn. contradiction.
    - intro Hy. contradiction.
    - intros _. exact Hs. }
  split; apply Hgen.
  - destruct (Billiard_semlock_acquire fuel tid self blocking timeout_obj m)
      as [[r s] m'] eqn:Hrun.
    apply unix_acquire_outcome in Hrun. exact Hrun.
  - destruct (win_Billiard_semlock_acquire fuel tid self blocking timeout_obj m)
      as [[r s] m'] eqn:Hrun.
    apply win_acquire_outcome in Hrun. exact Hrun.
Qed.

Lemma acquire_owns_or_leaves_witness :
  let self := mkSemLock Ideal.the_handle 4 0 2 SEMAPHORE None in
  let m := Ideal.boot (Ideal.mkWorld 1 2 0 None) in
  0 <= count self < INT_MAX
  /\ (let out := Billiard_semlock_acquire 2 7 self 0 Py_None m in
      fst (fst out) = Some Py_True
      /\ count (snd (fst out)) = 1
      /\ ISMINE 7 (snd (fst out)) = true)
  /\ (let out := win_Billiard_semlock_acquire 2 7 self 0 Py_None
                                              (Ideal.boot (Ideal.mkWorld 0 2 0 None)) in
      fst (fst out) = Some Py_False /\ snd (fst out) = self).
Proof.
  intros self m.
  assert (Hc : 0 <= count self < INT_MAX) by (vm_compute; split; congruence).
  split; [exact Hc |]. split.
  - destruct (acquire_owns_or_leaves Ideal.header Ideal.world Ideal.runtime
                Ideal.posix Ideal.win32 2 7 self 0 Py_None m Hc) as [[Hu _] _].
    assert (Hr : fst (fst (Billiard_semlock_acquire 2 7 self 0 Py_None m))
                 = Some Py_True) by reflexivity.
    destruct (Hu Hr) as (H1 & H2 & _).
    split; [exact Hr |]. split; [exact H1 | exact H2].
  - destruct (acquire_owns_or_leaves Ideal.header Ideal.world Ideal.runtime
                Ideal.posix Ideal.win32 2 7 self 0 Py_None
                (Ideal.boot (Ideal.mkWorld 0 2 0 None)) Hc) as [_ [_ Hw]].
    assert (Hr : fst (fst (win_Billiard_semlock_acquire 2 7 self 0 Py_None
                             (Ideal.boot (Ideal.mkWorld 0 2 0 None))))
                 = Some Py_False) by reflexivity.
    split; [exact Hr |]. apply Hw. rewrite Hr. discriminate.
Defined.

(** ** The non-blocking acquire *)

Lemma Forall_snoc {A : Type} (P : A -> Prop) (l : list A) (a : A) :
  Forall P l -> P a -> Forall P (l ++ [a]).
Proof. intros Hl Ha. apply Forall_app. split; [exact Hl | constructor; [exact Ha | constructor]]. Qed.

Section UnixTry.

Context {hdr : MP_Header} {W : Type} {rt : PyRuntime W} {px : Posix W}.

(** The retry loop of a non-blocking call makes no call that suspends. *)
Lemma acquire_loop_nonblocking_no_suspend :
  forall (fuel inner : nat) (h : SEM_HANDLE) (t : PyObject) (d : timespec)
         (m : machine W),
    Forall (fun ev => suspends ev = false) (trace m) ->
    Forall (fun ev => suspends ev = false)
           (trace (snd (acquire_loop fuel inner h 0 t d m))).
Proof.
  induction fuel as [| fuel IH]; intros inner h t d m Hlog; [exact Hlog |].
  rewrite acquire_loop_nonblocking_step.
  destruct (sem_trywait h (os m)) as [[[] | e] w].
  - simpl. apply Forall_snoc; [exact Hlog | reflexivity].
  - cbv zeta.
    assert (Hlog1 : Forall (fun ev => suspends ev = false)
                           (trace m ++ [SYS_sem_trywait h]))
      by (apply Forall_snoc; [exact Hlog | reflexivity]).
    destruct (-1 =? MP_EXCEPTION_HAS_BEEN_SET); [exact Hlog1 |].
    destruct (errno_eqb e EINTR); [| exact Hlog1].
    destruct (PyErr_CheckSignals w) as [sig w'].
    assert (Hlog2 : Forall (fun ev => suspends ev = false)
                           ((trace m ++ [SYS_sem_trywait h]) ++ [SYS_PyErr_CheckSignals]))
      by (apply Forall_snoc; [exact Hlog1 | reflexivity]).
    destruct (sig =? 0); [apply IH; exact Hlog2 | exact Hlog2].
Qed.

Lemma acquire_finish_trace :
  forall (tid : Z) (self : BilliardSemLockObject) (res : Z) (m : machine W),
    snd (acquire_finish tid self res m) = m.
Proof.
  intros tid self res m. unfold acquire_finish.
  destruct (res <? 0); run_monad; [| reflexivity].
  destruct (errno_eqb (errno m) EAGAIN || errno_eqb (errno m) ETIMEDOUT);
    simpl; [reflexivity |].
  destruct (errno_eqb (errno m) EINTR); reflexivity.
Qed.

Lemma acquire_wait_machine :
  forall (fuel : nat) (tid : Z) (self : BilliardSemLockObject) (blocking : Z)
         (t : PyObject) (d : timespec) (m : machine W),
    snd (acquire_wait fuel tid self blocking t d m)
    = snd (acquire_loop fuel fuel (handle self) blocking t d m).
Proof.
  intros fuel tid self blocking t d m. unfold acquire_wait, bind.
  destruct (acquire_loop fuel fuel (handle self) blocking t d m) as [[res |] m1];
    [| reflexivity].
  pose proof (acquire_finish_trace tid self res m1) as Hf.
  destruct (acquire_finish tid self res m1) as [[r s] m2]. simpl in *. exact Hf.
Qed.

End UnixTry.

(** X2.  A non-blocking POSIX acquire never suspends the thread: whatever
    the timeout object, the fuel and the world, it makes no [sem_wait] and
    no sleep -- only [sem_trywait], at most one read of the clock, and
    checks for signals. *)
Theorem nonblocking_acquire_never_suspends :
  forall (hdr : MP_Header) (W : Type) (rt : PyRuntime W) (px : Posix W)
         (fuel : nat) (tid : Z) (self : BilliardSemLockObject)
         (timeout_obj : PyObject) (m : machine W),
    Forall (fun ev => suspends ev = false) (trace m) ->
    Forall (fun ev => suspends ev = false)
           (trace (snd (Billiard_semlock_acquire fuel tid self 0 timeout_obj m))).
Proof.
  intros hdr W rt px fuel tid self timeout_obj m Hlog.
  unfold Billiard_semlock_acquire.
  destruct ((kind self =? RECURSIVE_MUTEX) && ISMINE tid self); [exact Hlog |].
  destruct (negb (is_Py_None timeout_obj)).
  - destruct (PyFloat_AsDouble timeout_obj) as [timeout |]; [| exact Hlog].
    unfold bind at 1, do_gettimeofday, syscall_fallible.
    assert (Hlog1 : Forall (fun ev => suspends ev = false)
                           (trace m ++ [SYS_gettimeofday]))
      by (apply Forall_snoc; [exact Hlog | reflexivity]).
    destruct (gettimeofday (os m)) as [[now | e] w]; [| exact Hlog1].
    rewrite acquire_wait_machine.
    apply acquire_loop_nonblocking_no_suspend. exact Hlog1.
  - rewrite acquire_wait_machine.
    apply acquire_loop_nonblocking_no_suspend. exact Hlog.
Qed.

Lemma nonblocking_acquire_never_suspends_witness :
  let self := mkSemLock Ideal.the_handle 0 0 1 SEMAPHORE None in
  let m := Ideal.boot (Ideal.mkWorld 0 1 0 None) in
  Forall (fun ev => suspends ev = false) (trace m)
  /\ Forall (fun ev => suspends ev = false)
            (trace (snd (Billiard_semlock_acquire 3 7 self 0 (PyNumber (5 # 1)) m))).
Proof.
  intros self m.
  assert (H0 : Forall (fun ev => suspends ev = false) (trace m)) by constructor.
  split; [exact H0 |].
  exact (nonblocking_acquire_never_suspends Ideal.header Ideal.world Ideal.runtime
           Ideal.posix 3 7 self (PyNumber (5 # 1)) m H0).
Defined.

(** X3.  A non-blocking POSIX acquire without timeout, by a thread that
    is not on the fast path, makes exactly one [sem_trywait] (unless that is
    interrupted, [EINTR]) and its outcome decides the result: [True], with
    [count] incremented and the thread recorded, when it succeeds; [False]
    when it fails with [EAGAIN] (or [ETIMEDOUT]); [OSError] for any other
    error.  Nothing but the instance, [errno] and the one entry of the log
    changes. *)
Theorem nonblocking_acquire_is_one_trywait :
  forall (hdr : MP_Header) (W : Type) (rt : PyRuntime W) (px : Posix W)
         (fuel : nat) (tid : Z) (self : BilliardSemLockObject) (m : machine W),
    (kind self =? RECURSIVE_MUTEX) && ISMINE tid self = false ->
    fst (sem_trywait (handle self) (os m)) <> inr EINTR ->
    Billiard_semlock_acquire (S fuel) tid self 0 Py_None m
    = match sem_trywait (handle self) (os m) with
      | (inl _, w) =>
        (Some Py_True,
         set_last_tid (set_count self (to_int (count self + 1))) tid,
         mkMachine w (errno m) (trace m ++ [SYS_sem_trywait (handle self)]))
      | (inr e, w) =>
        (Some (if errno_eqb e EAGAIN || errno_eqb e ETIMEDOUT then Py_False
               else PyNULL (OSError e)),
         self,
         mkMachine w e (trace m ++ [SYS_sem_trywait (handle self)]))
      end.
Proof.
  intros hdr W rt px fuel tid self m Hslow Hintr.
  unfold Billiard_semlock_acquire. rewrite Hslow. cbn [is_Py_None negb].
  unfold acquire_wait. unfold bind at 1.
  rewrite acquire_loop_nonblocking_step.
  destruct (sem_trywait (handle self) (os m)) as [[[] | e] w].
  - unfold bind, ret, acquire_finish. simpl. reflexivity.
  - cbv zeta. cbn [fst] in Hintr.
    assert (He : errno_eqb e EINTR = false).
    { destruct e; try reflexivity. exfalso. apply Hintr. reflexivity. }
    rewrite He.
    assert (Hres : (if -1 =? MP_EXCEPTION_HAS_BEEN_SET
                    then (Some (-1), mkMachine w e (trace m ++ [SYS_sem_trywait (handle self)]))
                    else (Some (-1), mkMachine w e (trace m ++ [SYS_sem_trywait (handle self)])))
                   = (Some (-1), mkMachine w e (trace m ++ [SYS_sem_trywait (handle self)])))
      by (destruct (-1 =? MP_EXCEPTION_HAS_BEEN_SET); reflexivity).
    rewrite Hres. unfold bind, ret, acquire_finish, get_errno.
    destruct e; try reflexivity. discriminate He.
Qed.

Lemma nonblocking_acquire_is_one_trywait_witness :
  let self := mkSemLock Ideal.the_handle 0 0 1 SEMAPHORE None in
  let m := Ideal.boot (Ideal.mkWorld 0 1 0 None) in
  (kind self =? RECURSIVE_MUTEX) && ISMINE 7 self = false
  /\ fst (sem_trywait (handle self) (os m)) <> inr EINTR
  /\ Billiard_semlock_acquire 1 7 self 0 Py_None m
     = (Some Py_False, self,
        mkMachine (Ideal.mkWorld 0 1 0 None) EAGAIN [SYS_sem_trywait Ideal.the_handle]).
Proof.
  intros self m.
  assert (H1 : (kind self =? RECURSIVE_MUTEX) && ISMINE 7 self = false) by reflexivity.
  assert (H2 : fst (sem_trywait (handle self) (os m)) <> inr EINTR)
    by (simpl; discriminate).
  split; [exact H1 |]. split; [exact H2 |].
  exact (nonblocking_acquire_is_one_trywait Ideal.header Ideal.world Ideal.runtime
           Ideal.posix 0 7 self m H1 H2).
Defined.

(** ** The calls a method makes *)

Section UnixLog.

Context {hdr : MP_Header} {W : Type} {rt : PyRuntime W} {px : Posix W}.

Variable P : syscall -> Prop.

(** The log after a release, for a property that the three calls a release
    can make all have. *)
Lemma release_log :
  forall (tid : Z) (self : BilliardSemLockObject) (m : machine W),
    P (SYS_sem_trywait (handle self)) ->
    P (SYS_sem_post (handle self)) ->
    P (SYS_sem_getvalue (handle self)) ->
    Forall P (trace m) ->
    Forall P (trace (snd (Billiard_semlock_release tid self m))).
Proof.
  intros tid self m Htry Hpost Hget Hlog.
  assert (Hrp : forall m0 : machine W,
             Forall P (trace m0) -> Forall P (trace (snd (release_post self m0)))).
  { intros m0 H0. unfold release_post, do_sem_post. run_monad.
    destruct (sem_post (handle self) (os m0)) as [[[] | e] w]; simpl;
      apply Forall_snoc; assumption. }
  unfold Billiard_semlock_release.
  destruct (kind self =? RECURSIVE_MUTEX).
  - destruct (negb (ISMINE tid self)); [exact Hlog |].
    destruct (count self >? 1); [exact Hlog | apply Hrp; exact Hlog].
  - destruct HAVE_BROKEN_SEM_GETVALUE.
    + destruct (maxvalue self =? 1); [| apply Hrp; exact Hlog].
      unfold bind at 1, do_sem_trywait, syscall_fallible.
      assert (Hlog1 : Forall P (trace m ++ [SYS_sem_trywait (handle self)]))
        by (apply Forall_snoc; assumption).
      destruct (sem_trywait (handle self) (os m)) as [[[] | e] w].
      * unfold bind, do_sem_post, syscall_fallible. simpl.
        destruct (sem_post (handle self) w) as [[[] | e'] w']; simpl;
          apply Forall_snoc; assumption.
      * unfold bind at 1, get_errno. simpl.
        destruct (negb (errno_eqb e EAGAIN)); [exact Hlog1 |].
        apply Hrp. exact Hlog1.
    + unfold bind at 1, do_sem_getvalue, syscall_fallible.
      assert (Hlog1 : Forall P (trace m ++ [SYS_sem_getvalue (handle self)]))
        by (apply Forall_snoc; assumption).
      destruct (sem_getvalue (handle self) (os m)) as [[sval | e] w].
      * destruct (sval >=? maxvalue self); [exact Hlog1 |].
        apply Hrp. exact Hlog1.
      * exact Hlog1.
Qed.

(** The same for the timed wait and for acquire, whose calls are the two
    waits, the read of the clock, the sleep and the check for signals. *)
Hypothesis P_trywait : forall h, P (SYS_sem_trywait h).
Hypothesis P_wait : forall h, P (SYS_sem_wait h).
Hypothesis P_clock : P SYS_gettimeofday.
Hypothesis P_select : forall tv, P (SYS_select tv).
Hypothesis P_signals : P SYS_PyErr_CheckSignals.

Lemma timedwait_log :
  forall (fuel : nat) (h : SEM_HANDLE) (tvdeadline : timeval) (delay : Z)
         (m : machine W),
    Forall P (trace m) ->
    Forall P (trace (snd (timedwait_loop fuel h tvdeadline delay m))).
Proof.
  induction fuel as [| fuel IH]; intros h tvdeadline delay m Hlog; [exact Hlog |].
  cbn [timedwait_loop].
  unfold bind at 1. unfold do_sem_trywait, syscall_fallible.
  assert (Hlog1 : Forall P (trace m ++ [SYS_sem_trywait h]))
    by (apply Forall_snoc; [exact Hlog | apply P_trywait]).
  destruct (sem_trywait h (os m)) as [[[] | e] w]; [exact Hlog1 |].
  unfold bind at 1, get_errno. cbn [errno fst snd].
  destruct (negb (errno_eqb e EAGAIN)); [exact Hlog1 |].
  unfold bind at 1. unfold do_gettimeofday, syscall_fallible. cbn [os errno trace].
  assert (Hlog2 : Forall P ((trace m ++ [SYS_sem_trywait h]) ++ [SYS_gettimeofday]))
    by (apply Forall_snoc; [exact Hlog1 | exact P_clock]).
  destruct (gettimeofday w) as [[now | e'] w1]; [| exact Hlog2].
  destruct (deadline_passed tvdeadline now); [exact Hlog2 |].
  set (d := cap_delay delay (time_left tvdeadline now)).
  unfold bind at 1. unfold do_select, syscall_fallible. cbn [os errno trace].
  assert (Hlog3 : Forall P (((trace m ++ [SYS_sem_trywait h]) ++ [SYS_gettimeofday])
                            ++ [SYS_select (mkTimeval (d / 1000000) (d mod 1000000))]))
    by (apply Forall_snoc; [exact Hlog2 | apply P_select]).
  destruct (select (mkTimeval (d / 1000000) (d mod 1000000)) w1) as [[[] | e''] w2];
    [| exact Hlog3].
  unfold bind at 1. unfold do_PyErr_CheckSignals, syscall_total. cbn [os errno trace].
  destruct (PyErr_CheckSignals w2) as [sig w3].
  assert (Hlog4 : Forall P ((((trace m ++ [SYS_sem_trywait h]) ++ [SYS_gettimeofday])
                             ++ [SYS_select (mkTimeval (d / 1000000) (d mod 1000000))])
                            ++ [SYS_PyErr_CheckSignals]))
    by (apply Forall_snoc; [exact Hlog3 | exact P_signals]).
  destruct (negb (sig =? 0)); [exact Hlog4 |].
  apply IH. exact Hlog4.
Qed.

Lemma acquire_loop_log :
  forall (fuel inner : nat) (h : SEM_HANDLE) (blocking : Z) (t : PyObject)
         (d : timespec) (m : machine W),
    Forall P (trace m) ->
    Forall P (trace (snd (acquire_loop fuel inner h blocking t d m))).
Proof.
  induction fuel as [| fuel IH]; intros inner h blocking t d m Hlog; [exact Hlog |].
  cbn [acquire_loop]. unfold bind at 1.
  assert (Hbody : forall r m1,
    (if negb (blocking =? 0) && is_Py_None t
     then s <- do_sem_wait h ;; ret (Some (status s))
     else if blocking =? 0
          then s <- do_sem_trywait h ;; ret (Some (status s))
          else Billiard_sem_timedwait_save inner h d) m = (r, m1) ->
    Forall P (trace m1)).
  { intros r m1.
    destruct (negb (blocking =? 0) && is_Py_None t).
    - unfold bind, do_sem_wait, syscall_fallible, ret.
      destruct (sem_wait h (os m)) as [[[] | e] w]; intro H; inversion H; simpl;
        (apply Forall_snoc; [exact Hlog | apply P_wait]).
    - destruct (blocking =? 0).
      + unfold bind, do_sem_trywait, syscall_fallible, ret.
        destruct (sem_trywait h (os m)) as [[[] | e] w]; intro H; inversion H; simpl;
          (apply Forall_snoc; [exact Hlog | apply P_trywait]).
      + unfold Billiard_sem_timedwait_save, bind, set_errno. intro H.
        apply (f_equal snd) in H. simpl in H. rewrite <- H.
        apply timedwait_log. exact Hlog. }
  destruct ((if negb (blocking =? 0) && is_Py_None t
             then s <- do_sem_wait h ;; ret (Some (status s))
             else if blocking =? 0
                  then s <- do_sem_trywait h ;; ret (Some (status s))
                  else Billiard_sem_timedwait_save inner h d) m) as [r m1].
  pose proof (Hbody r m1 eq_refl) as Hb.
  destruct r as [res |]; [| exact Hb].
  destruct (res =? MP_EXCEPTION_HAS_BEEN_SET); [exact Hb |].
  destruct (res <? 0); [| exact Hb].
  unfold bind at 1, get_errno. cbn [fst snd].
  destruct (errno_eqb (errno m1) EINTR); [| exact Hb].
  unfold bind at 1, do_PyErr_CheckSignals, syscall_total.
  destruct (PyErr_CheckSignals (os m1)) as [sig w].
  assert (Hlog1 : Forall P (trace m1 ++ [SYS_PyErr_CheckSignals]))
    by (apply Forall_snoc; [exact Hb | exact P_signals]).
  destruct (sig =? 0); [apply IH; exact Hlog1 | exact Hlog1].
Qed.

Lemma acquire_log :
  forall (fuel : nat) (tid : Z) (self : BilliardSemLockObject) (blocking : Z)
         (t : PyObject) (m : machine W),
    Forall P (trace m) ->
    Forall P (trace (snd (Billiard_semlock_acquire fuel tid self blocking t m))).
Proof.
  intros fuel tid self blocking t m Hlog.
  unfold Billiard_semlock_acquire.
  destruct ((kind self =? RECURSIVE_MUTEX) && ISMINE tid self); [exact Hlog |].
  destruct (negb (is_Py_None t)).
  - destruct (PyFloat_AsDouble t) as [timeout |]; [| exact Hlog].
    unfold bind at 1, do_gettimeofday, syscall_fallible.
    assert (Hlog1 : Forall P (trace m ++ [SYS_gettimeofday]))
      by (apply Forall_snoc; [exact Hlog | exact P_clock]).
    destruct (gettimeofday (os m)) as [[now | e] w]; [| exact Hlog1].
    rewrite acquire_wait_machine. apply acquire_loop_log. exact Hlog1.
  - rewrite acquire_wait_machine. apply acquire_loop_log. exact Hlog.
Qed.

End UnixLog.

Section WindowsLog.

Context {W : Type} {rt : PyRuntime W} {win : Win32 W}.

Variable P : syscall -> Prop.

Hypothesis P_single : forall h ms, P (SYS_WaitForSingleObject h ms).
Hypothesis P_multiple : forall h ms, P (SYS_WaitForMultipleObjects h ms).
Hypothesis P_reset : P SYS_ResetEvent.
Hypothesis P_ticks : P SYS_GetTickCount.
Hypothesis P_sleep : forall ms, P (SYS_Sleep ms).
Hypothesis P_signals : P SYS_PyErr_CheckSignals.

Lemma win_wait_loop_log :
  forall (fuel : nat) (h : SEM_HANDLE) (full_msecs start msecs : Z) (m : machine W),
    Forall P (trace m) ->
    Forall P (trace (snd (win_wait_loop fuel h full_msecs start msecs m))).
Proof.
  induction fuel as [| fuel IH]; intros h full_msecs start msecs m Hlog; [exact Hlog |].
  cbn [win_wait_loop].
  unfold bind at 1, do_ResetEvent, syscall_total.
  destruct (ResetEvent (os m)) as [[] w0]. cbn [os errno trace].
  assert (Hlog1 : Forall P (trace m ++ [SYS_ResetEvent]))
    by (apply Forall_snoc; [exact Hlog | exact P_reset]).
  unfold bind at 1, do_WaitForMultipleObjects, syscall_total. cbn [os errno trace].
  destruct (WaitForMultipleObjects h msecs w0) as [res w1].
  assert (Hlog2 : Forall P ((trace m ++ [SYS_ResetEvent])
                            ++ [SYS_WaitForMultipleObjects h msecs]))
    by (apply Forall_snoc; [exact Hlog1 | apply P_multiple]).
  destruct (negb (res =? WAIT_OBJECT_0 + 1)); [exact Hlog2 |].
  unfold bind at 1, do_Sleep, syscall_total. cbn [os errno trace].
  destruct (Sleep 1 w1) as [[] w2].
  assert (Hlog3 : Forall P (((trace m ++ [SYS_ResetEvent])
                             ++ [SYS_WaitForMultipleObjects h msecs]) ++ [SYS_Sleep 1]))
    by (apply Forall_snoc; [exact Hlog2 | apply P_sleep]).
  unfold bind at 1, win_PyErr_CheckSignals, syscall_total. cbn [os errno trace].
  destruct (PyErr_CheckSignals w2) as [sig w3].
  assert (Hlog4 : Forall P ((((trace m ++ [SYS_ResetEvent])
                              ++ [SYS_WaitForMultipleObjects h msecs]) ++ [SYS_Sleep 1])
                            ++ [SYS_PyErr_CheckSignals]))
    by (apply Forall_snoc; [exact Hlog3 | exact P_signals]).
  destruct (negb (sig =? 0)); [exact Hlog4 |].
  destruct (negb (msecs =? INFINITE)); [| apply IH; exact Hlog4].
  unfold bind at 1, do_GetTickCount, syscall_total. cbn [os errno trace].
  destruct (GetTickCount w3) as [ticks w4].
  assert (Hlog5 : Forall P (((((trace m ++ [SYS_ResetEvent])
                               ++ [SYS_WaitForMultipleObjects h msecs]) ++ [SYS_Sleep 1])
                             ++ [SYS_PyErr_CheckSignals]) ++ [SYS_GetTickCount]))
    by (apply Forall_snoc; [exact Hlog4 | exact P_ticks]).
  destruct (to_DWORD (ticks - start) >=? full_msecs); [exact Hlog5 |].
  apply IH. exact Hlog5.
Qed.

Lemma win_acquire_log :
  forall (fuel : nat) (tid : Z) (self : BilliardSemLockObject) (blocking : Z)
         (t : PyObject) (m : machine W),
    Forall P (trace m) ->
    Forall P (trace (snd (win_Billiard_semlock_acquire fuel tid self blocking t m))).
Proof.
  intros fuel tid self blocking t m Hlog.
  unfold win_Billiard_semlock_acquire.
  destruct (win_full_msecs blocking t) as [exc | full_msecs]; [exact Hlog |].
  destruct ((kind self =? RECURSIVE_MUTEX) && ISMINE tid self); [exact Hlog |].
  unfold bind at 1, do_WaitForSingleObject, syscall_total.
  destruct (WaitForSingleObject (handle self) 0 (os m)) as [r0 w].
  assert (Hlog1 : Forall P (trace m ++ [SYS_WaitForSingleObject (handle self) 0]))
    by (apply Forall_snoc; [exact Hlog | apply P_single]).
  destruct (r0 =? WAIT_OBJECT_0); [exact Hlog1 |].
  unfold bind at 1, do_GetTickCount, syscall_total. cbn [os errno trace].
  destruct (GetTickCount w) as [start w1].
  assert (Hlog2 : Forall P ((trace m ++ [SYS_WaitForSingleObject (handle self) 0])
                            ++ [SYS_GetTickCount]))
    by (apply Forall_snoc; [exact Hlog1 | exact P_ticks]).
  unfold bind at 1.
  match goal with
  | |- context [win_wait_loop ?f ?h ?a ?b ?c ?m0] =>
    pose proof (win_wait_loop_log f h a b c m0 Hlog2) as Hloop;
    destruct (win_wait_loop f h a b c m0) as [[[early | res] |] m2]
  end; cbn [snd] in Hloop; try exact Hloop.
  destruct (res =? WAIT_TIMEOUT); [exact Hloop |].
  destruct (res =? WAIT_OBJECT_0); [exact Hloop |].
  destruct (res =? WAIT_FAILED); exact Hloop.
Qed.

Lemma win_release_log :
  forall (tid : Z) (self : BilliardSemLockObject) (m : machine W),
    P (SYS_ReleaseSemaphore (handle self)) ->
    Forall P (trace m) ->
    Forall P (trace (snd (win_Billiard_semlock_release tid self m))).
Proof.
  intros tid self m Hrel Hlog.
  assert (Hpost :
    Forall P (trace (snd ((p <- do_ReleaseSemaphore (handle self) ;;
                           match p with
                           | inr err =>
                             if err =? ERROR_TOO_MANY_POSTS
                             then ret (PyNULL ValueError, self)
                             else ret (PyNULL WindowsError, self)
                           | inl _ =>
                             ret (Py_RETURN_NONE,
                                  set_count self (to_int (count self - 1)))
                           end) m)))).
  { unfold bind, do_ReleaseSemaphore, syscall_total.
    destruct (ReleaseSemaphore (handle self) (os m)) as [[prev | err] w]; simpl.
    - apply Forall_snoc; assumption.
    - destruct (err =? ERROR_TOO_MANY_POSTS); simpl; apply Forall_snoc; assumption. }
  unfold win_Billiard_semlock_release.
  destruct (kind self =? RECURSIVE_MUTEX); [| exact Hpost].
  destruct (negb (ISMINE tid self)); [exact Hlog |].
  destruct (count self >? 1); [exact Hlog | exact Hpost].
Qed.

End WindowsLog.

(** X4.  An acquire never raises the semaphore and never reads its value:
    whatever its arguments, the fuel and the world, it makes no [sem_post]
    and no [sem_getvalue] on POSIX, and no [ReleaseSemaphore] on Windows. *)
Theorem acquire_never_posts :
  forall (hdr : MP_Header) (W : Type) (rt : PyRuntime W) (px : Posix W)
         (win : Win32 W) (fuel : nat) (tid : Z) (self : BilliardSemLockObject)
         (blocking : Z) (timeout_obj : PyObject) (m : machine W),
    Forall (fun ev => posts_or_reads ev = false) (trace m) ->
    Forall (fun ev => posts_or_reads ev = false)
           (trace (snd (Billiard_semlock_acquire fuel tid self blocking timeout_obj m)))
    /\ Forall (fun ev => posts_or_reads ev = false)
              (trace (snd (win_Billiard_semlock_acquire fuel tid self blocking
                                                        timeout_obj m))).
Proof.
  intros hdr W rt px win fuel tid self blocking timeout_obj m Hlog. split.
  - apply acquire_log; trivial.
  - apply win_acquire_log; trivial.
Qed.

Lemma acquire_never_posts_witness :
  let self := mkSemLock Ideal.the_handle 0 0 1 SEMAPHORE None in
  let m := Ideal.boot (Ideal.mkWorld 0 1 0 None) in
  Forall (fun ev => posts_or_reads ev = false) (trace m)
  /\ Forall (fun ev => posts_or_reads ev = false)
            (trace (snd (Billiard_semlock_acquire 9 7 self 1 (PyNumber (1 # 500)) m)))
  /\ Forall (fun ev => posts_or_reads ev = false)
            (trace (snd (win_Billiard_semlock_acquire 9 7 self 1 (PyNumber (1 # 500)) m))).
Proof.
  intros self m.
  assert (H0 : Forall (fun ev => posts_or_reads ev = false) (trace m)) by constructor.
  split; [exact H0 |].
  exact (acquire_never_posts Ideal.header Ideal.world Ideal.runtime Ideal.posix
           Ideal.win32 9 7 self 1 (PyNumber (1 # 500)) m H0).
Defined.

(** X5.  A release never suspends the thread: on POSIX its calls are
    among [sem_trywait], [sem_getvalue] and [sem_post], on Windows it calls
    [ReleaseSemaphore] at most; it makes no blocking wait and no sleep. *)
Theorem release_never_suspends :
  forall (W : Type) (px : Posix W) (win : Win32 W) (tid : Z)
         (self : BilliardSemLockObject) (m : machine W),
    Forall (fun ev => suspends ev = false) (trace m) ->
    Forall (fun ev => suspends ev = false)
           (trace (snd (Billiard_semlock_release tid self m)))
    /\ Forall (fun ev => suspends ev = false)
              (trace (snd (win_Billiard_semlock_release tid self m))).
Proof.
  intros W px win tid self m Hlog. split.
  - apply release_log; trivial.
  - apply win_release_log; trivial.
Qed.

Lemma release_never_suspends_witness :
  let self := mkSemLock Ideal.the_handle 0 0 1 SEMAPHORE None in
  let m := Ideal.boot (Ideal.mkWorld 0 1 0 None) in
  Forall (fun ev => suspends ev = false) (trace m)
  /\ Forall (fun ev => suspends ev = false)
            (trace (snd (Billiard_semlock_release 7 self m)))
  /\ Forall (fun ev => suspends ev = false)
            (trace (snd (win_Billiard_semlock_release 7 self m))).
Proof.
  intros self m.
  assert (H0 : Forall (fun ev => suspends ev = false) (trace m)) by constructor.
  split; [exact H0 |].
  exact (release_never_suspends Ideal.world Ideal.posix Ideal.win32 7 self m H0).
Defined.

(** ** What a release does to the instance *)

Lemma unix_release_outcome :
  forall (W : Type) (px : Posix W) (tid : Z) (self s : BilliardSemLockObject)
         (m m' : machine W) (r : PyResult),
    Billiard_semlock_release tid self m = (r, s, m') ->
    (r = Py_RETURN_NONE /\ s = set_count self (to_int (count self - 1)))
    \/ ((exists exc, r = PyNULL exc) /\ s = self).
Proof.
  intros W px tid self s m m' r.
  assert (Hrp : forall m0 : machine W,
             release_post self m0 = (r, s, m') ->
             (r = Py_RETURN_NONE /\ s = set_count self (to_int (count self - 1)))
             \/ ((exists exc, r = PyNULL exc) /\ s = self)).
  { intro m0. unfold release_post, do_sem_post. run_monad.
    destruct (sem_post (handle self) (os m0)) as [[[] | e] w]; simpl;
      intro H; inversion H; [left; split; reflexivity |].
    right. split; [eexists; reflexivity | reflexivity]. }
  unfold Billiard_semlock_release.
  destruct (kind self =? RECURSIVE_MUTEX).
  - destruct (negb (ISMINE tid self)).
    + unfold ret. intro H. inversion H. right. split; [eexists; reflexivity | reflexivity].
    + destruct (count self >? 1); [| apply Hrp].
      unfold ret. intro H. inversion H. left. split; reflexivity.
  - destruct HAVE_BROKEN_SEM_GETVALUE.
    + destruct (maxvalue self =? 1); [| apply Hrp].
      unfold bind at 1, do_sem_trywait, syscall_fallible.
      destruct (sem_trywait (handle self) (os m)) as [[[] | e] w].
      * unfold bind, do_sem_post, syscall_fallible. simpl.
        destruct (sem_post (handle self) w) as [[[] | e'] w']; simpl;
          unfold ret; intro H; inversion H; right;
          (split; [eexists; reflexivity | reflexivity]).
      * unfold bind at 1, get_errno. simpl.
        destruct (negb (errno_eqb e EAGAIN)); [| apply Hrp].
        unfold ret. intro H. inversion H. right.
        split; [eexists; reflexivity | reflexivity].
    + unfold bind at 1, do_sem_getvalue, syscall_fallible.
      destruct (sem_getvalue (handle self) (os m)) as [[sval | e] w].
      * destruct (sval >=? maxvalue self); [| apply Hrp].
        unfold ret. intro H. inversion H. right.
        split; [eexists; reflexivity | reflexivity].
      * run_monad. intro H. inversion H. right.
        split; [eexists; reflexivity | reflexivity].
Qed.

Lemma win_release_outcome :
  forall (W : Type) (win : Win32 W) (tid : Z) (self s : BilliardSemLockObject)
         (m m' : machine W) (r : PyResult),
    win_Billiard_semlock_release tid self m = (r, s, m') ->
    (r = Py_RETURN_NONE /\ s = set_count self (to_int (count self - 1)))
    \/ ((exists exc, r = PyNULL exc) /\ s = self).
Proof.
  intros W win tid self s m m' r.
  assert (Hpost :
    (p <- do_ReleaseSemaphore (handle self) ;;
     match p with
     | inr err =>
       if err =? ERROR_TOO_MANY_POSTS then ret (PyNULL ValueError, self)
       else ret (PyNULL WindowsError, self)
     | inl _ => ret (Py_RETURN_NONE, set_count self (to_int (count self - 1)))
     end) m = (r, s, m') ->
    (r = Py_RETURN_NONE /\ s = set_count self (to_int (count self - 1)))
    \/ ((exists exc, r = PyNULL exc) /\ s = self)).
  { unfold bind, do_ReleaseSemaphore, syscall_total.
    destruct (ReleaseSemaphore (handle self) (os m)) as [[prev | err] w]; simpl.
    - unfold ret. intro H. inversion H. left. split; reflexivity.
    - destruct (err =? ERROR_TOO_MANY_POSTS); unfold ret; intro H; inversion H;
        right; (split; [eexists; reflexivity | reflexivity]). }
  unfold win_Billiard_semlock_release.
  destruct (kind self =? RECURSIVE_MUTEX); [| exact Hpost].
  destruct (negb (ISMINE tid self)).
  - unfold ret. intro H. inversion H. right. split; [eexists; reflexivity | reflexivity].
  - destruct (count self >? 1); [| exact Hpost].
    unfold ret. intro H. inversion H. left. split; reflexivity.
Qed.

(** X6.  A release either returns [None], and then [count] is one lower and
    every other field -- the thread recorded last included -- is as before;
    or it raises, and then the instance is exactly as it was.  It returns
    nothing else.  On the POSIX and on the Windows branch, for either kind,
    in any world.  ([count] is a C [int]: it is assumed above [INT_MIN].) *)
Theorem release_decrements_or_leaves :
  forall (W : Type) (px : Posix W) (win : Win32 W) (tid : Z)
         (self : BilliardSemLockObject) (m : machine W),
    - 2 ^ 31 < count self <= INT_MAX ->
    let after (out : PyResult * BilliardSemLockObject * machine W) :=
      let r := fst (fst out) in
      let s := snd (fst out) in
      (r = Py_RETURN_NONE
       /\ count s = count self - 1
       /\ last_tid s = last_tid self /\ handle s = handle self
       /\ kind s = kind self /\ maxvalue s = maxvalue self /\ name s = name self)
      \/ ((exists exc, r = PyNULL exc) /\ s = self) in
    after (Billiard_semlock_release tid self m)
    /\ after (win_Billiard_semlock_release tid self m).
Proof.
  intros W px win tid self m Hc after. rewrite INT_MAX_eq in Hc.
  assert (Hgen : forall out : PyResult * BilliardSemLockObject * machine W,
             (fst (fst out) = Py_RETURN_NONE
              /\ snd (fst out) = set_count self (to_int (count self - 1)))
             \/ ((exists exc, fst (fst out) = PyNULL exc) /\ snd (fst out) = self) ->
             after out).
  { intros out [[Hr Hs] | [Hr Hs]]; unfold after; cbv zeta; [left | right].
    - split; [exact Hr |]. rewrite Hs. simpl. rewrite to_int_small by lia.
      repeat split.
    - split; assumption. }
  split; apply Hgen.
  - destruct (Billiard_semlock_release tid self m) as [[r s] m'] eqn:Hrun.
    apply unix_release_outcome in Hrun. exact Hrun.
  - destruct (win_Billiard_semlock_release tid self m) as [[r s] m'] eqn:Hrun.
    apply win_release_outcome in Hrun. exact Hrun.
Qed.

Lemma release_decrements_or_leaves_witness :
  let self := mkSemLock Ideal.the_handle 7 2 1 RECURSIVE_MUTEX None in
  let m := Ideal.boot (Ideal.mkWorld 0 1 0 None) in
  - 2 ^ 31 < count self <= INT_MAX
  /\ (count (snd (fst (Billiard_semlock_release 7 self m))) = count self - 1
      \/ snd (fst (Billiard_semlock_release 7 self m)) = self)
  /\ (count (snd (fst (win_Billiard_semlock_release 8 self m))) = count self - 1
      \/ snd (fst (win_Billiard_semlock_release 8 self m)) = self).
Proof.
  intros self m.
  assert (Hc : - 2 ^ 31 < count self <= INT_MAX) by (vm_compute; split; congruence).
  split; [exact Hc |]. split.
  - destruct (release_decrements_or_leaves Ideal.world Ideal.posix Ideal.win32 7 self m Hc)
      as [[(_ & Hd & _) | [_ Hs]] _]; [left; exact Hd | right; exact Hs].
  - destruct (release_decrements_or_leaves Ideal.world Ideal.posix Ideal.win32 8 self m Hc)
      as [_ [(_ & Hd & _) | [_ Hs]]]; [left; exact Hd | right; exact Hs].
Defined.

(** ** The timeout of the Windows acquire *)

Lemma Qtrunc_nonneg (q : Q) : Qle 0 q -> Qtrunc q = Qfloor q.
Proof.
  intro H. unfold Qtrunc. apply Qle_bool_iff in H. rewrite H. reflexivity.
Qed.

Lemma Qfloor_bounds (q : Q) (lo hi : Z) :
  Qle (inject_Z lo) q -> Qlt q (inject_Z hi) -> lo <= Qfloor q < hi.
Proof.
  intros Hlo Hhi. split.
  - rewrite <- (Qfloor_Z lo). apply Qfloor_resp_le. exact Hlo.
  - rewrite Zlt_Qlt. eapply Qle_lt_trans; [apply Qfloor_le | exact Hhi].
Qed.

(** A double below [0.5 * INFINITE] is at least one unit in the last place
    below it. *)
Lemma double_below_threshold (d : Q) :
  is_double d -> Qlt d (4294967295 # 2) ->
  Qle d (Qminus (4294967295 # 2) (1 # 4194304)).
Proof.
  intros Hd Hlt.
  destruct (double_multiple d (-22) Hd) as [[n Hn] | [Hsmall _]].
  - change (pow2 (-22)) with (1 # 4194304)%Q in Hn.
    assert (Hn' : n < 9007199252643840).
    { rewrite Zlt_Qlt. change (inject_Z 9007199252643840) with (9007199252643840 # 1)%Q.
      lra. }
    assert (Hn'' : Qle (inject_Z n) (inject_Z 9007199252643839))
      by (rewrite <- Zle_Qle; lia).
    change (inject_Z 9007199252643839) with (9007199252643839 # 1)%Q in Hn''.
    lra.
  - change (pow2 (-22 + 52)) with (1073741824 # 1)%Q in Hsmall. lra.
Qed.

(** The conversion of a number to [full_msecs]. *)
Lemma win_full_msecs_number :
  forall (blocking : Z) (timeout : Q),
    blocking <> 0 ->
    let msecs := Qmult timeout (1000 # 1) in
    match win_full_msecs blocking (PyNumber timeout) with
    | inl exc =>
      exc = OverflowError
      /\ Qle (Qminus (Qmult (1 # 2) (inject_Z INFINITE)) (1 # 8388608)) msecs
    | inr full_msecs =>
      Qlt msecs (Qmult (1 # 2) (inject_Z INFINITE))
      /\ 0 <= full_msecs < 2 ^ 31
      /\ full_msecs <> INFINITE
      /\ (Qle msecs 0 -> full_msecs = 0)
      /\ (Qle 0 msecs ->
          Qle (Qminus (inject_Z full_msecs) msecs) (Qplus (1 # 2) (1 # 4194304))
          /\ Qlt (Qminus msecs (inject_Z full_msecs)) (Qplus (1 # 2) (1 # 4194304)))
    end.
Proof.
  intros blocking timeout Hb msecs.
  unfold win_full_msecs.
  replace (blocking =? 0) with false by (symmetry; apply Z.eqb_neq; exact Hb).
  cbn [is_Py_None PyFloat_AsDouble]. fold msecs.
  change (Qmult (1 # 2) (inject_Z INFINITE)) with (4294967295 # 2)%Q.
  set (tm := to_double msecs).
  assert (Hthr : is_double (4294967295 # 2)).
  { exists 4294967295, (-1). split; [vm_compute; discriminate |].
    split; [lia | reflexivity]. }
  assert (Hnear : Qle 0 msecs -> Qlt msecs (2147483648 # 1) ->
                  Qle (Qminus tm msecs) (1 # 8388608)
                  /\ Qle (Qminus msecs tm) (1 # 8388608)).
  { intros H0 H1. apply (to_double_near_below msecs 31 H0); [| lia].
    change (pow2 31) with (2147483648 # 1)%Q. exact H1. }
  unfold Qlt_bool, Qge_bool.
  destruct (Qle_bool 0 tm) eqn:Hpos; cbn [negb].
  - apply Qle_bool_iff in Hpos.
    destruct (Qle_bool (4294967295 # 2) tm) eqn:Hbig.
    + apply Qle_bool_iff in Hbig. split; [reflexivity |].
      destruct (Qlt_le_dec msecs (2147483648 # 1)) as [Hlt | Hge]; [| lra].
      destruct (Qlt_le_dec msecs 0) as [Hneg | Hnn].
      * pose proof (to_double_nonpos msecs ltac:(lra)). fold tm in H. lra.
      * destruct (Hnear Hnn Hlt) as [Ha _]. lra.
    + assert (Hsmall : Qlt tm (4294967295 # 2)).
      { apply Qnot_le_lt. intro H. apply Qle_bool_iff in H. congruence. }
      assert (Hm : Qlt msecs (4294967295 # 2)).
      { apply Qnot_le_lt. intro H.
        pose proof (to_double_ge msecs _ Hthr H). fold tm in H0. lra. }
      pose proof (double_below_threshold tm (to_double_is_double msecs) Hsmall) as Hgrid.
      set (z := Qplus tm (1 # 2)).
      assert (Hz1 : is_double (9007199254740991 # 4194304)).
      { exists 9007199254740991, (-22). split; [vm_compute; discriminate |].
        split; [lia | reflexivity]. }
      assert (Hzhi : Qle (to_double z) (9007199254740991 # 4194304)).
      { apply to_double_le; [exact Hz1 | unfold z; lra]. }
      assert (Hzlo : Qle (1 # 2) (to_double z)).
      { apply to_double_ge; [| unfold z; lra].
        exists 1, (-1). split; [vm_compute; discriminate |].
        split; [lia | reflexivity]. }
      assert (Hb31 : 0 <= Qfloor (to_double z) < 2 ^ 31).
      { apply Qfloor_bounds.
        - change (inject_Z 0) with 0%Q. lra.
        - change (inject_Z (2 ^ 31)) with (2147483648 # 1)%Q. lra. }
      rewrite Qtrunc_nonneg by lra.
      unfold to_DWORD. rewrite Z.mod_small by lia.
      pose proof (Qfloor_le (to_double z)) as Hfl.
      pose proof (Qlt_floor (to_double z)) as Hfu.
      rewrite inject_Z_plus in Hfu. change (inject_Z 1) with 1%Q in Hfu.
      split; [exact Hm |]. split; [exact Hb31 |].
      split; [unfold INFINITE; lia |]. split.
      * intro Hle0.
        pose proof (to_double_nonpos msecs Hle0) as Htm0. fold tm in Htm0.
        assert (Hz2 : Qle (to_double z) (1 # 2)).
        { apply to_double_le; [| unfold z; lra].
          exists 1, (-1). split; [vm_compute; discriminate |].
          split; [lia | reflexivity]. }
        assert (0 <= Qfloor (to_double z) < 1); [| lia].
        apply Qfloor_bounds.
        -- change (inject_Z 0) with 0%Q. lra.
        -- change (inject_Z 1) with 1%Q. lra.
      * intro Hge0.
        destruct (Hnear Hge0 ltac:(lra)) as [Ha Hb'].
        assert (Hzn : Qle (Qminus (to_double z) z) (1 # 8388608)
                      /\ Qle (Qminus z (to_double z)) (1 # 8388608)).
        { apply (to_double_near_below z 31); [unfold z; lra | | lia].
          change (pow2 31) with (2147483648 # 1)%Q. unfold z. lra. }
        destruct Hzn as [Hc Hd]. unfold z in *. split; lra.
  - assert (Hneg : Qlt tm 0).
    { apply Qnot_le_lt. intro H. apply Qle_bool_iff in H. congruence. }
    assert (Hm : Qlt msecs 0).
    { apply Qnot_le_lt. intro H. pose proof (to_double_nonneg msecs H). fold tm in H0. lra. }
    split; [lra |].
    change (to_DWORD (Qtrunc (to_double (Qplus 0 (1 # 2))))) with 0.
    split; [lia |]. split; [discriminate |]. split; [reflexivity |].
    intro H. exfalso. lra.
Qed.

(** X7.  The timeout of a blocking Windows acquire, in seconds, is
    multiplied by 1000 in double arithmetic and the product compared with
    [0.5 * INFINITE] milliseconds (about 24.8 days): the call raises
    [OverflowError] only when the timeout in milliseconds is that much or
    falls short of it by no more than the rounding of the product
    ([2^-23] ms), and it does raise whenever the timeout in milliseconds is
    that much or more.  A timeout that is accepted becomes a whole number
    of milliseconds in [0, 2^31): it has not wrapped around in the [DWORD]
    and is never [INFINITE], so a finite timeout cannot turn into an
    unbounded wait.  That number is 0 for a timeout of zero or less, and
    otherwise the timeout in milliseconds rounded to the nearest integer, up
    to the rounding of the two double operations: it differs from the exact
    product by at most [0.5 + 2^-22]. *)
Theorem win_timeout_is_rounded :
  forall (blocking : Z) (timeout : Q),
    blocking <> 0 ->
    let msecs := Qmult timeout (1000 # 1) in
    let threshold := Qmult (1 # 2) (inject_Z INFINITE) in
    (Qle threshold msecs ->
     win_full_msecs blocking (PyNumber timeout) = inl OverflowError)
    /\ match win_full_msecs blocking (PyNumber timeout) with
       | inl exc =>
         exc = OverflowError /\ Qle (Qminus threshold (1 # 8388608)) msecs
       | inr full_msecs =>
         Qlt msecs threshold
         /\ 0 <= full_msecs < 2 ^ 31
         /\ full_msecs <> INFINITE
         /\ (Qle msecs 0 -> full_msecs = 0)
         /\ (Qle 0 msecs ->
             Qle (Qminus (inject_Z full_msecs) msecs) (Qplus (1 # 2) (1 # 4194304))
             /\ Qlt (Qminus msecs (inject_Z full_msecs)) (Qplus (1 # 2) (1 # 4194304)))
       end.
Proof.
  intros blocking timeout Hb msecs threshold.
  pose proof (win_full_msecs_number blocking timeout Hb) as Hn. cbv zeta in Hn.
  fold msecs in Hn. fold threshold in Hn.
  split; [| exact Hn].
  intro Hbig.
  destruct (win_full_msecs blocking (PyNumber timeout)) as [exc | full_msecs].
  - destruct Hn as [He _]. rewrite He. reflexivity.
  - destruct Hn as [Hlt _]. exfalso. unfold threshold in *. lra.
Qed.

Lemma win_timeout_is_rounded_witness :
  1 <> 0
  /\ win_full_msecs 1 (PyNumber (3 # 2000)) = inr 2
  /\ win_full_msecs 1 (PyNumber (21474836475 # 10000)) = inl OverflowError
  /\ match win_full_msecs 1 (PyNumber (3 # 2000)) with
     | inl exc => False
     | inr full_msecs => 0 <= full_msecs < 2 ^ 31 /\ full_msecs <> INFINITE
     end.
Proof.
  assert (H1 : 1 <> 0) by discriminate.
  split; [exact H1 |]. split; [vm_compute; reflexivity |].
  split; [vm_compute; reflexivity |].
  destruct (win_timeout_is_rounded 1 (3 # 2000) H1) as [_ Ha].
  cbv zeta in Ha.
  destruct (win_full_msecs 1 (PyNumber (3 # 2000))) as [exc | full_msecs].
  - destruct Ha as [_ Hbig]. vm_compute in Hbig. apply Hbig. reflexivity.
  - destruct Ha as (_ & Hr & Hi & _). split; assumption.
Defined.

Lemma multiple_waits_app (tr1 tr2 : list syscall) :
  multiple_waits (tr1 ++ tr2) = multiple_waits tr1 ++ multiple_waits tr2.
Proof.
  induction tr1 as [| ev tr1 IH]; simpl; [reflexivity |].
  destruct ev; simpl; rewrite ?IH; reflexivity.
Qed.

Lemma multiple_waits_snoc_other (Q : Z -> Prop) (tr : list syscall) (ev : syscall) :
  multiple_waits [ev] = [] ->
  Forall Q (multiple_waits tr) -> Forall Q (multiple_waits (tr ++ [ev])).
Proof.
  intros Hev H. rewrite multiple_waits_app, Hev, app_nil_r. exact H.
Qed.

Section WindowsRemaining.

Context {W : Type} {rt : PyRuntime W} {win : Win32 W}.

(** The waits of the loop never last longer than [full_msecs]. *)
Lemma win_wait_loop_waits :
  forall (fuel : nat) (h : SEM_HANDLE) (full_msecs start msecs : Z) (m : machine W),
    0 <= full_msecs < 2 ^ 32 ->
    0 <= msecs <= full_msecs ->
    Forall (fun ms => 0 <= ms <= full_msecs) (multiple_waits (trace m)) ->
    Forall (fun ms => 0 <= ms <= full_msecs)
           (multiple_waits (trace (snd (win_wait_loop fuel h full_msecs start msecs m)))).
Proof.
  induction fuel as [| fuel IH]; intros h full_msecs start msecs m Hfull Hms Hlog;
    [exact Hlog |].
  cbn [win_wait_loop].
  unfold bind at 1, do_ResetEvent, syscall_total.
  destruct (ResetEvent (os m)) as [[] w0]. cbn [os errno trace].
  assert (Hlog1 : Forall (fun ms => 0 <= ms <= full_msecs)
                         (multiple_waits (trace m ++ [SYS_ResetEvent])))
    by (apply multiple_waits_snoc_other; [reflexivity | exact Hlog]).
  unfold bind at 1, do_WaitForMultipleObjects, syscall_total. cbn [os errno trace].
  destruct (WaitForMultipleObjects h msecs w0) as [res w1].
  assert (Hlog2 : Forall (fun ms => 0 <= ms <= full_msecs)
                         (multiple_waits ((trace m ++ [SYS_ResetEvent])
                                          ++ [SYS_WaitForMultipleObjects h msecs]))).
  { rewrite multiple_waits_app. apply Forall_app. split; [exact Hlog1 |].
    simpl. constructor; [exact Hms | constructor]. }
  destruct (negb (res =? WAIT_OBJECT_0 + 1)); [exact Hlog2 |].
  unfold bind at 1, do_Sleep, syscall_total. cbn [os errno trace].
  destruct (Sleep 1 w1) as [[] w2].
  unfold bind at 1, win_PyErr_CheckSignals, syscall_total. cbn [os errno trace].
  destruct (PyErr_CheckSignals w2) as [sig w3].
  assert (Hlog4 : Forall (fun ms => 0 <= ms <= full_msecs)
                         (multiple_waits
                            ((((trace m ++ [SYS_ResetEvent])
                               ++ [SYS_WaitForMultipleObjects h msecs]) ++ [SYS_Sleep 1])
                             ++ [SYS_PyErr_CheckSignals]))).
  { apply multiple_waits_snoc_other; [reflexivity |].
    apply multiple_waits_snoc_other; [reflexivity | exact Hlog2]. }
  destruct (negb (sig =? 0)); [exact Hlog4 |].
  destruct (negb (msecs =? INFINITE)); [| apply IH; assumption].
  unfold bind at 1, do_GetTickCount, syscall_total. cbn [os errno trace].
  destruct (GetTickCount w3) as [ticks w4].
  assert (Hlog5 : Forall (fun ms => 0 <= ms <= full_msecs)
                         (multiple_waits
                            (((((trace m ++ [SYS_ResetEvent])
                                ++ [SYS_WaitForMultipleObjects h msecs]) ++ [SYS_Sleep 1])
                              ++ [SYS_PyErr_CheckSignals]) ++ [SYS_GetTickCount])))
    by (apply multiple_waits_snoc_other; [reflexivity | exact Hlog4]).
  destruct (Z.geb_spec (to_DWORD (ticks - start)) full_msecs) as [Hge | Hlt];
    [exact Hlog5 |].
  apply IH; [exact Hfull | | exact Hlog5].
  assert (Hel : 0 <= to_DWORD (ticks - start))
    by (unfold to_DWORD; apply Z.mod_pos_bound; reflexivity).
  set (elapsed := to_DWORD (ticks - start)) in *.
  unfold to_DWORD. rewrite Z.mod_small by lia. lia.
Qed.

End WindowsRemaining.

(** X8.  The waits of a Windows acquire never last longer than the timeout
    asked for: with [full_msecs] the timeout converted to milliseconds (0
    for a non-blocking call, [INFINITE] without timeout), every
    [WaitForMultipleObjects] of the call has a timeout between 0 and
    [full_msecs].  The time left is recomputed from the tick counter in
    [DWORD] arithmetic, so this holds whatever the counter returns, also
    when it wraps around. *)
Theorem win_waits_within_timeout :
  forall (W : Type) (rt : PyRuntime W) (win : Win32 W) (fuel : nat) (tid : Z)
         (self : BilliardSemLockObject) (blocking : Z) (timeout_obj : PyObject)
         (m : machine W) (full_msecs : Z),
    win_full_msecs blocking timeout_obj = inr full_msecs ->
    multiple_waits (trace m) = [] ->
    Forall (fun ms => 0 <= ms <= full_msecs)
           (multiple_waits
              (trace (snd (win_Billiard_semlock_acquire fuel tid self blocking
                                                        timeout_obj m)))).
Proof.
  intros W rt win fuel tid self blocking timeout_obj m full_msecs Hfull Hlog0.
  assert (Hrange : 0 <= full_msecs < 2 ^ 32).
  { unfold win_full_msecs in Hfull.
    destruct (Z.eqb_spec blocking 0) as [Hb | Hb]; [inversion Hfull; lia |].
    destruct timeout_obj as [| timeout |]; cbn [is_Py_None PyFloat_AsDouble] in Hfull.
    - inversion Hfull. unfold INFINITE. lia.
    - pose proof (win_full_msecs_number blocking timeout Hb) as Hn. cbv zeta in Hn.
      unfold win_full_msecs in Hn.
      replace (blocking =? 0) with false in Hn by (symmetry; apply Z.eqb_neq; exact Hb).
      cbn [is_Py_None PyFloat_AsDouble] in Hn. rewrite Hfull in Hn.
      destruct Hn as (_ & Hr & _). lia.
    - discriminate Hfull. }
  assert (Hlog : Forall (fun ms => 0 <= ms <= full_msecs) (multiple_waits (trace m)))
    by (rewrite Hlog0; constructor).
  unfold win_Billiard_semlock_acquire. rewrite Hfull.
  destruct ((kind self =? RECURSIVE_MUTEX) && ISMINE tid self); [exact Hlog |].
  unfold bind at 1, do_WaitForSingleObject, syscall_total.
  destruct (WaitForSingleObject (handle self) 0 (os m)) as [r0 w].
  assert (Hlog1 : Forall (fun ms => 0 <= ms <= full_msecs)
                         (multiple_waits (trace m ++ [SYS_WaitForSingleObject (handle self) 0])))
    by (apply multiple_waits_snoc_other; [reflexivity | exact Hlog]).
  destruct (r0 =? WAIT_OBJECT_0); [exact Hlog1 |].
  unfold bind at 1, do_GetTickCount, syscall_total. cbn [os errno trace].
  destruct (GetTickCount w) as [start w1].
  assert (Hlog2 : Forall (fun ms => 0 <= ms <= full_msecs)
                         (multiple_waits ((trace m ++ [SYS_WaitForSingleObject (handle self) 0])
                                          ++ [SYS_GetTickCount])))
    by (apply multiple_waits_snoc_other; [reflexivity | exact Hlog1]).
  unfold bind at 1.
  match goal with
  | |- context [win_wait_loop ?f ?h ?a ?b ?c ?m0] =>
    pose proof (win_wait_loop_waits f h a b c m0 Hrange ltac:(lia) Hlog2) as Hloop;
    destruct (win_wait_loop f h a b c m0) as [[[early | res] |] m2]
  end; cbn [snd] in Hloop; try exact Hloop.
  destruct (res =? WAIT_TIMEOUT); [exact Hloop |].
  destruct (res =? WAIT_OBJECT_0); [exact Hloop |].
  destruct (res =? WAIT_FAILED); exact Hloop.
Qed.

Lemma win_waits_within_timeout_witness :
  let self := mkSemLock Ideal.the_handle 0 0 1 SEMAPHORE None in
  let m := Ideal.boot (Ideal.mkWorld 0 1 0 (Some 0)) in
  win_full_msecs 1 (PyNumber (1 # 100)) = inr 10
  /\ multiple_waits (trace m) = []
  /\ Forall (fun ms => 0 <= ms <= 10)
            (multiple_waits
               (trace (snd (win_Billiard_semlock_acquire 5 7 self 1
                                                         (PyNumber (1 # 100)) m)))).
Proof.
  intros self m.
  assert (H1 : win_full_msecs 1 (PyNumber (1 # 100)) = inr 10) by reflexivity.
  assert (H2 : multiple_waits (trace m) = []) by reflexivity.
  split; [exact H1 |]. split; [exact H2 |].
  exact (win_waits_within_timeout Ideal.world Ideal.runtime Ideal.win32 5 7 self 1
           (PyNumber (1 # 100)) m 10 H1 H2).
Defined.

(** A double whose thousandfold is below one half is at most the largest
    double below [1/2000]. *)
Lemma double_below_half_millisecond (t : Q) :
  is_double t -> Qlt (Qmult t (1000 # 1)) (1 # 2) ->
  Qle (Qmult t (1000 # 1)) (4611686018427387000 # 9223372036854775808).
Proof.
  intros Ht Hlt.
  destruct (double_multiple t (-63) Ht) as [[n Hn] | [Hsmall _]].
  - change (pow2 (-63)) with (1 # 9223372036854775808)%Q in Hn.
    assert (Hn' : n < 4611686018427387904).
    { rewrite Zlt_Qlt.
      change (inject_Z 4611686018427387904) with (4611686018427387904 # 1)%Q.
      lra. }
    assert (Hn'' : n <= 4611686018427387).
    { destruct (Z_le_gt_dec n 4611686018427387) as [H | H]; [exact H | exfalso].
      assert (Hq : Qle (inject_Z 4611686018427388) (inject_Z n))
        by (rewrite <- Zle_Qle; lia).
      change (inject_Z 4611686018427388) with (4611686018427388 # 1)%Q in Hq.
      lra. }
    rewrite Zle_Qle in Hn''.
    change (inject_Z 4611686018427387) with (4611686018427387 # 1)%Q in Hn''.
    lra.
  - change (pow2 (-63 + 52)) with (1 # 2048)%Q in Hsmall. lra.
Qed.

(** A double timeout below half a millisecond is converted to 0. *)
Lemma win_full_msecs_zero :
  forall (blocking : Z) (timeout : Q),
    is_double timeout ->
    Qlt (Qmult timeout (1000 # 1)) (1 # 2) ->
    win_full_msecs blocking (PyNumber timeout) = inr 0.
Proof.
  intros blocking timeout Hdouble Hsmall.
  destruct (Z.eqb_spec blocking 0) as [Hb | Hb];
    [unfold win_full_msecs; rewrite Hb; reflexivity |].
  pose proof (double_below_half_millisecond timeout Hdouble Hsmall) as Hgrid.
  unfold win_full_msecs.
  replace (blocking =? 0) with false by (symmetry; apply Z.eqb_neq; exact Hb).
  cbn [is_Py_None PyFloat_AsDouble].
  set (msecs := Qmult timeout (1000 # 1)) in *.
  set (tm := to_double msecs).
  unfold Qlt_bool, Qge_bool.
  destruct (Qle_bool 0 tm) eqn:Hpos; cbn [negb]; [| reflexivity].
  apply Qle_bool_iff in Hpos.
  assert (Htm : Qle tm (Qplus (4611686018427387000 # 9223372036854775808)
                              (1 # 36028797018963968))).
  { destruct (Qlt_le_dec msecs 0) as [Hneg | Hnn].
    - pose proof (to_double_nonpos msecs ltac:(lra)) as H. fold tm in H. lra.
    - destruct (to_double_near_below msecs (-1) Hnn) as [Ha _]; [| lia |].
      + change (pow2 (-1)) with (1 # 2)%Q. exact Hsmall.
      + change (pow2 (-1 - 54)) with (1 # 36028797018963968)%Q in Ha.
        fold tm in Ha. lra. }
  replace (Qle_bool (Qmult (1 # 2) (inject_Z INFINITE)) tm) with false.
  2:{ symmetry. apply not_true_is_false. intro H. apply Qle_bool_iff in H.
      change (Qmult (1 # 2) (inject_Z INFINITE)) with (4294967295 # 2)%Q in H. lra. }
  set (z := Qplus tm (1 # 2)).
  assert (Hz0 : Qle 0 z) by (unfold z; lra).
  destruct (to_double_near_below z 0 Hz0) as [Ha _]; [| lia |].
  - change (pow2 0) with 1%Q. unfold z. lra.
  - change (pow2 (0 - 54)) with (1 # 18014398509481984)%Q in Ha.
    pose proof (to_double_nonneg z Hz0) as Hnn.
    rewrite Qtrunc_nonneg by exact Hnn.
    assert (0 <= Qfloor (to_double z) < 1);
      [| replace (Qfloor (to_double z)) with 0 by lia; reflexivity].
    apply Qfloor_bounds.
    + change (inject_Z 0) with 0%Q. exact Hnn.
    + change (inject_Z 1) with 1%Q. unfold z in *. lra.
Qed.

(** X9.  On Windows a timeout (a double) that is negative, zero, or below
    half a millisecond makes a blocking acquire behave as a non-blocking
    one: the two calls give the same result, the same instance and the same
    world, with the same calls made.  (The largest double below 0.0005
    seconds still gives a product below [0.5 - 2^-54], so the sum with 0.5
    is not rounded up to 1.) *)
Theorem win_zero_timeout_is_nonblocking :
  forall (W : Type) (rt : PyRuntime W) (win : Win32 W) (fuel : nat) (tid : Z)
         (self : BilliardSemLockObject) (blocking : Z) (timeout : Q)
         (any : PyObject) (m : machine W),
    is_double timeout ->
    Qlt (Qmult timeout (1000 # 1)) (1 # 2) ->
    win_Billiard_semlock_acquire fuel tid self blocking (PyNumber timeout) m
    = win_Billiard_semlock_acquire fuel tid self 0 any m.
Proof.
  intros W rt win fuel tid self blocking timeout any m Hdouble Hsmall.
  unfold win_Billiard_semlock_acquire.
  rewrite (win_full_msecs_zero blocking timeout Hdouble Hsmall).
  unfold win_full_msecs. reflexivity.
Qed.

Lemma win_zero_timeout_is_nonblocking_witness :
  let self := mkSemLock Ideal.the_handle 0 0 1 SEMAPHORE None in
  let m := Ideal.boot (Ideal.mkWorld 0 1 0 None) in
  is_double (1 # 4096)
  /\ Qlt (Qmult (1 # 4096) (1000 # 1)) (1 # 2)
  /\ win_Billiard_semlock_acquire 4 7 self 1 (PyNumber (1 # 4096)) m
     = win_Billiard_semlock_acquire 4 7 self 0 Py_None m.
Proof.
  intros self m.
  assert (Hd : is_double (1 # 4096)).
  { exists 1, (-12). split; [vm_compute; discriminate |].
    split; [lia | reflexivity]. }
  assert (H : Qlt (Qmult (1 # 4096) (1000 # 1)) (1 # 2)) by reflexivity.
  split; [exact Hd |]. split; [exact H |].
  exact (win_zero_timeout_is_nonblocking Ideal.world Ideal.runtime Ideal.win32 4 7
           self 1 (1 # 4096) Py_None m Hd H).
Defined.

(** ** The deadline of the POSIX acquire *)

Lemma to_long_small (z : Z) : - 2 ^ 63 <= z < 2 ^ 63 -> to_long z = z.
Proof.
  intro H. unfold to_long, wrap_signed.
  change (2 ^ (64 - 1)) with (2 ^ 63).
  rewrite Z.mod_small; [lia |].
  change (2 ^ 64) with (2 * 2 ^ 63). lia.
Qed.

Lemma double_to_long_nonneg (q : Q) (hi : Z) :
  Qle 0 q -> Qlt q (inject_Z hi) -> hi <= 2 ^ 63 ->
  double_to_long q = Qfloor q /\ 0 <= Qfloor q < hi.
Proof.
  intros Hlo Hhi Hbound.
  assert (Hf : 0 <= Qfloor q < hi) by (apply Qfloor_bounds; assumption).
  split; [| exact Hf].
  unfold double_to_long. rewrite Qtrunc_nonneg by exact Hlo.
  unfold LONG_MIN, LONG_MAX.
  replace ((- 2 ^ 63 <=? Qfloor q) && (Qfloor q <=? 2 ^ 63 - 1)) with true; [reflexivity |].
  symmetry. apply andb_true_iff. split; apply Z.leb_le; lia.
Qed.

(** The nanoseconds of the timeout beyond its whole seconds, as the three
    rounded operations of the source yield them: the exact number rounded
    to the nearest integer, up to the rounding of the operations. *)
Lemma fraction_nanoseconds (timeout : Q) :
  Qle 0 timeout -> Qlt timeout (inject_Z (2 ^ 52)) ->
  let sec := Qfloor timeout in
  let exact := Qmult (1000000000 # 1) (Qminus timeout (inject_Z sec)) in
  let x := to_double
             (Qplus (to_double
                       (Qmult (1000000000 # 1)
                              (to_double (Qminus timeout (to_double (inject_Z sec))))))
                    (1 # 2)) in
  Qle 0 x
  /\ Qlt x (inject_Z 1000000001)
  /\ Qle (Qminus (inject_Z (Qfloor x)) exact) (Qplus (1 # 2) (1 # 1000000))
  /\ Qlt (Qminus exact (inject_Z (Qfloor x))) (Qplus (1 # 2) (1 # 1000000)).
Proof.
  intros Hpos Hbig sec exact x.
  pose proof (Qfloor_le timeout) as Hle. pose proof (Qlt_floor timeout) as Hlt.
  fold sec in Hle, Hlt. rewrite inject_Z_plus in Hlt.
  change (inject_Z 1) with 1%Q in Hlt.
  assert (Hsec : 0 <= sec < 2 ^ 52) by (apply Qfloor_bounds; assumption).
  assert (Hs : Qeq (to_double (inject_Z sec)) (inject_Z sec)).
  { apply to_double_exact. apply is_double_Z. lia. }
  set (f := to_double (Qminus timeout (to_double (inject_Z sec)))) in *.
  assert (Hf : Qle (Qminus f (Qminus timeout (inject_Z sec))) (1 # 18014398509481984)
               /\ Qle (Qminus (Qminus timeout (inject_Z sec)) f) (1 # 18014398509481984)).
  { destruct (to_double_near_below (Qminus timeout (to_double (inject_Z sec))) 0)
      as [Ha Hb]; [lra | change (pow2 0) with 1%Q; lra | lia |].
    change (pow2 (0 - 54)) with (1 # 18014398509481984)%Q in Ha, Hb.
    fold f in Ha, Hb. split; lra. }
  assert (Hf0 : Qle 0 f) by (apply to_double_nonneg; lra).
  destruct Hf as [Hf1 Hf2].
  set (y := to_double (Qmult (1000000000 # 1) f)) in *.
  assert (Hy : Qle (Qminus y (Qmult (1000000000 # 1) f)) (1 # 16777216)
               /\ Qle (Qminus (Qmult (1000000000 # 1) f) y) (1 # 16777216)).
  { destruct (to_double_near_below (Qmult (1000000000 # 1) f) 30) as [Ha Hb];
      [lra | change (pow2 30) with (1073741824 # 1)%Q; lra | lia |].
    change (pow2 (30 - 54)) with (1 # 16777216)%Q in Ha, Hb.
    fold y in Ha, Hb. split; lra. }
  assert (Hy0 : Qle 0 y) by (apply to_double_nonneg; lra).
  destruct Hy as [Hy1 Hy2].
  assert (Hx : Qle (Qminus x (Qplus y (1 # 2))) (1 # 16777216)
               /\ Qle (Qminus (Qplus y (1 # 2)) x) (1 # 16777216)).
  { destruct (to_double_near_below (Qplus y (1 # 2)) 30) as [Ha Hb];
      [lra | change (pow2 30) with (1073741824 # 1)%Q; lra | lia |].
    change (pow2 (30 - 54)) with (1 # 16777216)%Q in Ha, Hb.
    fold x in Ha, Hb. split; lra. }
  assert (Hx0 : Qle 0 x) by (apply to_double_nonneg; lra).
  destruct Hx as [Hx1 Hx2].
  pose proof (Qfloor_le x) as Hfl. pose proof (Qlt_floor x) as Hfu.
  rewrite inject_Z_plus in Hfu. change (inject_Z 1) with 1%Q in Hfu.
  change (inject_Z 1000000001) with (1000000001 # 1)%Q.
  unfold exact.
  split; [exact Hx0 |]. split; [lra |]. split; lra.
Qed.

(** The deadline is the time read plus the timeout, to the nanosecond and
    up to the rounding of the double operations, with its nanoseconds
    normalised. *)
Lemma compute_deadline_near :
  forall (now : timeval) (timeout : Q),
    0 <= tv_sec now < 2 ^ 62 ->
    0 <= tv_usec now < 1000000 ->
    Qle 0 timeout ->
    Qlt timeout (inject_Z (2 ^ 52)) ->
    let deadline := compute_deadline now timeout in
    let added := ts_sec deadline * 1000000000 + ts_nsec deadline
                 - (tv_sec now * 1000000000 + tv_usec now * 1000) in
    let exact := Qmult (1000000000 # 1) timeout in
    0 <= ts_nsec deadline < 1000000000
    /\ Qle (Qminus (inject_Z added) exact) (Qplus (1 # 2) (1 # 1000000))
    /\ Qlt (Qminus exact (inject_Z added)) (Qplus (1 # 2) (1 # 1000000)).
Proof.
  intros now timeout Hsec Husec Hpos Hbig deadline added exact.
  assert (Hbig' : Qlt timeout (inject_Z (2 ^ 62))).
  { eapply Qlt_le_trans; [exact Hbig |]. rewrite <- Zle_Qle. lia. }
  destruct (double_to_long_nonneg timeout (2 ^ 52) Hpos Hbig ltac:(lia)) as [Hs Hsr].
  destruct (fraction_nanoseconds timeout Hpos Hbig) as (Hx0 & Hx1 & Hxa & Hxb).
  cbv zeta in *.
  set (x := to_double
              (Qplus (to_double
                        (Qmult (1000000000 # 1)
                               (to_double (Qminus timeout
                                                  (to_double (inject_Z (Qfloor timeout)))))))
                     (1 # 2))) in *.
  destruct (double_to_long_nonneg x 1000000001 Hx0 Hx1 ltac:(lia)) as [Hn Hnr].
  assert (Hval : compute_deadline now timeout
                 = let dn := tv_usec now * 1000 + Qfloor x in
                   mkTimespec (tv_sec now + Qfloor timeout + dn / 1000000000)
                              (dn mod 1000000000)).
  { unfold compute_deadline. rewrite Hs. fold x. rewrite Hn.
    set (sec := Qfloor timeout) in *. set (nsec := Qfloor x) in *.
    rewrite (to_long_small (tv_sec now + sec)) by lia.
    rewrite (to_long_small (tv_usec now * 1000)) by lia.
    rewrite (to_long_small (tv_usec now * 1000 + nsec)) by lia.
    cbv zeta. set (dn := tv_usec now * 1000 + nsec).
    assert (Hdn : 0 <= dn < 2000000001) by (unfold dn; lia).
    rewrite Z.quot_div_nonneg by lia. rewrite Z.rem_mod_nonneg by lia.
    assert (Hq : 0 <= dn / 1000000000 <= 2).
    { split; [apply Z.div_pos; lia |].
      assert (dn / 1000000000 < 3); [apply Z.div_lt_upper_bound; lia | lia]. }
    rewrite to_long_small by lia. reflexivity. }
  unfold added, deadline. rewrite Hval. cbv zeta. cbn [ts_sec ts_nsec].
  set (sec := Qfloor timeout) in *. set (nsec := Qfloor x) in *.
  set (dn := tv_usec now * 1000 + nsec).
  pose proof (Z.div_mod dn 1000000000 ltac:(lia)) as Hdm.
  pose proof (Z.mod_pos_bound dn 1000000000 ltac:(lia)) as Hmod.
  split; [exact Hmod |].
  replace ((tv_sec now + sec + dn / 1000000000) * 1000000000 + dn mod 1000000000
           - (tv_sec now * 1000000000 + tv_usec now * 1000))
    with (1000000000 * sec + nsec) by (unfold dn in *; lia).
  rewrite inject_Z_plus, inject_Z_mult.
  change (inject_Z 1000000000) with (1000000000 # 1)%Q.
  unfold exact. split; lra.
Qed.

(** X10.  The deadline of a timed POSIX acquire is the time read plus the
    timeout, a negative timeout counting as zero, rounded to a whole number
    of nanoseconds: the nearest one, up to the rounding of the three double
    operations that compute it -- the nanoseconds added differ from the
    exact product of the timeout and [10^9] by at most half a nanosecond
    and a millionth.  Its [tv_nsec] is normalised to [0, 10^9).  (For a
    clock below [2^62] seconds and a timeout below [2^52] seconds, where
    nothing overflows.) *)
Theorem deadline_is_now_plus_timeout :
  forall (now : timeval) (timeout : Q),
    0 <= tv_sec now < 2 ^ 62 ->
    0 <= tv_usec now < 1000000 ->
    Qlt timeout (inject_Z (2 ^ 52)) ->
    let clamped := if Qlt_bool timeout 0 then 0%Q else timeout in
    let deadline := compute_deadline now clamped in
    let added := ts_sec deadline * 1000000000 + ts_nsec deadline
                 - (tv_sec now * 1000000000 + tv_usec now * 1000) in
    let exact := Qmult (1000000000 # 1) clamped in
    0 <= ts_nsec deadline < 1000000000
    /\ Qle (Qminus (inject_Z added) exact) (Qplus (1 # 2) (1 # 1000000))
    /\ Qlt (Qminus exact (inject_Z added)) (Qplus (1 # 2) (1 # 1000000)).
Proof.
  intros now timeout Hsec Husec Hbig clamped deadline.
  apply compute_deadline_near; trivial; unfold clamped, Qlt_bool.
  - destruct (Qle_bool 0 timeout) eqn:Hpos; cbn [negb].
    + apply Qle_bool_iff. exact Hpos.
    + apply Qle_refl.
  - destruct (Qle_bool 0 timeout); cbn [negb]; [exact Hbig | reflexivity].
Qed.

Lemma deadline_is_now_plus_timeout_witness :
  let now := mkTimeval 1700000000 999999 in
  let deadline := compute_deadline now (5 # 2) in
  0 <= tv_sec now < 2 ^ 62
  /\ 0 <= tv_usec now < 1000000
  /\ Qlt (5 # 2) (inject_Z (2 ^ 52))
  /\ deadline = mkTimespec 1700000003 499999000
  /\ compute_deadline (mkTimeval 0 0) (562949953139837 # 562949953421312)
     = mkTimespec 1 0
  /\ 0 <= ts_nsec deadline < 1000000000.
Proof.
  intros now deadline.
  assert (H1 : 0 <= tv_sec now < 2 ^ 62) by (vm_compute; split; congruence).
  assert (H2 : 0 <= tv_usec now < 1000000) by (vm_compute; split; congruence).
  assert (H3 : Qlt (5 # 2) (inject_Z (2 ^ 52))) by reflexivity.
  split; [exact H1 |]. split; [exact H2 |]. split; [exact H3 |].
  split; [vm_compute; reflexivity |]. split; [vm_compute; reflexivity |].
  exact (proj1 (deadline_is_now_plus_timeout now (5 # 2) H1 H2 H3)).
Defined.

(** With a timeout of zero or less the deadline is the time read. *)
Lemma zero_deadline :
  forall (now : timeval) (timeout : Q),
    0 <= tv_sec now < 2 ^ 62 ->
    0 <= tv_usec now < 1000000 ->
    Qle timeout 0 ->
    compute_deadline now (if Qlt_bool timeout 0 then 0%Q else timeout)
    = mkTimespec (tv_sec now) (tv_usec now * 1000).
Proof.
  intros now timeout Hsec Husec Hneg.
  set (clamped := if Qlt_bool timeout 0 then 0%Q else timeout).
  assert (Hc : Qle 0 clamped /\ Qle clamped 0).
  { unfold clamped, Qlt_bool.
    destruct (Qle_bool 0 timeout) eqn:Hpos; cbn [negb].
    - apply Qle_bool_iff in Hpos. split; assumption.
    - split; apply Qle_refl. }
  destruct Hc as [Hc0 Hc1].
  assert (Hbig : Qlt clamped (inject_Z (2 ^ 52))).
  { eapply Qle_lt_trans; [exact Hc1 | reflexivity]. }
  destruct (compute_deadline_near now clamped Hsec Husec Hc0 Hbig) as (Hn & Ha & Hb).
  cbv zeta in Ha, Hb.
  destruct (compute_deadline now clamped) as [s n]. cbn [ts_sec ts_nsec] in *.
  set (added := s * 1000000000 + n - (tv_sec now * 1000000000 + tv_usec now * 1000)) in *.
  assert (Hadded : -1 < added < 1).
  { split; rewrite Zlt_Qlt.
    - change (inject_Z (-1)) with (-1 # 1)%Q. lra.
    - change (inject_Z 1) with 1%Q. lra. }
  f_equal; unfold added in Hadded; lia.
Qed.

(** X11.  In the concrete world a blocking POSIX acquire with a timeout of
    zero or less, by a thread that is not on the recursive fast path (it
    does not own the recursive mutex, or the lock is a semaphore), behaves
    as a non-blocking one: it returns [True] when a unit is available and
    [False] otherwise, as the non-blocking call does, leaves the world as
    that call leaves it, and never sleeps.  (The clock does not advance
    between its two reads, so the deadline, which is the first read, has
    passed at the second; the clock is assumed to stand below [2^62]
    seconds, where the deadline does not overflow.) *)
Theorem unix_zero_timeout_is_nonblocking :
  forall (fuel : nat) (tid : Z) (self : BilliardSemLockObject) (timeout : Q)
         (w : Ideal.world),
    (kind self =? RECURSIVE_MUTEX) && ISMINE tid self = false ->
    Qle timeout 0 ->
    0 <= Ideal.clock w < 2 ^ 62 * 1000000 ->
    let timed := Billiard_semlock_acquire (S fuel) tid self 1 (PyNumber timeout)
                                          (Ideal.boot w) in
    let polled := Billiard_semlock_acquire (S fuel) tid self 0 Py_None (Ideal.boot w) in
    fst timed = fst polled
    /\ os (snd timed) = os (snd polled)
    /\ select_delays (trace (snd timed)) = []
    /\ fst (fst timed) = Some (if 0 <? Ideal.sem_value w then Py_True else Py_False).
Proof.
  intros fuel tid self timeout w Hslow Hneg Hclock timed polled.
  set (now := mkTimeval (Ideal.clock w / 1000000) (Ideal.clock w mod 1000000)).
  assert (Hsec : 0 <= tv_sec now < 2 ^ 62).
  { simpl. split; [apply Z.div_pos; lia | apply Z.div_lt_upper_bound; lia]. }
  assert (Husec : 0 <= tv_usec now < 1000000).
  { simpl. apply Z.mod_pos_bound. reflexivity. }
  pose proof (zero_deadline now timeout Hsec Husec Hneg) as Hdl.
  assert (Htimed : timed
    = if 0 <? Ideal.sem_value w
      then (Some Py_True,
            set_last_tid (set_count self (to_int (count self + 1))) tid,
            mkMachine (Ideal.with_value w (Ideal.sem_value w - 1)) ENOERR
                      [SYS_gettimeofday; SYS_sem_trywait (handle self)])
      else (Some Py_False, self,
            mkMachine w ETIMEDOUT
                      [SYS_gettimeofday; SYS_sem_trywait (handle self); SYS_gettimeofday])).
  { unfold timed, Billiard_semlock_acquire. rewrite Hslow.
    cbn [is_Py_None negb PyFloat_AsDouble].
    unfold bind at 1. unfold do_gettimeofday, syscall_fallible.
    cbn [Ideal.boot os errno trace gettimeofday Ideal.posix Ideal.posix_with app].
    fold now. rewrite Hdl.
    unfold acquire_wait. unfold bind at 1. cbn [acquire_loop].
    change (1 =? 0) with false. cbn [negb andb is_Py_None].
    unfold bind at 1. unfold Billiard_sem_timedwait_save.
    unfold bind at 1, set_errno. cbn [os errno trace ts_sec ts_nsec].
    rewrite Z.quot_div_nonneg by lia. rewrite Z.div_mul by lia.
    destruct (Z.ltb_spec 0 (Ideal.sem_value w)) as [Hav | Htaken].
    - cbn [timedwait_loop]. unfold bind at 1. unfold do_sem_trywait, syscall_fallible.
      cbn [os errno trace sem_trywait Ideal.posix Ideal.posix_with].
      unfold Ideal.try_down.
      replace (0 <? Ideal.sem_value w) with true by (symmetry; apply Z.ltb_lt; lia).
      reflexivity.
    - rewrite ideal_timedwait_step by lia. cbv zeta.
      rewrite (ideal_deadline_passed (Ideal.clock w) (tv_sec now) (tv_usec now) Husec).
      replace (tv_sec now * 1000000 + tv_usec now <=? Ideal.clock w) with true.
      + reflexivity.
      + symmetry. apply Z.leb_le. simpl.
        pose proof (Z.div_mod (Ideal.clock w) 1000000 ltac:(lia)). lia. }
  assert (Htry : polled
    = if 0 <? Ideal.sem_value w
      then (Some Py_True,
            set_last_tid (set_count self (to_int (count self + 1))) tid,
            mkMachine (Ideal.with_value w (Ideal.sem_value w - 1)) ENOERR
                      [SYS_sem_trywait (handle self)])
      else (Some Py_False, self,
            mkMachine w EAGAIN [SYS_sem_trywait (handle self)])).
  { unfold polled, Billiard_semlock_acquire. rewrite Hslow. cbn [is_Py_None negb].
    unfold acquire_wait. unfold bind at 1.
    rewrite acquire_loop_nonblocking_step.
    cbn [Ideal.boot os errno trace sem_trywait Ideal.posix Ideal.posix_with].
    unfold Ideal.try_down.
    destruct (0 <? Ideal.sem_value w); reflexivity. }
  rewrite Htimed, Htry.
  destruct (0 <? Ideal.sem_value w); repeat split; reflexivity.
Qed.

Lemma unix_zero_timeout_is_nonblocking_witness :
  let self := mkSemLock Ideal.the_handle 0 0 1 SEMAPHORE None in
  let w := Ideal.mkWorld 0 1 1700000000123456 None in
  (kind self =? RECURSIVE_MUTEX) && ISMINE 7 self = false
  /\ Qle (- 1 # 3) 0
  /\ 0 <= Ideal.clock w < 2 ^ 62 * 1000000
  /\ fst (Billiard_semlock_acquire 1 7 self 1 (PyNumber (- 1 # 3)) (Ideal.boot w))
     = fst (Billiard_semlock_acquire 1 7 self 0 Py_None (Ideal.boot w))
  /\ fst (fst (Billiard_semlock_acquire 1 7 self 1 (PyNumber (- 1 # 3)) (Ideal.boot w)))
     = Some Py_False.
Proof.
  intros self w.
  assert (H1 : (kind self =? RECURSIVE_MUTEX) && ISMINE 7 self = false) by reflexivity.
  assert (H2 : Qle (- 1 # 3) 0) by discriminate.
  assert (H3 : 0 <= Ideal.clock w < 2 ^ 62 * 1000000) by (vm_compute; split; congruence).
  split; [exact H1 |]. split; [exact H2 |]. split; [exact H3 |].
  destruct (unix_zero_timeout_is_nonblocking 0 7 self (- 1 # 3) w H1 H2 H3)
    as (Hsame & _ & _ & Hres).
  split; [exact Hsame | exact Hres].
Defined.

(** ** Units of the semaphore in the concrete world *)

(** What a POSIX call on the semaphore does to its value in the concrete
    world: the timed wait takes one unit exactly when it returns 0. *)
Lemma ideal_timedwait_units :
  forall (broken : bool) (fuel : nat) (h : SEM_HANDLE) (tvdeadline : timeval) (delay : Z)
         (m m' : machine Ideal.world) (r : option Z),
    timedwait_loop (px := Ideal.posix_with broken) fuel h tvdeadline delay m = (r, m') ->
    (r = Some 0 /\ 0 < Ideal.sem_value (os m)
     /\ Ideal.sem_value (os m') = Ideal.sem_value (os m) - 1)
    \/ ((r = None \/ r = Some (-1) \/ r = Some (-1006))
        /\ Ideal.sem_value (os m') = Ideal.sem_value (os m)).
Proof.
  induction fuel as [| fuel IH]; intros h tvdeadline delay m m' r.
  - simpl. unfold ret. intro H. inversion H. right. split; [left |]; reflexivity.
  - cbn [timedwait_loop].
    unfold bind at 1. unfold do_sem_trywait, syscall_fallible.
    cbn [sem_trywait Ideal.posix Ideal.posix_with]. unfold Ideal.try_down.
    destruct (Z.ltb_spec 0 (Ideal.sem_value (os m))) as [Hpos | Hnone].
    + unfold ret. intro H. inversion H. left.
      split; [reflexivity |]. split; [exact Hpos | reflexivity].
    + unfold bind at 1, get_errno. cbn [errno fst snd errno_eqb negb].
      unfold bind at 1. unfold do_gettimeofday, syscall_fallible.
      cbn [os errno trace gettimeofday Ideal.posix Ideal.posix_with].
      destruct (deadline_passed tvdeadline _).
      * unfold bind, set_errno, ret. intro H. inversion H.
        right. split; [right; left |]; reflexivity.
      * unfold bind at 1. unfold do_select, syscall_fallible.
        cbn [os errno trace select Ideal.posix Ideal.posix_with].
        unfold bind at 1. unfold do_PyErr_CheckSignals, syscall_total.
        cbn [os errno trace PyErr_CheckSignals Ideal.runtime].
        match goal with
        | |- context [Ideal.check_signals ?w0] =>
          assert (Hv : Ideal.sem_value (snd (Ideal.check_signals w0))
                       = Ideal.sem_value (os m));
          [unfold Ideal.check_signals; cbn [Ideal.advance Ideal.sigint_at Ideal.clock
                                             Ideal.sem_value Ideal.sem_max];
           destruct (Ideal.sigint_at (os m)) as [s |]; [| reflexivity];
           match goal with |- context [?a <=? ?b] => destruct (a <=? b) end;
           reflexivity
          | destruct (Ideal.check_signals w0) as [sig w'] ]
        end.
        cbn [snd] in Hv.
        destruct (negb (sig =? 0)).
        -- unfold bind, set_errno, ret. intro H. inversion H.
           right. split; [right; right; reflexivity | exact Hv].
        -- intro H. apply IH in H. cbn [os] in H. rewrite Hv in H. exact H.
Qed.

Lemma ideal_acquire_loop_units :
  forall (broken : bool) (fuel inner : nat) (h : SEM_HANDLE) (blocking : Z) (t : PyObject)
         (d : timespec) (m m' : machine Ideal.world) (r : option Z),
    acquire_loop (px := Ideal.posix_with broken) fuel inner h blocking t d m = (r, m') ->
    (r = Some 0 /\ 0 < Ideal.sem_value (os m)
     /\ Ideal.sem_value (os m') = Ideal.sem_value (os m) - 1)
    \/ ((r = None \/ r = Some (-1) \/ r = Some (-1006))
        /\ Ideal.sem_value (os m') = Ideal.sem_value (os m)).
Proof.
  induction fuel as [| fuel IH]; intros inner h blocking t d m m' r.
  - simpl. unfold ret. intro H. inversion H. right. split; [left |]; reflexivity.
  - cbn [acquire_loop]. unfold bind at 1.
    assert (Hbody : forall r1 m1,
      (if negb (blocking =? 0) && is_Py_None t
       then s <- do_sem_wait (px := Ideal.posix_with broken) h ;; ret (Some (status s))
       else if blocking =? 0
            then s <- do_sem_trywait (px := Ideal.posix_with broken) h ;; ret (Some (status s))
            else Billiard_sem_timedwait_save (px := Ideal.posix_with broken) inner h d) m = (r1, m1) ->
      (r1 = Some 0 /\ 0 < Ideal.sem_value (os m)
       /\ Ideal.sem_value (os m1) = Ideal.sem_value (os m) - 1)
      \/ ((r1 = None \/ r1 = Some (-1) \/ r1 = Some (-1006))
          /\ Ideal.sem_value (os m1) = Ideal.sem_value (os m))).
    { intros r1 m1.
      destruct (negb (blocking =? 0) && is_Py_None t).
      - unfold bind, do_sem_wait, syscall_fallible, ret.
        cbn [sem_wait Ideal.posix Ideal.posix_with]. unfold Ideal.down.
        destruct (Z.ltb_spec 0 (Ideal.sem_value (os m))) as [Hpos | Hnone];
          intro H; inversion H;
          [left; split; [reflexivity |]; split; [exact Hpos | reflexivity]
          | right; split; [right; left |]; reflexivity].
      - destruct (blocking =? 0).
        + unfold bind, do_sem_trywait, syscall_fallible, ret.
          cbn [sem_trywait Ideal.posix Ideal.posix_with]. unfold Ideal.try_down.
          destruct (Z.ltb_spec 0 (Ideal.sem_value (os m))) as [Hpos | Hnone];
            intro H; inversion H;
            [left; split; [reflexivity |]; split; [exact Hpos | reflexivity]
            | right; split; [right; left |]; reflexivity].
        + unfold Billiard_sem_timedwait_save, bind, set_errno. intro H.
          apply ideal_timedwait_units in H. exact H. }
    destruct ((if negb (blocking =? 0) && is_Py_None t
               then s <- do_sem_wait (px := Ideal.posix_with broken) h ;; ret (Some (status s))
               else if blocking =? 0
                    then s <- do_sem_trywait (px := Ideal.posix_with broken) h ;; ret (Some (status s))
                    else Billiard_sem_timedwait_save (px := Ideal.posix_with broken) inner h d) m) as [r1 m1].
    pose proof (Hbody r1 m1 eq_refl) as Hb. clear Hbody.
    destruct Hb as [[Hr [Hpos Hv]] | [[Hr | [Hr | Hr]] Hv]]; subst r1.
    + simpl. unfold ret. intro H. inversion H. subst. left.
      split; [reflexivity |]. split; [exact Hpos | exact Hv].
    + unfold ret. intro H. inversion H. subst. right. split; [left; reflexivity | exact Hv].
    + change (-1 =? MP_EXCEPTION_HAS_BEEN_SET) with false.
      change (-1 <? 0) with true. cbv iota.
      unfold bind at 1, get_errno. cbn [fst snd].
      destruct (errno_eqb (errno m1) EINTR).
      * unfold bind at 1, do_PyErr_CheckSignals, syscall_total.
        cbn [PyErr_CheckSignals Ideal.runtime].
        assert (Hc : Ideal.sem_value (snd (Ideal.check_signals (os m1)))
                     = Ideal.sem_value (os m1)).
        { unfold Ideal.check_signals.
          destruct (Ideal.sigint_at (os m1)) as [s |]; [| reflexivity].
          destruct (s <=? Ideal.clock (os m1)); reflexivity. }
        destruct (Ideal.check_signals (os m1)) as [sig w']. cbn [snd] in Hc.
        destruct (sig =? 0).
        -- intro H. apply IH in H. cbn [os] in H. rewrite Hc, Hv in H. exact H.
        -- unfold ret. intro H. inversion H. subst. cbn [os].
           right. split; [right; left; reflexivity | congruence].
      * unfold ret. intro H. inversion H. subst.
        right. split; [right; left; reflexivity | exact Hv].
    + unfold ret. simpl. intro H. inversion H. subst.
      right. split; [right; right; reflexivity | exact Hv].
Qed.

Lemma acquire_finish_failed :
  forall (W : Type) (tid : Z) (self s : BilliardSemLockObject) (res : Z)
         (m m' : machine W) (r : PyResult),
    res < 0 ->
    acquire_finish tid self res m = (r, s, m') ->
    r <> Py_True /\ s = self /\ m' = m.
Proof.
  intros W tid self s res m m' r Hres. unfold acquire_finish.
  replace (res <? 0) with true by (symmetry; apply Z.ltb_lt; exact Hres).
  unfold bind, get_errno, ret.
  destruct (errno_eqb (errno m) EAGAIN || errno_eqb (errno m) ETIMEDOUT);
    [| destruct (errno_eqb (errno m) EINTR)];
    intro H; inversion H; (split; [discriminate | split; reflexivity]).
Qed.

(** An acquire off the fast path takes a unit exactly when it returns
    [True], and there was one to take. *)
Lemma ideal_acquire_slow_units :
  forall (broken : bool) (fuel : nat) (tid : Z) (self s : BilliardSemLockObject) (blocking : Z)
         (t : PyObject) (m m' : machine Ideal.world) (r : option PyResult),
    (kind self =? RECURSIVE_MUTEX) && ISMINE tid self = false ->
    Billiard_semlock_acquire (px := Ideal.posix_with broken) fuel tid self blocking t m = (r, s, m') ->
    (r = Some Py_True /\ 0 < Ideal.sem_value (os m)
     /\ s = set_last_tid (set_count self (to_int (count self + 1))) tid
     /\ Ideal.sem_value (os m') = Ideal.sem_value (os m) - 1)
    \/ (r <> Some Py_True /\ s = self
        /\ Ideal.sem_value (os m') = Ideal.sem_value (os m)).
Proof.
  intros broken fuel tid self s blocking t m m' r Hslow.
  assert (Hwait : forall d m0,
    acquire_wait (px := Ideal.posix_with broken) fuel tid self blocking t d m0 = (r, s, m') ->
    (r = Some Py_True /\ 0 < Ideal.sem_value (os m0)
     /\ s = set_last_tid (set_count self (to_int (count self + 1))) tid
     /\ Ideal.sem_value (os m') = Ideal.sem_value (os m0) - 1)
    \/ (r <> Some Py_True /\ s = self
        /\ Ideal.sem_value (os m') = Ideal.sem_value (os m0))).
  { intros d m0. unfold acquire_wait. unfold bind at 1.
    destruct (acquire_loop (px := Ideal.posix_with broken) fuel fuel (handle self) blocking t d m0) as [r1 m1] eqn:Hloop.
    apply ideal_acquire_loop_units in Hloop.
    destruct Hloop as [[Hr [Hpos Hv]] | [[Hr | [Hr | Hr]] Hv]]; subst r1.
    - unfold bind, ret, acquire_finish. simpl. intro H. inversion H. subst.
      left. split; [reflexivity |]. split; [exact Hpos |].
      split; [reflexivity | exact Hv].
    - unfold ret. intro H. inversion H. subst. right.
      split; [discriminate |]. split; [reflexivity | exact Hv].
    - unfold bind at 1.
      destruct (acquire_finish tid self (-1) m1) as [[r2 s2] m2] eqn:Hf.
      apply acquire_finish_failed in Hf; [| reflexivity].
      destruct Hf as (Hr & Hs & Hm).
      unfold ret. cbn [fst snd]. intro H. inversion H. subst.
      right. split; [congruence |]. split; [reflexivity | exact Hv].
    - unfold bind at 1.
      destruct (acquire_finish tid self (-1006) m1) as [[r2 s2] m2] eqn:Hf.
      apply acquire_finish_failed in Hf; [| reflexivity].
      destruct Hf as (Hr & Hs & Hm).
      unfold ret. cbn [fst snd]. intro H. inversion H. subst.
      right. split; [congruence |]. split; [reflexivity | exact Hv]. }
  unfold Billiard_semlock_acquire. rewrite Hslow.
  destruct (negb (is_Py_None t)); [| apply Hwait].
  destruct (PyFloat_AsDouble t) as [timeout |].
  - unfold bind at 1, do_gettimeofday, syscall_fallible.
    cbn [gettimeofday Ideal.posix Ideal.posix_with].
    intro H. apply Hwait in H. exact H.
  - unfold ret. intro H. inversion H. right.
    split; [discriminate |]. split; reflexivity.
Qed.

Lemma ideal_acquire_units :
  forall (broken : bool) (fuel : nat) (tid : Z) (self s : BilliardSemLockObject) (blocking : Z)
         (t : PyObject) (m m' : machine Ideal.world) (r : option PyResult),
    kind self <> RECURSIVE_MUTEX ->
    Billiard_semlock_acquire (px := Ideal.posix_with broken) fuel tid self blocking t m = (r, s, m') ->
    (s = set_last_tid (set_count self (to_int (count self + 1))) tid
     /\ Ideal.sem_value (os m') = Ideal.sem_value (os m) - 1)
    \/ (s = self /\ Ideal.sem_value (os m') = Ideal.sem_value (os m)).
Proof.
  intros broken fuel tid self s blocking t m m' r Hk H.
  apply ideal_acquire_slow_units in H.
  - destruct H as [(_ & _ & Hs & Hv) | (_ & Hs & Hv)]; [left | right];
      split; assumption.
  - replace (kind self =? RECURSIVE_MUTEX) with false
      by (symmetry; apply Z.eqb_neq; exact Hk).
    reflexivity.
Qed.

(** A release of a semaphore gives a unit back exactly when it returns
    [None]; it does so only below [maxvalue] when the value can be read,
    and only at value 0 or less when it cannot and [maxvalue] is 1. *)
Lemma ideal_release_units :
  forall (broken : bool) (tid : Z) (self s : BilliardSemLockObject)
         (m m' : machine Ideal.world) (r : PyResult),
    kind self <> RECURSIVE_MUTEX ->
    Billiard_semlock_release (px := Ideal.posix_with broken) tid self m = (r, s, m') ->
    (s = set_count self (to_int (count self - 1))
     /\ Ideal.sem_value (os m') = Ideal.sem_value (os m) + 1
     /\ (broken = false -> Ideal.sem_value (os m) < maxvalue self)
     /\ (maxvalue self = 1 -> Ideal.sem_value (os m) < maxvalue self))
    \/ (s = self /\ Ideal.sem_value (os m') = Ideal.sem_value (os m)).
Proof.
  intros broken tid self s m m' r Hk.
  assert (Hpost : forall m0 : machine Ideal.world,
    release_post (px := Ideal.posix_with broken) self m0 = (r, s, m') ->
    s = set_count self (to_int (count self - 1))
    /\ Ideal.sem_value (os m') = Ideal.sem_value (os m0) + 1).
  { intro m0. unfold release_post, bind, do_sem_post, syscall_fallible, ret.
    cbn [os sem_post Ideal.posix_with]. intro H. inversion H.
    split; reflexivity. }
  unfold Billiard_semlock_release.
  replace (kind self =? RECURSIVE_MUTEX) with false
    by (symmetry; apply Z.eqb_neq; exact Hk).
  cbn [HAVE_BROKEN_SEM_GETVALUE Ideal.posix_with].
  destruct broken.
  - destruct (Z.eqb_spec (maxvalue self) 1) as [Hone | Hmany].
    + unfold bind at 1, do_sem_trywait, syscall_fallible.
      cbn [sem_trywait Ideal.posix_with]. unfold Ideal.try_down.
      destruct (Z.ltb_spec 0 (Ideal.sem_value (os m))) as [Hfree | Htaken].
      * unfold bind, do_sem_post, syscall_fallible, ret.
        cbn [os sem_post Ideal.posix_with]. intro H. inversion H.
        right. split; [reflexivity |]. cbn [os Ideal.with_value Ideal.sem_value]. lia.
      * unfold bind at 1, get_errno. cbn [errno fst snd errno_eqb negb].
        intro H. apply Hpost in H. cbn [os] in H. destruct H as [Hs Hv].
        left. split; [exact Hs |]. split; [exact Hv |].
        split; [discriminate | intros _; lia].
    + intro H. apply Hpost in H. destruct H as [Hs Hv].
      left. split; [exact Hs |]. split; [exact Hv |].
      split; [discriminate | intro H1; contradiction].
  - unfold bind at 1, do_sem_getvalue, syscall_fallible.
    cbn [sem_getvalue Ideal.posix_with].
    destruct (Z.geb_spec (Ideal.sem_value (os m)) (maxvalue self)) as [Hfull | Hroom].
    + unfold ret. intro H. inversion H. right. split; reflexivity.
    + intro H. apply Hpost in H. cbn [os] in H. destruct H as [Hs Hv].
      left. split; [exact Hs |]. split; [exact Hv |].
      split; intros _; exact Hroom.
Qed.

Lemma ideal_run_calls_units :
  forall (broken : bool) (cs : list call) (self s' : BilliardSemLockObject)
         (m m' : machine Ideal.world) (rs : list (option PyResult)),
    kind self <> RECURSIVE_MUTEX ->
    Forall (fun c => c <> CallAfterFork) cs ->
    - 2 ^ 31 + Z.of_nat (List.length cs) <= count self ->
    count self <= 2 ^ 31 - 1 - Z.of_nat (List.length cs) ->
    run_calls (Billiard_semlock_acquire (px := Ideal.posix_with broken))
      (Billiard_semlock_release (px := Ideal.posix_with broken)) cs self m
    = (rs, s', m') ->
    Ideal.sem_value (os m') + count s' = Ideal.sem_value (os m) + count self
    /\ (broken = false \/ maxvalue self = 1 ->
        Ideal.sem_value (os m) <= maxvalue self ->
        Ideal.sem_value (os m') <= maxvalue self).
Proof.
  induction cs as [| c cs IH]; intros self s' m m' rs Hk Hcs Hlo0 Hhi0.
  - cbn [run_calls]. unfold ret. intro H. inversion H. subst.
    split; [reflexivity | trivial].
  - change (List.length (c :: cs)) with (S (List.length cs)) in Hlo0, Hhi0.
    rewrite Nat2Z.inj_succ in Hlo0, Hhi0.
    inversion Hcs as [| c' cs' Hc0 Hcs0]; subst.
    cbn [run_calls]. unfold bind at 1.
    assert (Hstep : forall r s m1,
      run_call (Billiard_semlock_acquire (px := Ideal.posix_with broken))
        (Billiard_semlock_release (px := Ideal.posix_with broken)) c self m = (r, s, m1) ->
      kind s = kind self /\ maxvalue s = maxvalue self
      /\ - 2 ^ 31 + Z.of_nat (List.length cs) <= count s
      /\ count s <= 2 ^ 31 - 1 - Z.of_nat (List.length cs)
      /\ Ideal.sem_value (os m1) + count s = Ideal.sem_value (os m) + count self
      /\ (broken = false \/ maxvalue self = 1 ->
          Ideal.sem_value (os m) <= maxvalue self ->
          Ideal.sem_value (os m1) <= maxvalue self)).
    { intros r s m1. destruct c as [fuel tid blocking t | tid |]; cbn [run_call].
      - intro H. apply ideal_acquire_units in H; [| exact Hk].
        destruct H as [[Hs Hv] | [Hs Hv]]; subst s;
          unfold set_last_tid, set_count; cbn [count kind maxvalue];
          rewrite ?to_int_small by lia; repeat split; try lia; intros _; lia.
      - unfold bind, ret.
        destruct (Billiard_semlock_release (px := Ideal.posix_with broken) tid self m) as [[r0 s0] m0] eqn:Hrel.
        cbn [fst snd]. intro H. inversion H. subst.
        apply ideal_release_units in Hrel; [| exact Hk].
        destruct Hrel as [(Hs & Hv & Hread & Hone) | [Hs Hv]]; subst s;
          unfold set_last_tid, set_count; cbn [count kind maxvalue];
          rewrite ?to_int_small by lia; repeat split; try lia;
          intros [Hb | Hb] Hle; try specialize (Hread Hb); try specialize (Hone Hb); lia.
      - contradiction Hc0. reflexivity. }
    destruct (run_call (Billiard_semlock_acquire (px := Ideal.posix_with broken))
        (Billiard_semlock_release (px := Ideal.posix_with broken)) c self m)
      as [[r s] m1].
    destruct (Hstep r s m1 eq_refl) as (Hk1 & Hmax1 & Hlo & Hhi & Hsum & Hle).
    cbn [fst snd]. unfold bind at 1.
    assert (Hk' : kind s <> RECURSIVE_MUTEX) by congruence.
    specialize (IH s).
    destruct (run_calls (Billiard_semlock_acquire (px := Ideal.posix_with broken))
      (Billiard_semlock_release (px := Ideal.posix_with broken)) cs s m1)
      as [[rs2 s2] m2] eqn:Hrest.
    apply IH in Hrest; [| exact Hk' | exact Hcs0 | exact Hlo | exact Hhi].
    destruct Hrest as [IHsum IHle].
    unfold ret. cbn [fst snd]. intro H. inversion H. subst.
    split; [lia |]. intros Hb H0. rewrite <- Hmax1. apply IHle.
    + rewrite Hmax1. exact Hb.
    + rewrite Hmax1. auto.
Qed.

(** X12.  In the concrete world, where one instance alone uses the kernel
    semaphore, the units are conserved on a POSIX semaphore (any kind but
    [RECURSIVE_MUTEX]), on either build (with or without
    [HAVE_BROKEN_SEM_GETVALUE]): through any sequence of acquire and release
    calls, by any threads and with any arguments, the value of the kernel
    semaphore plus the local [count] stays what it was -- every acquire
    that takes a unit counts it and every release that gives one back
    uncounts it, and a call that fails or does not return moves neither.
    Where the release guards the value -- on the build that can read it,
    and on the other build for [maxvalue == 1] only -- a value that was at
    most [maxvalue] stays at most [maxvalue].  (On the build with
    [HAVE_BROKEN_SEM_GETVALUE] and another [maxvalue] the release does not
    check, and the value is not bounded.  Without after-fork calls, which
    reset [count]; the calls are assumed few enough for [count] to stay
    within a C [int].) *)
Theorem unix_semaphore_units_are_conserved :
  forall (broken : bool) (cs : list call) (self : BilliardSemLockObject)
         (m : machine Ideal.world),
    kind self <> RECURSIVE_MUTEX ->
    Forall (fun c => c <> CallAfterFork) cs ->
    - 2 ^ 31 + Z.of_nat (List.length cs) <= count self
    /\ count self <= INT_MAX - Z.of_nat (List.length cs) ->
    let out := unix_run_calls (px := Ideal.posix_with broken) cs self m in
    Ideal.sem_value (os (snd out)) + count (snd (fst out))
    = Ideal.sem_value (os m) + count self
    /\ (broken = false \/ maxvalue self = 1 ->
        Ideal.sem_value (os m) <= maxvalue self ->
        Ideal.sem_value (os (snd out)) <= maxvalue self).
Proof.
  intros broken cs self m Hk Hcs [Hlo Hhi] out. rewrite INT_MAX_eq in Hhi.
  assert (Hout : unix_run_calls (px := Ideal.posix_with broken) cs self m = out)
    by reflexivity.
  clearbody out. destruct out as [[rs s'] m']. unfold unix_run_calls in Hout.
  cbn [fst snd].
  apply (ideal_run_calls_units broken cs self s' m m' rs Hk Hcs Hlo Hhi Hout).
Qed.

Lemma unix_semaphore_units_are_conserved_witness :
  let self := mkSemLock Ideal.the_handle 0 0 2 SEMAPHORE None in
  let lock := mkSemLock Ideal.the_handle 0 0 1 SEMAPHORE None in
  let m := Ideal.boot (Ideal.mkWorld 2 2 0 None) in
  let m1 := Ideal.boot (Ideal.mkWorld 1 1 0 None) in
  let cs := [CallAcquire 2 7 1 Py_None; CallAcquire 2 8 0 Py_None;
             CallAcquire 9 9 1 (PyNumber (1 # 1000)); CallRelease 5;
             CallRelease 5; CallRelease 5] in
  kind self <> RECURSIVE_MUTEX
  /\ Forall (fun c => c <> CallAfterFork) cs
  /\ (- 2 ^ 31 + Z.of_nat (List.length cs) <= count self
      /\ count self <= INT_MAX - Z.of_nat (List.length cs))
  /\ Ideal.sem_value (os (snd (unix_run_calls (px := Ideal.posix_with false) cs self m)))
     + count (snd (fst (unix_run_calls (px := Ideal.posix_with false) cs self m))) = 2
  /\ Ideal.sem_value (os (snd (unix_run_calls (px := Ideal.posix_with false) cs self m)))
     <= 2
  /\ Ideal.sem_value (os (snd (unix_run_calls (px := Ideal.posix_with true) cs lock m1)))
     <= 1.
Proof.
  intros self lock m m1 cs.
  assert (H1 : kind self <> RECURSIVE_MUTEX) by discriminate.
  assert (H2 : Forall (fun c => c <> CallAfterFork) cs)
    by (repeat constructor; discriminate).
  assert (H3 : - 2 ^ 31 + Z.of_nat (List.length cs) <= count self
               /\ count self <= INT_MAX - Z.of_nat (List.length cs))
    by (vm_compute; split; congruence).
  split; [exact H1 |]. split; [exact H2 |]. split; [exact H3 |].
  destruct (unix_semaphore_units_are_conserved false cs self m H1 H2 H3) as [Hsum Hle].
  split; [exact Hsum |]. split.
  - apply Hle; [left; reflexivity | vm_compute; congruence].
  - destruct (unix_semaphore_units_are_conserved true cs lock m1 H1 H2 H3) as [_ Hle1].
    apply Hle1; [right; reflexivity | vm_compute; congruence].
Defined.

(** The bound cannot be had on the build with [HAVE_BROKEN_SEM_GETVALUE]
    for another [maxvalue]: there a release of a semaphore with
    [maxvalue == 2] that stands at 2 posts it, and the value is 3
    ([count] goes down with it, so the sum is kept); the build that reads
    the value raises [ValueError] and posts nothing. *)
Lemma release_is_unguarded_on_broken_build :
  let self := mkSemLock Ideal.the_handle 0 0 2 SEMAPHORE None in
  let m := Ideal.boot (Ideal.mkWorld 2 2 0 None) in
  let unguarded := Billiard_semlock_release (px := Ideal.posix_with true) 5 self m in
  let guarded := Billiard_semlock_release (px := Ideal.posix_with false) 5 self m in
  (fst (fst unguarded) = Py_RETURN_NONE
   /\ count (snd (fst unguarded)) = -1
   /\ Ideal.sem_value (os (snd unguarded)) = 3
   /\ trace (snd unguarded) = [SYS_sem_post Ideal.the_handle])
  /\ (fst (fst guarded) = PyNULL ValueError
      /\ count (snd (fst guarded)) = 0
      /\ Ideal.sem_value (os (snd guarded)) = 2
      /\ trace (snd guarded) = [SYS_sem_getvalue Ideal.the_handle]).
Proof. repeat split. Qed.

(** ** Creation *)

Lemma semlock_new_after_create :
  forall (hdr : MP_Header) (W : Type) (rt : PyRuntime W) (px : Posix W)
         (knd value maxv : Z) (nm : string) (unlink : Z)
         (m m0 m1 m' : machine W) (hd : SEM_HANDLE)
         (r : PyExc + BilliardSemLockObject),
    knd = RECURSIVE_MUTEX \/ knd = SEMAPHORE ->
    (if unlink =? 0 then do_PyMem_Malloc else ret (Some tt)) m = (Some tt, m0) ->
    unix_SEM_CREATE nm value maxv m0 = (Some hd, m1) ->
    unix_semlock_new knd value maxv nm unlink m = (r, m') ->
    (r = inr (mkSemLock hd 0 0 maxv knd (if unlink =? 0 then Some nm else None))
     /\ trace m' = trace m1 ++ (if unlink =? 0 then [] else [SYS_sem_unlink nm])
                            ++ [SYS_PyObject_New])
    \/ (r = inl (Billiard_Error MP_STANDARD_ERROR)
        /\ exists evs : list syscall,
             trace m' = trace m1 ++ evs ++ [SYS_sem_close hd]
             /\ (evs = [SYS_sem_unlink nm] \/ evs = [SYS_PyObject_New]
                 \/ evs = [SYS_sem_unlink nm; SYS_PyObject_New])).
Proof.
  intros hdr W rt px knd value maxv nm unlink m m0 m1 m' hd r Hk Hmalloc Hcreate.
  unfold unix_semlock_new, Billiard_semlock_new.
  replace (negb (knd =? RECURSIVE_MUTEX) && negb (knd =? SEMAPHORE)) with false
    by (destruct Hk; subst knd; reflexivity).
  unfold bind at 1. rewrite Hmalloc.
  unfold bind at 1. unfold unix_SEM_CLEAR_ERROR at 1. unfold ret at 1.
  unfold bind at 1. rewrite Hcreate.
  unfold bind at 1. unfold unix_SEM_GET_LAST_ERROR at 1. unfold ret at 1.
  cbn [Z.eqb negb].
  assert (Hnew : forall (m2 : machine W) (evs : list syscall),
    trace m2 = trace m1 ++ evs ->
    (o <- Billiard_newsemlockobject hd knd maxv
            (if unlink =? 0 then Some nm else None) ;;
     match o with
     | None => unix_SEM_CLOSE hd ;;; ret (inl (Billiard_Error MP_STANDARD_ERROR))
     | Some self => ret (inr self)
     end) m2 = (r, m') ->
    (r = inr (mkSemLock hd 0 0 maxv knd (if unlink =? 0 then Some nm else None))
     /\ trace m' = trace m1 ++ evs ++ [SYS_PyObject_New])
    \/ (r = inl (Billiard_Error MP_STANDARD_ERROR)
        /\ trace m' = trace m1 ++ (evs ++ [SYS_PyObject_New]) ++ [SYS_sem_close hd])).
  { intros m2 evs Htr.
    unfold Billiard_newsemlockobject, do_PyObject_New, unix_SEM_CLOSE.
    unfold bind, ret, syscall_fallible.
    destruct (PyObject_New (os m2)) as [[[] | e] w]; cbn [os trace errno].
    - intro H. inversion H. subst. left. split; [reflexivity |].
      cbn [trace]. rewrite Htr, <- app_assoc. reflexivity.
    - destruct (sem_close hd w) as [[[] | e'] w']; intro H; inversion H; subst;
        right; (split; [reflexivity |]); cbn [trace];
        rewrite Htr, <- !app_assoc; reflexivity. }
  destruct (unlink =? 0) eqn:Hu.
  - unfold bind at 1. unfold ret at 1. cbn [Z.ltb Z.compare].
    intro H. apply (Hnew m1 []) in H; [| now rewrite app_nil_r].
    destruct H as [[Hr Ht] | [Hr Ht]].
    + left. split; [exact Hr | exact Ht].
    + right. split; [exact Hr |]. exists [SYS_PyObject_New].
      split; [exact Ht | auto].
  - unfold bind at 1. unfold unix_SEM_UNLINK at 1. unfold bind at 1.
    unfold syscall_fallible at 1.
    destruct (sem_unlink nm (os m1)) as [[[] | e] w]; unfold ret at 1; cbn [status Z.ltb Z.compare].
    + intro H. apply (Hnew _ [SYS_sem_unlink nm]) in H; [| reflexivity].
      destruct H as [[Hr Ht] | [Hr Ht]].
      * left. split; [exact Hr | exact Ht].
      * right. split; [exact Hr |]. exists [SYS_sem_unlink nm; SYS_PyObject_New].
        split; [exact Ht | auto].
    + unfold unix_SEM_CLOSE, bind, ret, syscall_fallible. cbn [os trace errno].
      destruct (sem_close hd w) as [[[] | e'] w']; intro H; inversion H; subst;
        right; (split; [reflexivity |]); exists [SYS_sem_unlink nm]; cbn [trace];
        (split; [rewrite <- !app_assoc; reflexivity | auto]).
Qed.

(** X13.  [SemLock.__new__] on POSIX never loses the semaphore it created.
    Once [sem_open] with [O_CREAT | O_EXCL] has returned a handle, the call
    either returns an instance that holds this very handle -- with [count]
    and [last_tid] zero, the kind and maximum asked for, and the name kept
    exactly when [unlink] is zero; the name was unlinked before the object
    was allocated exactly when [unlink] is not zero, and the handle was not
    closed -- or it fails with the error of [MP_STANDARD_ERROR] and its last
    call closed that handle. *)
Theorem semlock_new_keeps_or_closes_handle :
  forall (hdr : MP_Header) (W : Type) (rt : PyRuntime W) (px : Posix W)
         (knd value maxv : Z) (nm : string) (unlink : Z)
         (m m0 m1 m' : machine W) (hd : SEM_HANDLE)
         (r : PyExc + BilliardSemLockObject),
    knd = RECURSIVE_MUTEX \/ knd = SEMAPHORE ->
    (if unlink =? 0 then do_PyMem_Malloc else ret (Some tt)) m = (Some tt, m0) ->
    unix_SEM_CREATE nm value maxv m0 = (Some hd, m1) ->
    unix_semlock_new knd value maxv nm unlink m = (r, m') ->
    (exists self : BilliardSemLockObject,
        r = inr self
        /\ handle self = hd /\ count self = 0 /\ last_tid self = 0
        /\ kind self = knd /\ maxvalue self = maxv
        /\ name self = (if unlink =? 0 then Some nm else None)
        /\ trace m' = trace m1 ++ (if unlink =? 0 then [] else [SYS_sem_unlink nm])
                               ++ [SYS_PyObject_New])
    \/ (r = inl (Billiard_Error MP_STANDARD_ERROR)
        /\ exists evs : list syscall,
             trace m' = trace m1 ++ evs ++ [SYS_sem_close hd]).
Proof.
  intros hdr W rt px knd value maxv nm unlink m m0 m1 m' hd r Hk Hmalloc Hcreate Hnew.
  destruct (semlock_new_after_create hdr W rt px knd value maxv nm unlink
              m m0 m1 m' hd r Hk Hmalloc Hcreate Hnew)
    as [[Hr Ht] | [Hr [evs [Ht _]]]].
  - left. eexists. split; [exact Hr |]. cbn [handle count last_tid kind maxvalue name].
    repeat split. exact Ht.
  - right. split; [exact Hr |]. exists evs. exact Ht.
Qed.

Lemma semlock_new_keeps_or_closes_handle_witness :
  let m := Ideal.boot (Ideal.mkWorld 0 0 0 None) in
  let m1 := mkMachine (Ideal.mkWorld 1 0 0 None) ENOERR
                      [SYS_sem_create "/mp-1"%string 1] in
  exists m' : machine Ideal.world,
    unix_semlock_new SEMAPHORE 1 1 "/mp-1"%string 1 m
    = (inr (mkSemLock Ideal.the_handle 0 0 1 SEMAPHORE None), m')
    /\ trace m' = [SYS_sem_create "/mp-1"%string 1; SYS_sem_unlink "/mp-1"%string;
                   SYS_PyObject_New].
Proof.
  intros m m1. eexists. split; [vm_compute; reflexivity |].
  destruct (semlock_new_keeps_or_closes_handle Ideal.header Ideal.world Ideal.runtime
              Ideal.posix SEMAPHORE 1 1 "/mp-1"%string 1 m m m1
              (snd (unix_semlock_new SEMAPHORE 1 1 "/mp-1"%string 1 m))
              Ideal.the_handle
              (fst (unix_semlock_new SEMAPHORE 1 1 "/mp-1"%string 1 m))
              (or_intror eq_refl) eq_refl eq_refl (surjective_pairing _))
    as [[self (_ & _ & _ & _ & _ & _ & _ & Ht)] | [Hr _]].
  - exact Ht.
  - discriminate Hr.
Defined.

(** ** Rebuilding *)


(** ** Reading the value *)

(** X15.  [_is_zero] and [_get_value] on POSIX (without
    [HAVE_BROKEN_SEM_GETVALUE]) each make the one call [sem_getvalue] and
    leave the same state behind; both fail with the error of
    [MP_STANDARD_ERROR] exactly when that call fails.  Otherwise
    [_get_value] returns the value with the negative ones replaced by 0,
    while [_is_zero] tests the value as reported: so [_is_zero] true
    implies [_get_value] 0, but on an implementation that reports the
    waiting threads as a negative value [_get_value] is 0 while [_is_zero]
    is false. *)
Theorem iszero_tests_the_reported_value :
  forall (hdr : MP_Header) (W : Type) (px : Posix W)
         (self : BilliardSemLockObject) (sval0 sval1 : Z) (m : machine W),
    HAVE_BROKEN_SEM_GETVALUE = false ->
    let g := unix_semlock_getvalue self sval0 m in
    let z := unix_semlock_iszero self sval1 m in
    snd z = snd g
    /\ trace (snd g) = trace m ++ [SYS_sem_getvalue (handle self)]
    /\ match fst (sem_getvalue (handle self) (os m)) with
       | inl v =>
         fst g = PyInt_FromLong (Z.max 0 v)
         /\ fst z = (if v =? 0 then Py_True else Py_False)
       | inr _ =>
         fst g = PyNULL (Billiard_Error MP_STANDARD_ERROR)
         /\ fst z = PyNULL (Billiard_Error MP_STANDARD_ERROR)
       end.
Proof.
  intros hdr W px self sval0 sval1 m Hb g z. subst g z.
  unfold unix_semlock_getvalue, unix_semlock_iszero,
    Billiard_semlock_getvalue, Billiard_semlock_iszero.
  rewrite Hb.
  unfold unix_SEM_GETVALUE, do_sem_getvalue, bind, ret, syscall_fallible.
  destruct (sem_getvalue (handle self) (os m)) as [[v | e] w];
    change (0 <? 0) with false; change (-1 <? 0) with true; cbv iota;
    cbn [fst snd trace].
  - split; [reflexivity |]. split; [reflexivity |]. split; [| reflexivity].
    destruct (Z.ltb_spec v 0); f_equal; lia.
  - split; [reflexivity |]. split; [reflexivity |]. split; reflexivity.
Qed.

Lemma iszero_tests_the_reported_value_witness :
  let self := mkSemLock Ideal.the_handle 0 0 1 SEMAPHORE None in
  let m := Ideal.boot (Ideal.mkWorld (-2) 1 0 None) in
  @HAVE_BROKEN_SEM_GETVALUE Ideal.world Ideal.posix = false
  /\ fst (unix_semlock_getvalue self 7 m) = PyInt_FromLong 0
  /\ fst (unix_semlock_iszero self 7 m) = Py_False.
Proof.
  intros self m.
  assert (Hb : @HAVE_BROKEN_SEM_GETVALUE Ideal.world Ideal.posix = false)
    by reflexivity.
  split; [exact Hb |].
  destruct (iszero_tests_the_reported_value Ideal.header Ideal.world Ideal.posix
              self 7 7 m Hb) as (_ & _ & Hg & Hz).
  split; [exact Hg | exact Hz].
Defined.

Lemma with_value_same :
  forall (w : Ideal.world) (v : Z),
    v = Ideal.sem_value w ->
    Ideal.with_value (Ideal.with_value w (Ideal.sem_value w - 1)) v = w.
Proof.
  intros [v0 mx c s] v Hv. unfold Ideal.with_value. cbn. now subst v.
Qed.

(** X16.  In the concrete world the probe that stands in for
    [sem_getvalue] under [HAVE_BROKEN_SEM_GETVALUE] -- [sem_trywait], then
    [sem_post] to undo it -- leaves the semaphore as it found it, and
    [_is_zero] built either way gives the same answer on every value that
    is not negative: true on 0, false above.  (On a negative value the
    probe answers true, the test of the reported value false.) *)
Theorem iszero_probe_restores_value :
  forall (self : BilliardSemLockObject) (sval0 : Z) (m : machine Ideal.world),
    let probed := unix_semlock_iszero (px := Ideal.posix_with true) self sval0 m in
    let read := unix_semlock_iszero (px := Ideal.posix_with false) self sval0 m in
    os (snd probed) = os m
    /\ os (snd read) = os m
    /\ fst probed = (if 0 <? Ideal.sem_value (os m) then Py_False else Py_True)
    /\ fst read = (if Ideal.sem_value (os m) =? 0 then Py_True else Py_False)
    /\ (0 <= Ideal.sem_value (os m) -> fst probed = fst read).
Proof.
  intros self sval0 m probed read.
  assert (Hread : os (snd read) = os m
                  /\ fst read = (if Ideal.sem_value (os m) =? 0
                                 then Py_True else Py_False)).
  { subst read. unfold unix_semlock_iszero, Billiard_semlock_iszero.
    cbn [HAVE_BROKEN_SEM_GETVALUE Ideal.posix_with].
    unfold unix_SEM_GETVALUE, do_sem_getvalue, bind, ret, syscall_fallible.
    cbn [sem_getvalue Ideal.posix_with fst snd os]. split; reflexivity. }
  assert (Hprobed : os (snd probed) = os m
                    /\ fst probed = (if 0 <? Ideal.sem_value (os m)
                                     then Py_False else Py_True)).
  { subst probed. unfold unix_semlock_iszero, Billiard_semlock_iszero.
    cbn [HAVE_BROKEN_SEM_GETVALUE Ideal.posix_with].
    unfold do_sem_trywait, do_sem_post, bind, ret, get_errno, syscall_fallible.
    cbn [sem_trywait sem_post Ideal.posix_with]. unfold Ideal.try_down.
    destruct (0 <? Ideal.sem_value (os m)); cbn [fst snd os errno errno_eqb].
    - split; [| reflexivity]. apply with_value_same.
      unfold Ideal.with_value. cbn [Ideal.sem_value]. lia.
    - split; reflexivity. }
  destruct Hread as [Hr1 Hr2]. destruct Hprobed as [Hp1 Hp2].
  repeat split; trivial.
  intro Hv. rewrite Hr2, Hp2.
  destruct (Z.ltb_spec 0 (Ideal.sem_value (os m)));
    destruct (Z.eqb_spec (Ideal.sem_value (os m)) 0); try reflexivity; lia.
Qed.

(** X17.  On Windows the value is read by taking a unit without waiting
    and giving it back ([_Billiard_GetSemaphoreValue]).  In the concrete
    world, with the value between 0 and the maximum of the kernel
    semaphore as Win32 keeps it, [_get_value] returns exactly the value,
    [_is_zero] is true exactly on 0, and both leave the semaphore and the
    clock as they found them. *)
Theorem win_getvalue_restores_value :
  forall (self : BilliardSemLockObject) (sval0 : Z) (m : machine Ideal.world),
    0 <= Ideal.sem_value (os m) <= Ideal.sem_max (os m) ->
    let g := win_semlock_getvalue self sval0 m in
    let z := win_semlock_iszero self sval0 m in
    fst g = PyInt_FromLong (Ideal.sem_value (os m))
    /\ os (snd g) = os m
    /\ fst z = (if Ideal.sem_value (os m) =? 0 then Py_True else Py_False)
    /\ os (snd z) = os m.
Proof.
  intros self sval0 m Hv g z.
  assert (Hget : forall m0 : machine Ideal.world, os m0 = os m ->
    exists m1 : machine Ideal.world,
      _Billiard_GetSemaphoreValue (handle self) sval0 m0
      = (0, Ideal.sem_value (os m), m1) /\ os m1 = os m).
  { intros m0 Hm0. destruct m0 as [w0 e0 t0]. cbn [os] in Hm0. subst w0.
    destruct (os m) as [v mx c s]. cbn [Ideal.sem_value Ideal.sem_max] in Hv |- *.
    unfold _Billiard_GetSemaphoreValue, do_WaitForSingleObject, do_ReleaseSemaphore,
      bind, ret, syscall_total.
    cbn [WaitForSingleObject ReleaseSemaphore Ideal.win32 os].
    unfold Ideal.wait_single, Ideal.with_value, Ideal.advance.
    cbn [Ideal.sem_value Ideal.sem_max Ideal.clock Ideal.sigint_at].
    destruct (Z.ltb_spec 0 v) as [Hpos | Hzero].
    - change (WAIT_OBJECT_0 =? WAIT_OBJECT_0) with true. cbv iota beta.
      cbn [os Ideal.sem_value Ideal.sem_max Ideal.clock Ideal.sigint_at].
      replace (v - 1 <? mx) with true by (symmetry; apply Z.ltb_lt; lia).
      eexists. split.
      + f_equal. f_equal. lia.
      + cbn [os]. f_equal. lia.
    - change (0 =? INFINITE) with false. cbv iota beta.
      change (WAIT_TIMEOUT =? WAIT_OBJECT_0) with false.
      change (WAIT_TIMEOUT =? WAIT_TIMEOUT) with true. cbv iota.
      eexists. split.
      + f_equal. f_equal. lia.
      + cbn [os]. f_equal. lia. }
  destruct (Hget m eq_refl) as [m1 [Hrun Hos]].
  assert (Hg : g = (PyInt_FromLong (Ideal.sem_value (os m)), m1)).
  { subst g. unfold win_semlock_getvalue, Billiard_semlock_getvalue, bind.
    rewrite Hrun. change (0 <? 0) with false. cbv iota. unfold ret.
    replace (Ideal.sem_value (os m) <? 0) with false
      by (symmetry; apply Z.ltb_ge; lia).
    reflexivity. }
  assert (Hz : z = (if Ideal.sem_value (os m) =? 0 then Py_True else Py_False, m1)).
  { subst z. unfold win_semlock_iszero, Billiard_semlock_iszero, bind.
    rewrite Hrun. change (0 <? 0) with false. cbv iota. reflexivity. }
  rewrite Hg, Hz. cbn [fst snd]. repeat split; assumption.
Qed.

Lemma win_getvalue_restores_value_witness :
  let self := mkSemLock Ideal.the_handle 0 0 3 SEMAPHORE None in
  let m := Ideal.boot (Ideal.mkWorld 2 3 50 None) in
  0 <= Ideal.sem_value (os m) <= Ideal.sem_max (os m)
  /\ fst (win_semlock_getvalue self 9 m) = PyInt_FromLong 2
  /\ os (snd (win_semlock_getvalue self 9 m)) = os m
  /\ fst (win_semlock_iszero self 9 m) = Py_False.
Proof.
  intros self m.
  assert (Hv : 0 <= Ideal.sem_value (os m) <= Ideal.sem_max (os m))
    by (vm_compute; split; congruence).
  split; [exact Hv |].
  destruct (win_getvalue_restores_value self 9 m Hv) as (Hg & Hos & Hz & _).
  split; [exact Hg |]. split; [exact Hos | exact Hz].
Defined.

(** ** Mutual exclusion in the concrete world *)

Lemma ideal_mutex_release :
  forall (tid : Z) (self s : BilliardSemLockObject) (m m' : machine Ideal.world)
         (r : PyResult),
    kind self = RECURSIVE_MUTEX ->
    (count self = 0 /\ Ideal.sem_value (os m) = 1)
    \/ (0 < count self /\ Ideal.sem_value (os m) = 0) ->
    count self <= 2 ^ 31 - 1 ->
    Billiard_semlock_release tid self m = (r, s, m') ->
    kind s = kind self /\ count s <= count self
    /\ ((count s = 0 /\ Ideal.sem_value (os m') = 1)
        \/ (0 < count s /\ Ideal.sem_value (os m') = 0)).
Proof.
  intros tid self s m m' r Hk Hinv Hmax.
  unfold Billiard_semlock_release.
  replace (kind self =? RECURSIVE_MUTEX) with true
    by (symmetry; apply Z.eqb_eq; exact Hk).
  destruct (ISMINE tid self) eqn:Hmine; cbn [negb].
  - apply ISMINE_true_iff in Hmine. destruct Hmine as [Hpos _].
    destruct Hinv as [[H0 _] | [_ Hv]]; [lia |].
    destruct (Z.gtb_spec (count self) 1) as [Hdeep | Hlast].
    + unfold ret. intro H. inversion H. subst. unfold set_count.
      cbn [kind count]. rewrite to_int_small by lia.
      split; [reflexivity |]. split; [lia |]. right. split; [lia | exact Hv].
    + unfold release_post, bind, do_sem_post, syscall_fallible, ret.
      cbn [sem_post Ideal.posix Ideal.posix_with]. intro H. inversion H. subst.
      unfold set_count. cbn [kind count os Ideal.with_value Ideal.sem_value].
      rewrite to_int_small by lia.
      split; [reflexivity |]. split; [lia |]. left. split; lia.
  - unfold ret. intro H. inversion H. subst.
    split; [reflexivity |]. split; [lia | exact Hinv].
Qed.

Lemma ideal_mutex_acquire :
  forall (fuel : nat) (tid : Z) (self s : BilliardSemLockObject) (blocking : Z)
         (t : PyObject) (m m' : machine Ideal.world) (r : option PyResult),
    kind self = RECURSIVE_MUTEX ->
    (count self = 0 /\ Ideal.sem_value (os m) = 1)
    \/ (0 < count self /\ Ideal.sem_value (os m) = 0) ->
    count self + 1 <= 2 ^ 31 - 1 ->
    Billiard_semlock_acquire fuel tid self blocking t m = (r, s, m') ->
    kind s = kind self /\ count s <= count self + 1
    /\ ((count s = 0 /\ Ideal.sem_value (os m') = 1)
        \/ (0 < count s /\ Ideal.sem_value (os m') = 0))
    /\ (0 < count self -> last_tid self <> tid ->
        r <> Some Py_True /\ s = self
        /\ Ideal.sem_value (os m') = Ideal.sem_value (os m)).
Proof.
  intros fuel tid self s blocking t m m' r Hk Hinv Hmax Hrun.
  destruct (ISMINE tid self) eqn:Hmine.
  - rewrite (acquire_fast_path fuel tid self blocking t m Hk Hmine) in Hrun.
    inversion Hrun. subst.
    apply ISMINE_true_iff in Hmine. destruct Hmine as [Hpos Htid].
    destruct Hinv as [[H0 _] | [_ Hv]]; [lia |].
    unfold set_count. cbn [kind count]. rewrite to_int_small by lia.
    split; [reflexivity |]. split; [lia |].
    split; [right; split; [lia | exact Hv] |].
    intros _ Hother. contradiction.
  - apply ideal_acquire_slow_units in Hrun;
      [| rewrite Hmine; apply andb_false_r].
    destruct Hrun as [(Hr & Hunit & Hs & Hv) | (Hr & Hs & Hv)]; subst s.
    + destruct Hinv as [[H0 H1] | [_ Hv0]]; [| lia].
      unfold set_last_tid, set_count. cbn [kind count].
      rewrite H0. change (to_int (0 + 1)) with 1.
      split; [reflexivity |]. split; [lia |].
      split; [right; split; lia |]. intros Hpos _. lia.
    + split; [reflexivity |]. split; [lia |].
      split; [rewrite Hv; exact Hinv |]. intros _ _.
      split; [exact Hr |]. split; [reflexivity | exact Hv].
Qed.

Lemma ideal_mutex_run :
  forall (cs : list call) (self s' : BilliardSemLockObject)
         (m m' : machine Ideal.world) (rs : list (option PyResult)),
    kind self = RECURSIVE_MUTEX ->
    Forall (fun c => c <> CallAfterFork) cs ->
    (count self = 0 /\ Ideal.sem_value (os m) = 1)
    \/ (0 < count self /\ Ideal.sem_value (os m) = 0) ->
    count self + Z.of_nat (List.length cs) <= 2 ^ 31 - 1 ->
    run_calls Billiard_semlock_acquire Billiard_semlock_release cs self m
    = (rs, s', m') ->
    kind s' = RECURSIVE_MUTEX
    /\ count s' <= count self + Z.of_nat (List.length cs)
    /\ ((count s' = 0 /\ Ideal.sem_value (os m') = 1)
        \/ (0 < count s' /\ Ideal.sem_value (os m') = 0)).
Proof.
  induction cs as [| c cs IH]; intros self s' m m' rs Hk Hcs Hinv Hmax.
  - cbn [run_calls]. unfold ret. intro H. inversion H. subst.
    split; [exact Hk |]. split; [cbn; lia | exact Hinv].
  - change (List.length (c :: cs)) with (S (List.length cs)) in Hmax |- *.
    rewrite Nat2Z.inj_succ in Hmax |- *.
    inversion Hcs as [| c' cs' Hc0 Hcs0]; subst.
    cbn [run_calls]. unfold bind at 1.
    assert (Hstep : forall r s m1,
      run_call Billiard_semlock_acquire Billiard_semlock_release c self m = (r, s, m1) ->
      kind s = kind self /\ count s <= count self + 1
      /\ ((count s = 0 /\ Ideal.sem_value (os m1) = 1)
          \/ (0 < count s /\ Ideal.sem_value (os m1) = 0))).
    { intros r s m1. destruct c as [fuel tid blocking t | tid |]; cbn [run_call].
      - intro H. apply ideal_mutex_acquire in H; [| exact Hk | exact Hinv | lia].
        destruct H as (H1 & H2 & H3 & _). auto.
      - unfold bind, ret.
        destruct (Billiard_semlock_release tid self m) as [[r0 s0] m0] eqn:Hrel.
        cbn [fst snd]. intro H. inversion H. subst.
        apply ideal_mutex_release in Hrel; [| exact Hk | exact Hinv | lia].
        destruct Hrel as (H1 & H2 & H3). split; [exact H1 |]. split; [lia | exact H3].
      - contradiction Hc0. reflexivity. }
    destruct (run_call Billiard_semlock_acquire Billiard_semlock_release c self m)
      as [[r s] m1].
    destruct (Hstep r s m1 eq_refl) as (Hk1 & Hc1 & Hinv1).
    cbn [fst snd]. unfold bind at 1.
    destruct (run_calls Billiard_semlock_acquire Billiard_semlock_release cs s m1)
      as [[rs2 s2] m2] eqn:Hrest.
    apply IH in Hrest; [| congruence | exact Hcs0 | exact Hinv1 | lia].
    destruct Hrest as (Hk2 & Hc2 & Hinv2).
    unfold ret. cbn [fst snd]. intro H. inversion H. subst.
    split; [exact Hk2 |]. split; [lia | exact Hinv2].
Qed.

(** X18.  Mutual exclusion on a recursive mutex, in the concrete world.
    Let the kernel semaphore hold one unit while nobody holds the mutex
    ([count == 0]) and none while somebody does -- as it is when the mutex
    is created with value 1.  Then this stays so through any sequence of
    acquire and release calls, by any threads and with any arguments
    (without after-fork calls, and few enough for [count] to fit a C
    [int]); and whenever the mutex is held at the end, an acquire by any
    thread other than the one recorded in [last_tid] does not return
    [True]: it returns [False], raises, or waits, and leaves the instance
    and the semaphore as they are. *)
Theorem recursive_mutex_excludes :
  forall (cs : list call) (self : BilliardSemLockObject) (m : machine Ideal.world)
         (fuel : nat) (tid blocking : Z) (t : PyObject),
    kind self = RECURSIVE_MUTEX ->
    Forall (fun c => c <> CallAfterFork) cs ->
    (count self = 0 /\ Ideal.sem_value (os m) = 1)
    \/ (0 < count self /\ Ideal.sem_value (os m) = 0) ->
    count self + Z.of_nat (List.length cs) < INT_MAX ->
    let out := unix_run_calls cs self m in
    let held := snd (fst out) in
    let late := Billiard_semlock_acquire fuel tid held blocking t (snd out) in
    ((count held = 0 /\ Ideal.sem_value (os (snd out)) = 1)
     \/ (0 < count held /\ Ideal.sem_value (os (snd out)) = 0))
    /\ (0 < count held -> last_tid held <> tid ->
        fst (fst late) <> Some Py_True
        /\ snd (fst late) = held
        /\ Ideal.sem_value (os (snd late)) = 0).
Proof.
  intros cs self m fuel tid blocking t Hk Hcs Hinv Hmax out held late.
  rewrite INT_MAX_eq in Hmax.
  assert (Hout : unix_run_calls cs self m = out) by reflexivity.
  subst held late. clearbody out. destruct out as [[rs s'] m'].
  unfold unix_run_calls in Hout. cbn [fst snd].
  apply ideal_mutex_run in Hout; [| exact Hk | exact Hcs | exact Hinv | lia].
  destruct Hout as (Hk' & Hc' & Hinv').
  split; [exact Hinv' |]. intros Hpos Hother.
  destruct (Billiard_semlock_acquire fuel tid s' blocking t m') as [[r s2] m2] eqn:Hacq.
  apply ideal_mutex_acquire in Hacq; [| exact Hk' | exact Hinv' | lia].
  destruct Hacq as (_ & _ & _ & Hexcl).
  destruct (Hexcl Hpos Hother) as (Hr & Hs & Hv). cbn [fst snd].
  split; [exact Hr |]. split; [exact Hs |]. rewrite Hv.
  destruct Hinv' as [[H0 _] | [_ Hzero]]; [lia | exact Hzero].
Qed.

Lemma recursive_mutex_excludes_witness :
  let self := mkSemLock Ideal.the_handle 0 0 1 RECURSIVE_MUTEX None in
  let m := Ideal.boot (Ideal.mkWorld 1 1 0 None) in
  let cs := [CallAcquire 2 7 1 Py_None; CallAcquire 2 7 1 Py_None;
             CallRelease 8; CallRelease 7] in
  let out := unix_run_calls cs self m in
  count (snd (fst out)) = 1
  /\ last_tid (snd (fst out)) = 7
  /\ fst (fst (Billiard_semlock_acquire 5 8 (snd (fst out)) 0 Py_None (snd out)))
     <> Some Py_True.
Proof.
  intros self m cs out.
  assert (Hc : count (snd (fst out)) = 1) by (vm_compute; reflexivity).
  assert (Ht : last_tid (snd (fst out)) = 7) by (vm_compute; reflexivity).
  split; [exact Hc |]. split; [exact Ht |].
  assert (H1 : kind self = RECURSIVE_MUTEX) by reflexivity.
  assert (H2 : Forall (fun c => c <> CallAfterFork) cs)
    by (repeat constructor; discriminate).
  assert (H3 : (count self = 0 /\ Ideal.sem_value (os m) = 1)
               \/ (0 < count self /\ Ideal.sem_value (os m) = 0))
    by (left; split; reflexivity).
  assert (H4 : count self + Z.of_nat (List.length cs) < INT_MAX)
    by (vm_compute; reflexivity).
  destruct (recursive_mutex_excludes cs self m 5 8 0 Py_None H1 H2 H3 H4)
    as [_ Hexcl].
  apply Hexcl.
  - fold out. rewrite Hc. lia.
  - fold out. rewrite Ht. discriminate.
Defined.

(** ** Units of the semaphore on Windows, in the concrete world *)

Lemma ideal_check_signals_units :
  forall w : Ideal.world,
    Ideal.sem_value (snd (Ideal.check_signals w)) = Ideal.sem_value w
    /\ Ideal.sem_max (snd (Ideal.check_signals w)) = Ideal.sem_max w.
Proof.
  intro w. unfold Ideal.check_signals.
  destruct (Ideal.sigint_at w) as [t |]; [| split; reflexivity].
  destruct (t <=? Ideal.clock w); split; reflexivity.
Qed.

Lemma ideal_wait_single_units :
  forall (msecs : Z) (w : Ideal.world),
    Ideal.sem_max (snd (Ideal.wait_single msecs w)) = Ideal.sem_max w
    /\ ((fst (Ideal.wait_single msecs w) = WAIT_OBJECT_0
         /\ 0 < Ideal.sem_value w
         /\ Ideal.sem_value (snd (Ideal.wait_single msecs w)) = Ideal.sem_value w - 1)
        \/ (fst (Ideal.wait_single msecs w) <> WAIT_OBJECT_0
            /\ fst (Ideal.wait_single msecs w) <> WAIT_OBJECT_0 + 1
            /\ Ideal.sem_value (snd (Ideal.wait_single msecs w)) = Ideal.sem_value w)).
Proof.
  intros msecs w. unfold Ideal.wait_single.
  destruct (Z.ltb_spec 0 (Ideal.sem_value w)) as [Hpos | Hnone].
  - split; [reflexivity |]. left. split; [reflexivity |].
    split; [exact Hpos | reflexivity].
  - destruct (msecs =? INFINITE); (split; [reflexivity |]); right;
      (split; [discriminate |]); (split; [discriminate | reflexivity]).
Qed.

Lemma ideal_win_wait_loop_units :
  forall (fuel : nat) (h : SEM_HANDLE) (full_msecs start msecs : Z)
         (m m' : machine Ideal.world) (r : option (PyResult + Z)),
    win_wait_loop fuel h full_msecs start msecs m = (r, m') ->
    Ideal.sem_max (os m') = Ideal.sem_max (os m)
    /\ ((r = Some (inr WAIT_OBJECT_0) /\ 0 < Ideal.sem_value (os m)
         /\ Ideal.sem_value (os m') = Ideal.sem_value (os m) - 1)
        \/ (r <> Some (inr WAIT_OBJECT_0)
            /\ Ideal.sem_value (os m') = Ideal.sem_value (os m))).
Proof.
  induction fuel as [| fuel IH]; intros h full_msecs start msecs m m' r.
  - cbn [win_wait_loop]. unfold ret. intro H. inversion H. subst.
    split; [reflexivity |]. right. split; [discriminate | reflexivity].
  - cbn [win_wait_loop].
    unfold bind at 1, do_ResetEvent, syscall_total.
    cbn [ResetEvent Ideal.win32].
    unfold bind at 1, do_WaitForMultipleObjects, syscall_total.
    cbn [WaitForMultipleObjects Ideal.win32 os errno trace].
    assert (Hquiet : forall (res : Z) (w : Ideal.world)
                            (k : M Ideal.world (option (PyResult + Z)))
                            (e : errno_t) (tr : list syscall),
      Ideal.wait_single msecs (os m) = (res, w) ->
      (if negb (res =? WAIT_OBJECT_0 + 1) then ret (Some (inr res)) else k)
        (mkMachine w e tr) = (r, m') ->
      Ideal.sem_max (os m') = Ideal.sem_max (os m)
      /\ ((r = Some (inr WAIT_OBJECT_0) /\ 0 < Ideal.sem_value (os m)
           /\ Ideal.sem_value (os m') = Ideal.sem_value (os m) - 1)
          \/ (r <> Some (inr WAIT_OBJECT_0)
              /\ Ideal.sem_value (os m') = Ideal.sem_value (os m)))).
    { intros res w k e tr Hw.
      destruct (ideal_wait_single_units msecs (os m))
        as [Hmax [(Hres & Hpos & Hv) | (Hres & Hsig & Hv)]];
        rewrite Hw in Hmax, Hres, Hv; cbn [fst snd] in Hmax, Hres, Hv.
      - rewrite Hres. change (negb (WAIT_OBJECT_0 =? WAIT_OBJECT_0 + 1)) with true.
        cbv iota. unfold ret. intro H. inversion H. subst. cbn [os].
        split; [exact Hmax |]. left.
        split; [reflexivity |]. split; [exact Hpos | exact Hv].
      - rewrite Hw in Hsig. cbn [fst] in Hsig.
        replace (res =? WAIT_OBJECT_0 + 1)
          with false by (symmetry; apply Z.eqb_neq; exact Hsig).
        cbn [negb]. unfold ret. intro H. inversion H. subst. cbn [os].
        split; [exact Hmax |]. right.
        split; [intro Heq; inversion Heq; contradiction | exact Hv]. }
    assert (Hsignal :
      (if negb (WAIT_OBJECT_0 + 1 =? WAIT_OBJECT_0 + 1)
       then ret (Some (inr (WAIT_OBJECT_0 + 1)))
       else
         do_Sleep 1 ;;;
         sig <- win_PyErr_CheckSignals ;;
         if negb (sig =? 0) then ret (Some (inl (PyNULL SignalError))) else
         if negb (msecs =? INFINITE) then
           ticks <- do_GetTickCount ;;
           if to_DWORD (ticks - start) >=? full_msecs then ret (Some (inl Py_False))
           else win_wait_loop fuel h full_msecs start
                              (to_DWORD (full_msecs - to_DWORD (ticks - start)))
         else win_wait_loop fuel h full_msecs start msecs)
        (mkMachine (os m) (errno m)
           ((trace m ++ [SYS_ResetEvent]) ++ [SYS_WaitForMultipleObjects h msecs]))
      = (r, m') ->
      Ideal.sem_max (os m') = Ideal.sem_max (os m)
      /\ ((r = Some (inr WAIT_OBJECT_0) /\ 0 < Ideal.sem_value (os m)
           /\ Ideal.sem_value (os m') = Ideal.sem_value (os m) - 1)
          \/ (r <> Some (inr WAIT_OBJECT_0)
              /\ Ideal.sem_value (os m') = Ideal.sem_value (os m)))).
    { change (negb (WAIT_OBJECT_0 + 1 =? WAIT_OBJECT_0 + 1)) with false. cbv iota.
      unfold bind at 1, do_Sleep, syscall_total. cbn [Sleep Ideal.win32 os errno trace].
      unfold bind at 1, win_PyErr_CheckSignals, syscall_total.
      cbn [PyErr_CheckSignals Ideal.runtime os errno trace].
      destruct (ideal_check_signals_units (Ideal.advance (os m) (1 * 1000)))
        as [Hv Hmax].
      destruct (Ideal.check_signals (Ideal.advance (os m) (1 * 1000))) as [sig w'].
      cbn [snd Ideal.advance Ideal.sem_value Ideal.sem_max] in Hv, Hmax.
      destruct (negb (sig =? 0)).
      - unfold ret. intro H. inversion H. subst. cbn [os].
        split; [exact Hmax |]. right. split; [discriminate | exact Hv].
      - destruct (negb (msecs =? INFINITE)).
        + unfold bind at 1, do_GetTickCount, syscall_total.
          cbn [GetTickCount Ideal.win32 os errno trace].
          destruct (to_DWORD (to_DWORD (Ideal.clock w' / 1000) - start) >=? full_msecs).
          * unfold ret. intro H. inversion H. subst. cbn [os].
            split; [exact Hmax |]. right. split; [discriminate | exact Hv].
          * intro H. apply IH in H. cbn [os] in H. rewrite Hv, Hmax in H. exact H.
        + intro H. apply IH in H. cbn [os] in H. rewrite Hv, Hmax in H. exact H. }
    unfold Ideal.wait_multiple.
    destruct (Ideal.sigint_at (os m)) as [t |].
    + destruct (t <=? Ideal.clock (os m)).
      * exact Hsignal.
      * destruct (Ideal.wait_single msecs (os m)) as [res w] eqn:Hw.
        apply (Hquiet res w _ _ _ eq_refl).
    + destruct (Ideal.wait_single msecs (os m)) as [res w] eqn:Hw.
      apply (Hquiet res w _ _ _ eq_refl).
Qed.

Lemma ideal_win_acquire_units :
  forall (fuel : nat) (tid : Z) (self s : BilliardSemLockObject) (blocking : Z)
         (t : PyObject) (m m' : machine Ideal.world) (r : option PyResult),
    kind self <> RECURSIVE_MUTEX ->
    win_Billiard_semlock_acquire fuel tid self blocking t m = (r, s, m') ->
    Ideal.sem_max (os m') = Ideal.sem_max (os m)
    /\ ((s = win_acquired tid self /\ 0 < Ideal.sem_value (os m)
         /\ Ideal.sem_value (os m') = Ideal.sem_value (os m) - 1)
        \/ (s = self /\ Ideal.sem_value (os m') = Ideal.sem_value (os m))).
Proof.
  intros fuel tid self s blocking t m m' r Hk.
  unfold win_Billiard_semlock_acquire.
  destruct (win_full_msecs blocking t) as [exc | full_msecs].
  { unfold ret. intro H. inversion H. subst.
    split; [reflexivity |]. right. split; reflexivity. }
  replace (kind self =? RECURSIVE_MUTEX) with false
    by (symmetry; apply Z.eqb_neq; exact Hk).
  cbn [andb].
  unfold bind at 1, do_WaitForSingleObject, syscall_total.
  cbn [WaitForSingleObject Ideal.win32].
  destruct (ideal_wait_single_units 0 (os m))
    as [Hmax [(Hres & Hpos & Hv) | (Hres & _ & Hv)]];
    destruct (Ideal.wait_single 0 (os m)) as [res w];
    cbn [fst snd] in Hmax, Hres, Hv.
  - rewrite Hres. change (WAIT_OBJECT_0 =? WAIT_OBJECT_0) with true. cbv iota.
    unfold ret. intro H. inversion H. subst. cbn [os].
    split; [exact Hmax |]. left. split; [reflexivity |]. split; [exact Hpos | exact Hv].
  - replace (res =? WAIT_OBJECT_0) with false
      by (symmetry; apply Z.eqb_neq; exact Hres).
    unfold bind at 1, do_GetTickCount, syscall_total.
    cbn [GetTickCount Ideal.win32 os errno trace].
    unfold bind at 1.
    match goal with
    | |- context [win_wait_loop ?f ?h ?a ?b ?c ?m0] =>
      destruct (win_wait_loop f h a b c m0) as [l m2] eqn:Hloop
    end.
    apply ideal_win_wait_loop_units in Hloop. cbn [os] in Hloop.
    rewrite Hmax, Hv in Hloop.
    destruct Hloop as [Hmax2 [(Hl & Hpos2 & Hv2) | (Hl & Hv2)]].
    + subst l. change (WAIT_OBJECT_0 =? WAIT_TIMEOUT) with false.
      change (WAIT_OBJECT_0 =? WAIT_OBJECT_0) with true. cbv iota.
      unfold ret. intro H. inversion H. subst.
      split; [exact Hmax2 |]. left.
      split; [reflexivity |]. split; [exact Hpos2 | exact Hv2].
    + destruct l as [[early | res2] |].
      * unfold ret. intro H. inversion H. subst.
        split; [exact Hmax2 |]. right. split; [reflexivity | exact Hv2].
      * assert (Hres2 : res2 <> WAIT_OBJECT_0) by (intro Heq; apply Hl; now subst res2).
        replace (res2 =? WAIT_OBJECT_0) with false
          by (symmetry; apply Z.eqb_neq; exact Hres2).
        destruct (res2 =? WAIT_TIMEOUT); [| destruct (res2 =? WAIT_FAILED)];
          unfold ret; intro H; inversion H; subst;
          (split; [exact Hmax2 |]); right; (split; [reflexivity | exact Hv2]).
      * unfold ret. intro H. inversion H. subst.
        split; [exact Hmax2 |]. right. split; [reflexivity | exact Hv2].
Qed.

Lemma ideal_win_release_units :
  forall (tid : Z) (self s : BilliardSemLockObject) (m m' : machine Ideal.world)
         (r : PyResult),
    kind self <> RECURSIVE_MUTEX ->
    win_Billiard_semlock_release tid self m = (r, s, m') ->
    Ideal.sem_max (os m') = Ideal.sem_max (os m)
    /\ ((r = Py_RETURN_NONE /\ s = set_count self (to_int (count self - 1))
         /\ Ideal.sem_value (os m) < Ideal.sem_max (os m)
         /\ Ideal.sem_value (os m') = Ideal.sem_value (os m) + 1)
        \/ (r = PyNULL ValueError /\ s = self
            /\ Ideal.sem_max (os m) <= Ideal.sem_value (os m)
            /\ Ideal.sem_value (os m') = Ideal.sem_value (os m))).
Proof.
  intros tid self s m m' r Hk.
  unfold win_Billiard_semlock_release.
  replace (kind self =? RECURSIVE_MUTEX) with false
    by (symmetry; apply Z.eqb_neq; exact Hk).
  unfold bind, do_ReleaseSemaphore, syscall_total.
  cbn [ReleaseSemaphore Ideal.win32].
  destruct (Z.ltb_spec (Ideal.sem_value (os m)) (Ideal.sem_max (os m))) as [Hroom | Hfull].
  - unfold ret. intro H. inversion H. subst. cbn [os].
    split; [reflexivity |]. left.
    split; [reflexivity |]. split; [reflexivity |]. split; [exact Hroom | reflexivity].
  - change (ERROR_TOO_MANY_POSTS =? ERROR_TOO_MANY_POSTS) with true. cbv iota.
    unfold ret. intro H. inversion H. subst. cbn [os].
    split; [reflexivity |]. right.
    split; [reflexivity |]. split; [reflexivity |]. split; [exact Hfull | reflexivity].
Qed.

Lemma ideal_win_run_calls_units :
  forall (cs : list call) (self s' : BilliardSemLockObject)
         (m m' : machine Ideal.world) (rs : list (option PyResult)),
    kind self <> RECURSIVE_MUTEX ->
    Forall (fun c => c <> CallAfterFork) cs ->
    - 2 ^ 31 + Z.of_nat (List.length cs) <= count self ->
    count self <= 2 ^ 31 - 1 - Z.of_nat (List.length cs) ->
    run_calls win_Billiard_semlock_acquire win_Billiard_semlock_release cs self m
    = (rs, s', m') ->
    Ideal.sem_value (os m') + count s' = Ideal.sem_value (os m) + count self
    /\ Ideal.sem_max (os m') = Ideal.sem_max (os m)
    /\ (Ideal.sem_value (os m) <= Ideal.sem_max (os m) ->
        Ideal.sem_value (os m') <= Ideal.sem_max (os m))
    /\ maxvalue s' = maxvalue self.
Proof.
  induction cs as [| c cs IH]; intros self s' m m' rs Hk Hcs Hlo0 Hhi0.
  - cbn [run_calls]. unfold ret. intro H. inversion H. subst.
    split; [reflexivity |]. split; [reflexivity |]. split; [trivial | reflexivity].
  - change (List.length (c :: cs)) with (S (List.length cs)) in Hlo0, Hhi0.
    rewrite Nat2Z.inj_succ in Hlo0, Hhi0.
    inversion Hcs as [| c' cs' Hc0 Hcs0]; subst.
    cbn [run_calls]. unfold bind at 1.
    assert (Hstep : forall r s m1,
      run_call win_Billiard_semlock_acquire win_Billiard_semlock_release c self m
      = (r, s, m1) ->
      kind s = kind self /\ maxvalue s = maxvalue self
      /\ - 2 ^ 31 + Z.of_nat (List.length cs) <= count s
      /\ count s <= 2 ^ 31 - 1 - Z.of_nat (List.length cs)
      /\ Ideal.sem_value (os m1) + count s = Ideal.sem_value (os m) + count self
      /\ Ideal.sem_max (os m1) = Ideal.sem_max (os m)
      /\ (Ideal.sem_value (os m) <= Ideal.sem_max (os m) ->
          Ideal.sem_value (os m1) <= Ideal.sem_max (os m))).
    { intros r s m1. destruct c as [fuel tid blocking t | tid |]; cbn [run_call].
      - intro H. apply ideal_win_acquire_units in H; [| exact Hk].
        destruct H as [Hmax [(Hs & Hpos & Hv) | (Hs & Hv)]]; subst s;
          unfold win_acquired, set_last_tid, set_count; cbn [count kind maxvalue];
          rewrite ?to_int_small by lia; repeat split; lia.
      - unfold bind, ret.
        destruct (win_Billiard_semlock_release tid self m) as [[r0 s0] m0] eqn:Hrel.
        cbn [fst snd]. intro H. inversion H. subst.
        apply ideal_win_release_units in Hrel; [| exact Hk].
        destruct Hrel as [Hmax [(Hr & Hs & Hroom & Hv) | (Hr & Hs & Hfull & Hv)]];
          subst s; unfold set_count; cbn [count kind maxvalue];
          rewrite ?to_int_small by lia; repeat split; lia.
      - contradiction Hc0. reflexivity. }
    destruct (run_call win_Billiard_semlock_acquire win_Billiard_semlock_release c self m)
      as [[r s] m1].
    destruct (Hstep r s m1 eq_refl) as (Hk1 & Hmv1 & Hlo & Hhi & Hsum & Hmax1 & Hle).
    cbn [fst snd]. unfold bind at 1.
    assert (Hk' : kind s <> RECURSIVE_MUTEX) by congruence.
    specialize (IH s).
    destruct (run_calls win_Billiard_semlock_acquire win_Billiard_semlock_release cs s m1)
      as [[rs2 s2] m2] eqn:Hrest.
    apply IH in Hrest; [| exact Hk' | exact Hcs0 | exact Hlo | exact Hhi].
    destruct Hrest as (IHsum & IHmax & IHle & IHmv).
    unfold ret. cbn [fst snd]. intro H. inversion H. subst.
    split; [lia |]. split; [congruence |].
    split; [| congruence]. intro H0. rewrite <- Hmax1. apply IHle.
    rewrite Hmax1. auto.
Qed.

(** X19.  On Windows, in the concrete world, the units of a semaphore (any
    kind but [RECURSIVE_MUTEX]) are conserved as on POSIX: through any
    sequence of acquire and release calls the value of the kernel
    semaphore plus [count] stays what it was.  The bound, however, is the
    one of the kernel semaphore and not the field [maxvalue], which the
    Windows release never reads: a value that was at most the maximum of
    the kernel semaphore stays so, whatever [maxvalue] is, a release at the
    maximum being refused by [ReleaseSemaphore].  (Without after-fork
    calls; the calls are assumed few enough for [count] to stay within a C
    [int].) *)
Theorem win_semaphore_units_are_conserved :
  forall (cs : list call) (self : BilliardSemLockObject) (m : machine Ideal.world),
    kind self <> RECURSIVE_MUTEX ->
    Forall (fun c => c <> CallAfterFork) cs ->
    - 2 ^ 31 + Z.of_nat (List.length cs) <= count self
    /\ count self <= INT_MAX - Z.of_nat (List.length cs) ->
    let out := win_run_calls cs self m in
    Ideal.sem_value (os (snd out)) + count (snd (fst out))
    = Ideal.sem_value (os m) + count self
    /\ Ideal.sem_max (os (snd out)) = Ideal.sem_max (os m)
    /\ (Ideal.sem_value (os m) <= Ideal.sem_max (os m) ->
        Ideal.sem_value (os (snd out)) <= Ideal.sem_max (os m)).
Proof.
  intros cs self m Hk Hcs [Hlo Hhi] out. rewrite INT_MAX_eq in Hhi.
  assert (Hout : win_run_calls cs self m = out) by reflexivity.
  clearbody out. destruct out as [[rs s'] m']. unfold win_run_calls in Hout.
  cbn [fst snd].
  destruct (ideal_win_run_calls_units cs self s' m m' rs Hk Hcs Hlo Hhi Hout)
    as (Hsum & Hmax & Hle & _).
  split; [exact Hsum |]. split; [exact Hmax | exact Hle].
Qed.

Lemma win_semaphore_units_are_conserved_witness :
  let self := mkSemLock Ideal.the_handle 0 0 5 SEMAPHORE None in
  let m := Ideal.boot (Ideal.mkWorld 2 2 0 None) in
  let cs := [CallAcquire 2 7 1 Py_None; CallRelease 5; CallRelease 5;
             CallAcquire 3 8 1 (PyNumber (1 # 1000))] in
  kind self <> RECURSIVE_MUTEX
  /\ Forall (fun c => c <> CallAfterFork) cs
  /\ (- 2 ^ 31 + Z.of_nat (List.length cs) <= count self
      /\ count self <= INT_MAX - Z.of_nat (List.length cs))
  /\ Ideal.sem_value (os (snd (win_run_calls cs self m)))
     + count (snd (fst (win_run_calls cs self m))) = 2
  /\ Ideal.sem_value (os (snd (win_run_calls cs self m))) <= 2.
Proof.
  intros self m cs.
  assert (H1 : kind self <> RECURSIVE_MUTEX) by discriminate.
  assert (H2 : Forall (fun c => c <> CallAfterFork) cs)
    by (repeat constructor; discriminate).
  assert (H3 : - 2 ^ 31 + Z.of_nat (List.length cs) <= count self
               /\ count self <= INT_MAX - Z.of_nat (List.length cs))
    by (vm_compute; split; congruence).
  split; [exact H1 |]. split; [exact H2 |]. split; [exact H3 |].
  destruct (win_semaphore_units_are_conserved cs self m H1 H2 H3)
    as (Hsum & _ & Hle).
  split; [exact Hsum |]. apply Hle. vm_compute. congruence.
Defined.
